(** * Local service lifecycle orchestrator

    A shallow embedding of [scripts/service_utils.py] (class [ServiceUtils])
    and [scripts/simple_deploy.py] (class [SimpleDeployer]).

    The scripts are glue around the operating system: psutil, shutil,
    subprocess, requests and the clock.  Those collaborators are kept
    abstract in a record [OS] of operations on an opaque host state, every
    operation returning either a value or the exception it raised.  The
    Python methods are written over that interface in a small monad that
    threads the host state and collects, in order, the calls that were made
    and the lines that were logged. *)

From Stdlib Require Import List String Ascii ZArith Bool Lia.
Import ListNotations.

Open Scope string_scope.
Open Scope list_scope.
Open Scope Z_scope.

(** ** Values exchanged with the host *)

Definition Path := list string.

(** Exceptions that the modelled code distinguishes in its handlers;
    everything else that derives from [Exception] is [OtherError]. *)
Inductive exn :=
| NoSuchProcess
| AccessDenied
| ZombieProcess
| TimeoutExpired          (* psutil.TimeoutExpired *)
| SubprocessTimeout       (* subprocess.TimeoutExpired *)
| KeyError
| OtherError.

Inductive result (A : Type) :=
| Ok (a : A)
| Raise (e : exn).
Arguments Ok {A} a.
Arguments Raise {A} e.

(** An entry of [psutil.net_connections(kind='inet')]. *)
Record Conn := {
  laddr_port : Z;
  status : string;
  conn_pid : option Z
}.

(** The [info] dictionary of an item of
    [psutil.process_iter(['pid', 'name', 'exe'])]. *)
Record ProcInfo := {
  pi_pid : Z;
  pi_name : option string;
  pi_exe : option string
}.

(** What [subprocess.run(..., capture_output=True)] returns. *)
Record Completed := {
  returncode : Z;
  stderr : string
}.

(** What [process.communicate()] followed by [stderr.decode()] yields. *)
Inductive StderrText :=
| NoStderr
| Stderr (text : string)
| Undecodable.

(** ** The service registry ([ServiceUtils.__init__]) *)

Record ServiceConfig := {
  exe : string;
  port : Z;
  name : string
}.

Definition services : list (string * ServiceConfig) :=
  [ ("api-gateway",
      {| exe := "api-gateway.exe"; port := 8080; name := "API Gateway" |});
    ("user-management",
      {| exe := "user-management.exe"; port := 8082; name := "User Management" |});
    ("chaos-backend",
      {| exe := "chaos-backend.exe"; port := 8081; name := "Chaos Backend" |});
    ("content-management-service",
      {| exe := "content-management-service.exe"; port := 8083;
         name := "Content Management Service" |}) ].

Fixpoint lookup {A : Type} (k : string) (d : list (string * A)) : option A :=
  match d with
  | [] => None
  | (k', v) :: rest => if String.eqb k k' then Some v else lookup k rest
  end.

Definition services_get (service_id : string) : option ServiceConfig :=
  lookup service_id services.

Definition services_keys : list string := map fst services.

Definition service_dir : Path := ["C:"; "ChaosWorld"; "services"].

(** ** Log lines and calls *)

Inductive Level := INFO | WARNING | ERROR.

(** One constructor per [self.log(...)] line of the two modelled classes,
    carrying the values interpolated into the message. *)
Inductive Msg :=
| MsgErrorFindingPort (port : Z)
| MsgErrorFindingName (exe_name : string)
| MsgStoppingOnPort (service_name : string) (pid : Z) (port : Z)
| MsgStopping (service_name : string) (pid : Z)
| MsgStoppedGracefully (service_name : string)
| MsgForcingKill (service_name : string)
| MsgForceStopped (service_name : string)
| MsgErrorStopping (service_name : string)
| MsgNotRunningOnPort (service_name : string) (port : Z)
| MsgNotRunning (service_name : string)
| MsgStoppingServices (ids : list string)
| MsgStoppingAll
| MsgBuildingAll
| MsgTargetDirNotFound (p : Path)
| MsgUnknownService (service_id : string)
| MsgBuilding (service_name : string)
| MsgBuilt (service_name : string)
| MsgBuildFailed (service_name : string)
| MsgBuildTimedOut (service_name : string)
| MsgErrorBuilding (service_name : string)
| MsgCopyingConfigs
| MsgSourceConfigsNotFound (p : Path)
| MsgCreatedConfigsDir (p : Path)
| MsgFailedCreateConfigsDir
| MsgCopiedConfigs (service_name : string)
| MsgFailedCopyConfigs (service_name : string)
| MsgNoConfigs (service_name : string) (p : Path)
| MsgCopyingExecutables
| MsgServiceDirNotFound (p : Path)
| MsgRunInstallFirst
| MsgCopied (service_name : string) (size : Z)
| MsgFailedCopy (service_name : string)
| MsgSourceFileNotFound (p : Path)
| MsgExecutableNotFound (p : Path)
| MsgStarting (service_name : string)
| MsgStarted (service_name : string) (pid : Z)
| MsgFailedToStart (service_name : string)
| MsgErrorStarting (service_name : string)
| MsgStartingServices (ids : list string)
| MsgStartingAll
| MsgWaitingFor (ids : list string) (timeout : Z)
| MsgWaitingAll (timeout : Z)
| MsgAllHealthy
| MsgHealthCount (healthy_count total_count : Z)
| MsgTimeoutWaiting
| MsgDeployFor (ids : list string)
| MsgDeployAll
| MsgStep1
| MsgAbortStop
| MsgWaitingStop
| MsgStep2
| MsgAbortBuild
| MsgSkipBuild
| MsgStep3
| MsgAbortConfig
| MsgStep4
| MsgAbortCopy
| MsgStep5
| MsgAbortStart
| MsgMaybeNotHealthy
| MsgDeployCompleted
| MsgTotalTime (seconds : Z)
| MsgFinalStatus
| MsgStatusLine (is_healthy : bool) (service_name : string) (port : Z)
| MsgStatusUnknown (service_name : string) (port : Z)
| MsgRestarting (ids : list string)
| MsgRestartingAll
| MsgFailedStopServices
| MsgFailedStartServices.

(** What a run leaves behind, in order: log lines and the calls that act
    on the host, each with the outcome it had.  Calls made while stopping
    or launching a service carry the service they were made for. *)
Inductive Event :=
| EvLog (level : Level) (m : Msg)
| EvTerminate (service_name : string) (pid : Z) (r : result unit)
| EvWait (pid : Z) (timeout : Z) (r : result unit)
| EvKill (service_name : string) (pid : Z) (r : result unit)
| EvCargoBuild (service_id : string) (timeout : Z) (r : result Completed)
| EvMkdir (p : Path) (r : result unit)
| EvRmtree (p : Path) (r : result unit)
| EvCopytree (src dst : Path) (r : result unit)
| EvCopy2 (src dst : Path) (r : result unit)
| EvPopen (service_id : string) (exe_path : Path) (config_path : option string)
          (r : result Z)
| EvCommunicate (pid : Z) (r : result StderrText)
| EvHttpGet (port : Z) (timeout : Z) (r : result Z)
| EvSleep (seconds : Z).

(** ** The host interface

    Queries read the host state; actions return an outcome and the next
    state.  Time is in whole seconds.  The two laws say that the clock does
    not run backwards across a request and that sleeping takes at least as
    long as asked. *)
Record OS (W : Type) := {
  os_project_root : Path;                              (* Path(__file__).parent.parent *)
  os_time : W -> Z;                                    (* time.time() *)
  os_sleep : Z -> W -> W;                              (* time.sleep(n) *)
  os_net_connections : W -> result (list Conn);        (* psutil.net_connections *)
  os_process : option Z -> W -> result Z;              (* psutil.Process(pid) *)
  os_process_iter : W -> result (list (result ProcInfo)); (* psutil.process_iter *)
  os_terminate : Z -> W -> result unit * W;            (* process.terminate() *)
  os_wait : Z -> Z -> W -> result unit * W;            (* process.wait(timeout) *)
  os_kill : Z -> W -> result unit * W;                 (* process.kill() *)
  os_exists : Path -> W -> bool;                       (* Path.exists() *)
  os_stat_size : Path -> W -> result Z;                (* Path.stat().st_size *)
  os_mkdir : Path -> W -> result unit * W;             (* Path.mkdir(parents, exist_ok) *)
  os_rmtree : Path -> W -> result unit * W;            (* shutil.rmtree *)
  os_copytree : Path -> Path -> W -> result unit * W;  (* shutil.copytree *)
  os_copy2 : Path -> Path -> W -> result unit * W;     (* shutil.copy2 *)
  os_cargo_build : string -> Z -> W -> result Completed * W;
      (* subprocess.run(["cargo","build","--release","--bin",id], timeout) *)
  os_popen : Path -> Path -> option string -> W -> result Z * W;
      (* subprocess.Popen([exe], cwd, env[CONFIG_PATH]) *)
  os_poll : Z -> W -> option Z;                        (* process.poll() *)
  os_communicate : Z -> W -> result StderrText * W;    (* process.communicate() *)
  os_http_get : Z -> Z -> W -> result Z * W;
      (* requests.get("http://localhost:<port>/health", timeout).status_code *)
  os_sleep_time : forall n w, os_time w + n <= os_time (os_sleep n w);
  os_http_time : forall p t w, os_time w <= os_time (snd (os_http_get p t w))
}.

Arguments os_project_root {W} _.
Arguments os_time {W} _ _.
Arguments os_sleep {W} _ _ _.
Arguments os_net_connections {W} _ _.
Arguments os_process {W} _ _ _.
Arguments os_process_iter {W} _ _.
Arguments os_terminate {W} _ _ _.
Arguments os_wait {W} _ _ _ _.
Arguments os_kill {W} _ _ _.
Arguments os_exists {W} _ _ _.
Arguments os_stat_size {W} _ _ _.
Arguments os_mkdir {W} _ _ _.
Arguments os_rmtree {W} _ _ _.
Arguments os_copytree {W} _ _ _ _.
Arguments os_copy2 {W} _ _ _ _.
Arguments os_cargo_build {W} _ _ _ _.
Arguments os_popen {W} _ _ _ _ _.
Arguments os_poll {W} _ _ _.
Arguments os_communicate {W} _ _ _.
Arguments os_http_get {W} _ _ _ _.
Arguments os_sleep_time {W} _ _ _.
Arguments os_http_time {W} _ _ _ _.

(** ** The monad: host state in, value, events and host state out *)

Definition M (W A : Type) : Type := W -> A * list Event * W.

Definition ret {W A : Type} (a : A) : M W A := fun w => (a, [], w).

Definition bind {W A B : Type} (m : M W A) (k : A -> M W B) : M W B :=
  fun w =>
    let '(a, d1, w1) := m w in
    let '(b, d2, w2) := k a w1 in
    (b, d1 ++ d2, w2).

Declare Scope orch_scope.
Delimit Scope orch_scope with orch.
Notation "x <- m ;; k" := (bind m (fun x => k))
  (at level 100, m at next level, right associativity) : orch_scope.
Notation "m ;;; k" := (bind m (fun _ => k))
  (at level 100, right associativity) : orch_scope.
Open Scope orch_scope.

Definition value {W A : Type} (r : A * list Event * W) : A := fst (fst r).
Definition events {W A : Type} (r : A * list Event * W) : list Event := snd (fst r).
Definition final {W A : Type} (r : A * list Event * W) : W := snd r.

(** A query: reads the state, leaves no event. *)
Definition query {W A : Type} (q : W -> A) : M W A := fun w => (q w, [], w).

(** An action: one call on the host, recorded with its outcome. *)
Definition call {W A : Type} (op : W -> A * W) (ev : A -> Event) : M W A :=
  fun w => let '(a, w') := op w in (a, [ev a], w').

Definition log {W : Type} (level : Level) (m : Msg) : M W unit :=
  fun w => (tt, [EvLog level m], w).

(** [for service_id in ...:] with a [success] flag that the body may only
    clear: the body returns [false] exactly where the source assigns
    [success = False]. *)
Fixpoint for_each {W A : Type} (body : A -> M W bool) (l : list A)
    (success : bool) : M W bool :=
  match l with
  | [] => ret success
  | x :: rest => ok <- body x ;; for_each body rest (success && ok)
  end.

(** [str.endswith] *)
Fixpoint ends_with (s suffix : string) : bool :=
  if String.eqb s suffix then true
  else match s with
       | EmptyString => false
       | String _ s' => ends_with s' suffix
       end.

Definition sleep {W : Type} (os : OS W) (n : Z) : M W unit :=
  fun w => (tt, [EvSleep n], os_sleep os n w).

Section ServiceUtils.

Context {W : Type} (os : OS W).

Definition project_root : Path := os_project_root os.
Definition target_dir : Path := project_root ++ ["target"; "release"].

(** *** ProcessLocator *)

(** The loop of [find_process_by_port].  [Raise] is an exception that the
    inner handler does not catch and that reaches the outer one. *)
Fixpoint scan_listeners (port : Z) (conns : list Conn) (w : W)
    : result (option Z) :=
  match conns with
  | [] => Ok None
  | conn :: rest =>
      if (laddr_port conn =? port) && String.eqb (status conn) "LISTEN" then
        match os_process os (conn_pid conn) w with
        | Ok pid => Ok (Some pid)
        | Raise NoSuchProcess | Raise AccessDenied => scan_listeners port rest w
        | Raise e => Raise e
        end
      else scan_listeners port rest w
  end.

Definition find_process_by_port (port : Z) : M W (option Z) :=
  conns <- query (os_net_connections os) ;;
  match conns with
  | Raise _ => log WARNING (MsgErrorFindingPort port) ;;; ret None
  | Ok conns =>
      found <- query (scan_listeners port conns) ;;
      match found with
      | Ok process => ret process
      | Raise _ => log WARNING (MsgErrorFindingPort port) ;;; ret None
      end
  end.

Definition name_matches (exe_name : string) (info : ProcInfo) : bool :=
  match pi_name info with
  | Some n => String.eqb n exe_name
  | None => false
  end
  || match pi_exe info with
     | Some e => negb (String.eqb e "") && ends_with e exe_name
     | None => false
     end.

(** The loop of [find_process_by_name]: the processes collected so far and
    whether an exception reached the outer handler. *)
Fixpoint scan_processes (exe_name : string) (procs : list (result ProcInfo))
    : list Z * bool :=
  match procs with
  | [] => ([], false)
  | Ok info :: rest =>
      let '(found, raised) := scan_processes exe_name rest in
      if name_matches exe_name info then (pi_pid info :: found, raised)
      else (found, raised)
  | Raise NoSuchProcess :: rest
  | Raise AccessDenied :: rest
  | Raise ZombieProcess :: rest => scan_processes exe_name rest
  | Raise _ :: _ => ([], true)
  end.

Definition find_process_by_name (exe_name : string) : M W (list Z) :=
  procs <- query (os_process_iter os) ;;
  match procs with
  | Raise _ => log WARNING (MsgErrorFindingName exe_name) ;;; ret []
  | Ok procs =>
      let '(processes, raised) := scan_processes exe_name procs in
      if raised then log WARNING (MsgErrorFindingName exe_name) ;;; ret processes
      else ret processes
  end.

(** *** TerminationController *)

Definition terminate (service_name : string) (pid : Z) : M W (result unit) :=
  call (os_terminate os pid) (EvTerminate service_name pid).

Definition wait (pid : Z) (timeout : Z) : M W (result unit) :=
  call (os_wait os pid timeout) (EvWait pid timeout).

Definition kill (service_name : string) (pid : Z) : M W (result unit) :=
  call (os_kill os pid) (EvKill service_name pid).

Definition stop_service_by_port (port : Z) (service_name : string) : M W bool :=
  process <- find_process_by_port port ;;
  match process with
  | Some pid =>
      log INFO (MsgStoppingOnPort service_name pid port) ;;;
      r <- terminate service_name pid ;;
      match r with
      | Raise _ => log ERROR (MsgErrorStopping service_name) ;;; ret false
      | Ok _ =>
          r <- wait pid 10 ;;
          match r with
          | Ok _ => log INFO (MsgStoppedGracefully service_name) ;;; ret true
          | Raise TimeoutExpired =>
              log WARNING (MsgForcingKill service_name) ;;;
              r <- kill service_name pid ;;
              match r with
              | Raise _ => log ERROR (MsgErrorStopping service_name) ;;; ret false
              | Ok _ =>
                  r <- wait pid 5 ;;
                  match r with
                  | Ok _ => log INFO (MsgForceStopped service_name) ;;; ret true
                  | Raise _ =>
                      log ERROR (MsgErrorStopping service_name) ;;; ret false
                  end
              end
          | Raise _ => log ERROR (MsgErrorStopping service_name) ;;; ret false
          end
      end
  | None => log INFO (MsgNotRunningOnPort service_name port) ;;; ret true
  end.

(** The body of the loop of [stop_service_by_name], for one process. *)
Definition stop_one_by_name (service_name : string) (pid : Z) : M W bool :=
  log INFO (MsgStopping service_name pid) ;;;
  r <- terminate service_name pid ;;
  match r with
  | Raise _ => log ERROR (MsgErrorStopping service_name) ;;; ret false
  | Ok _ =>
      r <- wait pid 10 ;;
      match r with
      | Ok _ => log INFO (MsgStoppedGracefully service_name) ;;; ret true
      | Raise TimeoutExpired =>
          log WARNING (MsgForcingKill service_name) ;;;
          r <- kill service_name pid ;;
          match r with
          | Raise _ => log ERROR (MsgErrorStopping service_name) ;;; ret false
          | Ok _ =>
              r <- wait pid 5 ;;
              match r with
              | Ok _ => log INFO (MsgForceStopped service_name) ;;; ret true
              | Raise _ => log ERROR (MsgErrorStopping service_name) ;;; ret false
              end
          end
      | Raise _ => log ERROR (MsgErrorStopping service_name) ;;; ret false
      end
  end.

Definition stop_service_by_name (exe_name service_name : string) : M W bool :=
  processes <- find_process_by_name exe_name ;;
  match processes with
  | [] => log INFO (MsgNotRunning service_name) ;;; ret true
  | _ => for_each (stop_one_by_name service_name) processes true
  end.

(** [if service_ids:] is false for [None] and for the empty list. *)
Definition truthy {A : Type} (l : option (list A)) : bool :=
  match l with
  | Some (_ :: _) => true
  | _ => false
  end.

Definition ids_or_all (service_ids : option (list string)) : list string :=
  match service_ids with
  | None => services_keys
  | Some ids => ids
  end.

Definition given (service_ids : option (list string)) : list string :=
  match service_ids with
  | None => []
  | Some ids => ids
  end.

Definition stop_all_services (service_ids : option (list string)) : M W bool :=
  (if truthy service_ids then log INFO (MsgStoppingServices (given service_ids))
   else log INFO MsgStoppingAll) ;;;
  let service_ids := ids_or_all service_ids in
  by_port <- for_each (fun service_id =>
      match services_get service_id with
      | Some config => stop_service_by_port (port config) (name config)
      | None => ret true
      end) service_ids true ;;
  by_name <- for_each (fun service_id =>
      match services_get service_id with
      | Some config => stop_service_by_name (exe config) (name config)
      | None => ret true
      end) service_ids by_port ;;
  sleep os 2 ;;;
  ret by_name.


(** *** BuildCoordinator *)

(** The body of the loop of [build_services]. *)
Definition build_one (service_id : string) : M W bool :=
  match services_get service_id with
  | None => log ERROR (MsgUnknownService service_id) ;;; ret false
  | Some config =>
      log INFO (MsgBuilding (name config)) ;;;
      r <- call (os_cargo_build os service_id 300) (EvCargoBuild service_id 300) ;;
      match r with
      | Ok completed =>
          if returncode completed =? 0
          then log INFO (MsgBuilt (name config)) ;;; ret true
          else log ERROR (MsgBuildFailed (name config)) ;;; ret false
      | Raise SubprocessTimeout =>
          log ERROR (MsgBuildTimedOut (name config)) ;;; ret false
      | Raise _ => log ERROR (MsgErrorBuilding (name config)) ;;; ret false
      end
  end.

Definition build_services (service_ids : option (list string)) : M W bool :=
  log INFO MsgBuildingAll ;;;
  target_exists <- query (os_exists os target_dir) ;;
  if negb target_exists then
    log ERROR (MsgTargetDirNotFound target_dir) ;;; ret false
  else
    for_each build_one (ids_or_all service_ids) true.

(** *** ArtifactStager *)

Definition configs_dir : Path := project_root ++ ["services"].
Definition target_configs_dir : Path := service_dir ++ ["configs"].
Definition source_config_dir (service_id : string) : Path :=
  configs_dir ++ [service_id; "configs"].
Definition target_service_config_dir (service_id : string) : Path :=
  target_configs_dir ++ [service_id].

(** The body of the loop of [copy_config_files]. *)
Definition copy_config_one (service_id : string) : M W bool :=
  match services_get service_id with
  | None => log ERROR (MsgUnknownService service_id) ;;; ret false
  | Some config =>
      let src := source_config_dir service_id in
      let dst := target_service_config_dir service_id in
      src_exists <- query (os_exists os src) ;;
      if src_exists then
        dst_exists <- query (os_exists os dst) ;;
        removed <- (if dst_exists
                    then call (os_rmtree os dst) (EvRmtree dst)
                    else ret (Ok tt)) ;;
        match removed with
        | Raise _ => log ERROR (MsgFailedCopyConfigs (name config)) ;;; ret false
        | Ok _ =>
            copied <- call (os_copytree os src dst) (EvCopytree src dst) ;;
            match copied with
            | Raise _ =>
                log ERROR (MsgFailedCopyConfigs (name config)) ;;; ret false
            | Ok _ => log INFO (MsgCopiedConfigs (name config)) ;;; ret true
            end
        end
      else
        log WARNING (MsgNoConfigs (name config) src) ;;; ret true
  end.

Definition copy_config_files (service_ids : option (list string)) : M W bool :=
  log INFO MsgCopyingConfigs ;;;
  configs_exist <- query (os_exists os configs_dir) ;;
  if negb configs_exist then
    log ERROR (MsgSourceConfigsNotFound configs_dir) ;;; ret false
  else
    target_exists <- query (os_exists os target_configs_dir) ;;
    created <- (if negb target_exists then
                  r <- call (os_mkdir os target_configs_dir)
                            (EvMkdir target_configs_dir) ;;
                  match r with
                  | Ok _ =>
                      log INFO (MsgCreatedConfigsDir target_configs_dir) ;;;
                      ret true
                  | Raise _ => log ERROR MsgFailedCreateConfigsDir ;;; ret false
                  end
                else ret true) ;;
    if negb created then ret false
    else for_each copy_config_one (ids_or_all service_ids) true.

(** The body of the loop of [copy_services]. *)
Definition copy_service_one (service_id : string) : M W bool :=
  match services_get service_id with
  | None => log ERROR (MsgUnknownService service_id) ;;; ret false
  | Some config =>
      let source_path := target_dir ++ [exe config] in
      let dest_path := service_dir ++ [exe config] in
      src_exists <- query (os_exists os source_path) ;;
      if src_exists then
        copied <- call (os_copy2 os source_path dest_path)
                       (EvCopy2 source_path dest_path) ;;
        match copied with
        | Raise _ => log ERROR (MsgFailedCopy (name config)) ;;; ret false
        | Ok _ =>
            size <- query (os_stat_size os dest_path) ;;
            match size with
            | Raise _ => log ERROR (MsgFailedCopy (name config)) ;;; ret false
            | Ok size => log INFO (MsgCopied (name config) size) ;;; ret true
            end
        end
      else
        log ERROR (MsgSourceFileNotFound source_path) ;;; ret false
  end.

Definition copy_services (service_ids : option (list string)) : M W bool :=
  log INFO MsgCopyingExecutables ;;;
  target_exists <- query (os_exists os target_dir) ;;
  if negb target_exists then
    log ERROR (MsgTargetDirNotFound target_dir) ;;; ret false
  else
    service_dir_exists <- query (os_exists os service_dir) ;;
    if negb service_dir_exists then
      log ERROR (MsgServiceDirNotFound service_dir) ;;;
      log ERROR MsgRunInstallFirst ;;;
      ret false
    else
      for_each copy_service_one (ids_or_all service_ids) true.

(** *** StartupSequencer *)

(** The [CONFIG_PATH] that [start_service] puts into the environment. *)
Definition config_path_env (service_id : string) : option string :=
  if String.eqb service_id "api-gateway"
  then Some "configs/api-gateway/api-gateway.yaml"
  else if String.eqb service_id "user-management"
  then Some "configs/user-management/user-management.yaml"
  else if String.eqb service_id "chaos-backend"
  then Some "configs/chaos-backend/chaos-backend.yaml"
  else if String.eqb service_id "content-management-service"
  then Some "configs/content-management-service/content-management-service.yaml"
  else None.

Definition start_service (service_id : string) : M W bool :=
  match services_get service_id with
  | None => log ERROR (MsgUnknownService service_id) ;;; ret false
  | Some config =>
      let exe_path := service_dir ++ [exe config] in
      exe_exists <- query (os_exists os exe_path) ;;
      if negb exe_exists then
        log ERROR (MsgExecutableNotFound exe_path) ;;; ret false
      else
        log INFO (MsgStarting (name config)) ;;;
        let env := config_path_env service_id in
        process <- call (os_popen os exe_path service_dir env)
                        (EvPopen service_id exe_path env) ;;
        match process with
        | Raise _ => log ERROR (MsgErrorStarting (name config)) ;;; ret false
        | Ok pid =>
            sleep os 2 ;;;
            code <- query (os_poll os pid) ;;
            match code with
            | None => log INFO (MsgStarted (name config) pid) ;;; ret true
            | Some _ =>
                out <- call (os_communicate os pid) (EvCommunicate pid) ;;
                match out with
                | Raise _ =>
                    log ERROR (MsgErrorStarting (name config)) ;;; ret false
                | Ok Undecodable =>
                    log ERROR (MsgFailedToStart (name config)) ;;;
                    log ERROR (MsgErrorStarting (name config)) ;;;
                    ret false
                | Ok _ => log ERROR (MsgFailedToStart (name config)) ;;; ret false
                end
            end
        end
  end.

(** The loop of [start_all_services], with its [break]. *)
Fixpoint start_loop (start_order : list string) : M W bool :=
  match start_order with
  | [] => ret true
  | service_id :: rest =>
      ok <- start_service service_id ;;
      if ok then sleep os 1 ;;; start_loop rest
      else ret false
  end.

Definition default_start_order : list string :=
  ["user-management"; "chaos-backend"; "content-management-service"; "api-gateway"].

Definition start_all_services (service_ids : option (list string)) : M W bool :=
  (if truthy service_ids then log INFO (MsgStartingServices (given service_ids))
   else log INFO MsgStartingAll) ;;;
  let start_order := match service_ids with
                     | None => default_start_order
                     | Some ids => ids
                     end in
  start_loop start_order.

(** *** HealthPoller *)

Definition check_service_health (service_id : string) : M W bool :=
  match services_get service_id with
  | None => ret false
  | Some config =>
      response <- call (os_http_get os (port config) 5) (EvHttpGet (port config) 5) ;;
      match response with
      | Ok status_code => ret (status_code =? 200)
      | Raise _ => ret false
      end
  end.

Fixpoint status_of (ids : list string) : M W (list (string * bool)) :=
  match ids with
  | [] => ret []
  | service_id :: rest =>
      healthy <- check_service_health service_id ;;
      status <- status_of rest ;;
      ret ((service_id, healthy) :: status)
  end.

Definition get_service_status : M W (list (string * bool)) :=
  status_of services_keys.

(** [status.get(service_id, False)] *)
Definition status_get (status : list (string * bool)) (service_id : string) : bool :=
  match lookup service_id status with
  | Some b => b
  | None => false
  end.

Definition count_true (l : list bool) : Z :=
  Z.of_nat (List.length (filter (fun b => b) l)).

(** The [while] loop of [wait_for_services], unrolled at most [fuel] times;
    [None] only when the unrolling is used up. *)
Fixpoint wait_loop (fuel : nat) (service_ids : option (list string))
    (timeout start_time : Z) : M W (option bool) :=
  match fuel with
  | O => ret None
  | S fuel' =>
      now <- query (os_time os) ;;
      if now - start_time <? timeout then
        status <- get_service_status ;;
        let healthy_count :=
          if truthy service_ids
          then count_true (map (status_get status) (given service_ids))
          else count_true (map snd status) in
        let total_count :=
          if truthy service_ids
          then Z.of_nat (List.length (given service_ids))
          else Z.of_nat (List.length status) in
        if healthy_count =? total_count then
          log INFO MsgAllHealthy ;;; ret (Some true)
        else
          log INFO (MsgHealthCount healthy_count total_count) ;;;
          sleep os 2 ;;;
          wait_loop fuel' service_ids timeout start_time
      else
        log ERROR MsgTimeoutWaiting ;;; ret (Some false)
  end.

(** Every round of the loop sleeps two seconds, so [timeout] rounds and the
    final test are never used up (lemma [wait_loop_returns]). *)
Definition wait_fuel (timeout : Z) : nat := S (Z.to_nat timeout).

Definition wait_for_services (service_ids : option (list string)) (timeout : Z)
    : M W bool :=
  (if truthy service_ids
   then log INFO (MsgWaitingFor (given service_ids) timeout)
   else log INFO (MsgWaitingAll timeout)) ;;;
  start_time <- query (os_time os) ;;
  r <- wait_loop (wait_fuel timeout) service_ids timeout start_time ;;
  ret (match r with
       | Some healthy => healthy
       | None => false
       end).

(** *** DeploymentOrchestrator ([SimpleDeployer]) *)

(** The final status loop of [deploy_all]; [self.utils.services[service_id]]
    raises [KeyError] for an id that is not registered. *)
Fixpoint report_status (status : list (string * bool)) (service_ids : list string)
    : M W (result unit) :=
  match service_ids with
  | [] => ret (Ok tt)
  | service_id :: rest =>
      match lookup service_id status with
      | Some is_healthy =>
          match services_get service_id with
          | Some config =>
              log INFO (MsgStatusLine is_healthy (name config) (port config)) ;;;
              report_status status rest
          | None => ret (Raise KeyError)
          end
      | None =>
          match services_get service_id with
          | Some config =>
              log INFO (MsgStatusUnknown (name config) (port config)) ;;;
              report_status status rest
          | None => ret (Raise KeyError)
          end
      end
  end.

Definition deploy_all (skip_build : bool) (service_ids : option (list string))
    : M W (result bool) :=
  (if truthy service_ids then log INFO (MsgDeployFor (given service_ids))
   else log INFO MsgDeployAll) ;;;
  start_time <- query (os_time os) ;;
  log INFO MsgStep1 ;;;
  stopped <- stop_all_services service_ids ;;
  if negb stopped then log ERROR MsgAbortStop ;;; ret (Ok false)
  else
    log INFO MsgWaitingStop ;;;
    sleep os 3 ;;;
    built <- (if negb skip_build
              then log INFO MsgStep2 ;;; build_services service_ids
              else log INFO MsgSkipBuild ;;; ret true) ;;
    if negb built then log ERROR MsgAbortBuild ;;; ret (Ok false)
    else
      log INFO MsgStep3 ;;;
      configs <- copy_config_files service_ids ;;
      if negb configs then log ERROR MsgAbortConfig ;;; ret (Ok false)
      else
        log INFO MsgStep4 ;;;
        copied <- copy_services service_ids ;;
        if negb copied then log ERROR MsgAbortCopy ;;; ret (Ok false)
        else
          log INFO MsgStep5 ;;;
          started <- start_all_services service_ids ;;
          if negb started then log ERROR MsgAbortStart ;;; ret (Ok false)
          else
            healthy <- wait_for_services service_ids 30 ;;
            (if negb healthy then log WARNING MsgMaybeNotHealthy else ret tt) ;;;
            end_time <- query (os_time os) ;;
            log INFO MsgDeployCompleted ;;;
            log INFO (MsgTotalTime (end_time - start_time)) ;;;
            log INFO MsgFinalStatus ;;;
            status <- get_service_status ;;
            reported <- report_status status (ids_or_all service_ids) ;;
            match reported with
            | Ok _ => ret (Ok true)
            | Raise e => ret (Raise e)
            end.

Definition restart_all (service_ids : option (list string)) : M W bool :=
  (if truthy service_ids then log INFO (MsgRestarting (given service_ids))
   else log INFO MsgRestartingAll) ;;;
  stopped <- stop_all_services None ;;
  if negb stopped then log ERROR MsgFailedStopServices ;;; ret false
  else
    log INFO MsgWaitingStop ;;;
    sleep os 3 ;;;
    started <- start_all_services service_ids ;;
    if negb started then log ERROR MsgFailedStartServices ;;; ret false
    else
      healthy <- wait_for_services service_ids 30 ;;
      (if negb healthy then log WARNING MsgMaybeNotHealthy else ret tt) ;;;
      ret true.

End ServiceUtils.


(** * Vocabulary of the properties *)

(** ** Loops with a success flag *)

(** Each element of the list with the host state in which its turn of
    [for_each] begins. *)
Fixpoint iterations {W A : Type} (body : A -> M W bool) (l : list A) (w : W)
    : list (A * W) :=
  match l with
  | [] => []
  | x :: rest => (x, w) :: iterations body rest (final (body x w))
  end.

Definition turn_ok {W A : Type} (body : A -> M W bool) (it : A * W) : bool :=
  value (body (fst it) (snd it)).

Definition turn_events {W A : Type} (body : A -> M W bool) (it : A * W)
    : list Event :=
  events (body (fst it) (snd it)).

(** ** Events *)

Definition is_log (e : Event) : bool :=
  match e with
  | EvLog _ _ => true
  | _ => false
  end.

(** The calls of a run, without the log lines. *)
Definition calls (d : list Event) : list Event :=
  filter (fun e => negb (is_log e)) d.

Definition is_stop_call (e : Event) : bool :=
  match e with
  | EvTerminate _ _ _ | EvKill _ _ _ => true
  | _ => false
  end.

Definition no_stop_call (d : list Event) : Prop :=
  Forall (fun e => is_stop_call e = false) d.

(** A run that reports success, leaves the host as it was and makes no
    terminate or kill call. *)
Definition quiet {W : Type} (m : M W bool) (w : W) : Prop :=
  value (m w) = true /\ final (m w) = w /\ no_stop_call (events (m w)).

(** ** Absence of a service *)

Section Absence.

Context {W : Type} (os : OS W).

(** Some connection listens on [port]. *)
Definition listening_on (port : Z) (w : W) : bool :=
  match os_net_connections os w with
  | Ok conns =>
      existsb (fun conn => (laddr_port conn =? port)
                           && String.eqb (status conn) "LISTEN") conns
  | Raise _ => false
  end.

(** Some live process matches [exe_name]. *)
Definition running_as (exe_name : string) (w : W) : bool :=
  match os_process_iter os w with
  | Ok procs =>
      existsb (fun p => match p with
                        | Ok info => name_matches exe_name info
                        | Raise _ => false
                        end) procs
  | Raise _ => false
  end.

Definition absent (config : ServiceConfig) (w : W) : Prop :=
  listening_on (port config) w = false /\ running_as (exe config) w = false.

End Absence.

(** ** The termination state machine

    RUNNING -> TERMINATE_REQUESTED -> (exited | FORCE_KILL_REQUESTED) -> exited,
    as the calls made on one process together with the reported result:
    a graceful signal, a wait bounded by 10 seconds, and only after that
    wait has timed out a kill and a wait bounded by 5 seconds. *)
Inductive escalation (service_name : string) (pid : Z) : list Event -> bool -> Prop :=
| esc_signal_failed (e : exn) :
    escalation service_name pid
      [EvTerminate service_name pid (Raise e)] false
| esc_exited :
    escalation service_name pid
      [EvTerminate service_name pid (Ok tt); EvWait pid 10 (Ok tt)] true
| esc_wait_failed (e : exn) :
    e <> TimeoutExpired ->
    escalation service_name pid
      [EvTerminate service_name pid (Ok tt); EvWait pid 10 (Raise e)] false
| esc_kill_failed (e : exn) :
    escalation service_name pid
      [EvTerminate service_name pid (Ok tt); EvWait pid 10 (Raise TimeoutExpired);
       EvKill service_name pid (Raise e)] false
| esc_killed :
    escalation service_name pid
      [EvTerminate service_name pid (Ok tt); EvWait pid 10 (Raise TimeoutExpired);
       EvKill service_name pid (Ok tt); EvWait pid 5 (Ok tt)] true
| esc_survived (e : exn) :
    escalation service_name pid
      [EvTerminate service_name pid (Ok tt); EvWait pid 10 (Raise TimeoutExpired);
       EvKill service_name pid (Ok tt); EvWait pid 5 (Raise e)] false.

(** ** Launches *)

(** The service ids for which a process launch was issued, in order. *)
Fixpoint launches (d : list Event) : list string :=
  match d with
  | [] => []
  | EvPopen service_id _ _ _ :: rest => service_id :: launches rest
  | _ :: rest => launches rest
  end.

(** ** Health polling *)

Definition registered_ports : list Z := map (fun kv => port (snd kv)) services.

(** One health request, with the 5 second request timeout, to each of the
    given ports in turn. *)
Inductive poll_round : list Z -> list Event -> Prop :=
| poll_nil : poll_round [] []
| poll_cons (p : Z) (r : result Z) (ports : list Z) (d : list Event) :
    poll_round ports d ->
    poll_round (p :: ports) (EvHttpGet p 5 r :: d).

(** The events of the wait loop and its result: rounds of polling, each
    unsuccessful round followed by a two second sleep, ended by a round in
    which everything counted is healthy or by the deadline. *)
Inductive polling : list Event -> bool -> Prop :=
| polling_deadline :
    polling [EvLog ERROR MsgTimeoutWaiting] false
| polling_healthy (d : list Event) :
    poll_round registered_ports d ->
    polling (d ++ [EvLog INFO MsgAllHealthy]) true
| polling_retry (d : list Event) (healthy_count total_count : Z)
    (rest : list Event) (b : bool) :
    poll_round registered_ports d ->
    polling rest b ->
    polling (d ++ EvLog INFO (MsgHealthCount healthy_count total_count)
               :: EvSleep 2 :: rest) b.

(** ** The stages of a deployment *)

Section Stages.

Context {W : Type} (os : OS W).

(** Steps 1 to 5 of [deploy_all] (stop, build, configuration, executables,
    start) up to the point where step 6 begins: [true] when none of them
    aborted the deployment. *)
Definition deploy_stages (skip_build : bool) (service_ids : option (list string))
    : M W bool :=
  (if truthy service_ids then log INFO (MsgDeployFor (given service_ids))
   else log INFO MsgDeployAll) ;;;
  log INFO MsgStep1 ;;;
  stopped <- stop_all_services os service_ids ;;
  if negb stopped then log ERROR MsgAbortStop ;;; ret false
  else
    log INFO MsgWaitingStop ;;;
    sleep os 3 ;;;
    built <- (if negb skip_build
              then log INFO MsgStep2 ;;; build_services os service_ids
              else log INFO MsgSkipBuild ;;; ret true) ;;
    if negb built then log ERROR MsgAbortBuild ;;; ret false
    else
      log INFO MsgStep3 ;;;
      configs <- copy_config_files os service_ids ;;
      if negb configs then log ERROR MsgAbortConfig ;;; ret false
      else
        log INFO MsgStep4 ;;;
        copied <- copy_services os service_ids ;;
        if negb copied then log ERROR MsgAbortCopy ;;; ret false
        else
          log INFO MsgStep5 ;;;
          started <- start_all_services os service_ids ;;
          if negb started then log ERROR MsgAbortStart ;;; ret false
          else ret true.

(** Step 6 of [deploy_all] and its final report. *)
Definition deploy_report (start_time : Z) (service_ids : option (list string))
    : M W (result bool) :=
  healthy <- wait_for_services os service_ids 30 ;;
  (if negb healthy then log WARNING MsgMaybeNotHealthy else ret tt) ;;;
  end_time <- query (os_time os) ;;
  log INFO MsgDeployCompleted ;;;
  log INFO (MsgTotalTime (end_time - start_time)) ;;;
  log INFO MsgFinalStatus ;;;
  status <- get_service_status os ;;
  reported <- report_status status (ids_or_all service_ids) ;;
  match reported with
  | Ok _ => ret (Ok true)
  | Raise e => ret (Raise e)
  end.

End Stages.

Definition registered (service_id : string) : Prop :=
  services_get service_id <> None.

(** ** What a run may touch *)

(** Every event of every run of [m] satisfies [P]. *)
Definition emits {W A : Type} (P : Event -> Prop) (m : M W A) : Prop :=
  forall w, Forall P (events (m w)).

(** The pipeline stage a call belongs to. *)
Inductive Stage :=
| StLog | StStop | StBuild | StConfig | StCopy | StStart | StHealth | StSleep.

Definition stage_of (e : Event) : Stage :=
  match e with
  | EvLog _ _ => StLog
  | EvTerminate _ _ _ | EvWait _ _ _ | EvKill _ _ _ => StStop
  | EvCargoBuild _ _ _ => StBuild
  | EvMkdir _ _ | EvRmtree _ _ | EvCopytree _ _ _ => StConfig
  | EvCopy2 _ _ _ => StCopy
  | EvPopen _ _ _ _ | EvCommunicate _ _ => StStart
  | EvHttpGet _ _ _ => StHealth
  | EvSleep _ => StSleep
  end.

(** The stages that put something into the deployment directory or start
    and probe what is there. *)
Definition after_build (s : Stage) : bool :=
  match s with
  | StConfig | StCopy | StStart | StHealth => true
  | _ => false
  end.

Section Scope.

Context {W : Type} (os : OS W).

(** [scoped S e]: the call [e] is made on behalf of a service of [S].  A
    terminate or kill call is made for a registered service of [S], a build
    and a launch are of an id of [S], the staging calls copy the files of a
    service of [S].  A health request only has to go to the port of some
    registered service. *)
Definition scoped (S : list string) (e : Event) : Prop :=
  match e with
  | EvTerminate service_name _ _ | EvKill service_name _ _ =>
      exists id config,
        In id S /\ services_get id = Some config /\ name config = service_name
  | EvCargoBuild id _ _ => In id S
  | EvRmtree p _ =>
      exists id, In id S /\ p = target_service_config_dir id
  | EvCopytree src dst _ =>
      exists id, In id S /\ src = source_config_dir os id
                 /\ dst = target_service_config_dir id
  | EvCopy2 src dst _ =>
      exists id config,
        In id S /\ services_get id = Some config
        /\ src = target_dir os ++ [exe config] /\ dst = service_dir ++ [exe config]
  | EvPopen id exe_path _ _ =>
      In id S /\ exists config,
        services_get id = Some config /\ exe_path = service_dir ++ [exe config]
  | EvHttpGet p _ _ => In p registered_ports
  | EvMkdir p _ => p = target_configs_dir
  | EvLog _ _ | EvWait _ _ _ | EvCommunicate _ _ | EvSleep _ => True
  end.

(** Scoped to [S] and belonging to one of the given stages. *)
Definition within (S : list string) (stages : list Stage) (e : Event) : Prop :=
  scoped S e /\ In (stage_of e) stages.

End Scope.

(** ** Builds *)

(** The build commands that were run, with their outcomes, in order. *)
Fixpoint build_outcomes (d : list Event) : list (string * result Completed) :=
  match d with
  | [] => []
  | EvCargoBuild service_id _ r :: rest => (service_id, r) :: build_outcomes rest
  | _ :: rest => build_outcomes rest
  end.

Definition exited_zero (r : result Completed) : bool :=
  match r with
  | Ok completed => returncode completed =? 0
  | Raise _ => false
  end.

Definition is_registered (service_id : string) : bool :=
  match services_get service_id with
  | Some _ => true
  | None => false
  end.

(** ** Guards of the staging of configuration *)

Section ConfigGuards.

Context {W : Type} (os : OS W).

(** The checks that [copy_config_files] makes before its loop: the
    project's [services] directory exists, and the deployment [configs]
    directory exists or can be created. *)
Definition config_guards (w : W) : bool :=
  os_exists os (configs_dir os) w
  && (os_exists os target_configs_dir w
      || match fst (os_mkdir os target_configs_dir w) with
         | Ok _ => true
         | Raise _ => false
         end).

(** The host state in which the loop of [copy_config_files] starts. *)
Definition config_loop_start (w : W) : W :=
  if os_exists os target_configs_dir w then w
  else snd (os_mkdir os target_configs_dir w).

End ConfigGuards.

(** No log line reports an unknown service. *)
Definition silent_about_unknown (e : Event) : Prop :=
  match e with
  | EvLog _ (MsgUnknownService _) => False
  | _ => True
  end.

(** What a run does when it returns at a guard, before its loop: log lines
    other than warnings and reports of unknown services, and the creation
    of the deployment [configs] directory. *)
Definition before_loop (e : Event) : Prop :=
  match e with
  | EvLog WARNING _ | EvLog _ (MsgUnknownService _) => False
  | EvLog _ _ | EvMkdir _ _ => True
  | _ => False
  end.

(** Every element of the list has its turn of the loop started in [w0], and
    the events of that turn are among [d]. *)
Definition every_turn_runs {W A : Type} (body : A -> M W bool) (l : list A)
    (w0 : W) (d : list Event) : Prop :=
  forall x, In x l ->
    exists turn, In (x, turn) (iterations body l w0)
                 /\ incl (events (body x turn)) d.
(** * An in-memory host

    One implementation of [OS], used to run the orchestrator on concrete
    scenarios.  Files are paths with a size, a process that is asked to
    terminate exits at once unless it is listed as stubborn, a killed
    process exits unless it is listed as unkillable, and a health endpoint
    answers 200 from a given time on and refuses connections before.  A
    file copied to a quarantined path is removed as soon as it is written. *)

Module Host.

Record t := {
  clock : Z;
  dirs : list Path;
  files : list (Path * Z);
  listeners : list Conn;
  procs : list ProcInfo;
  stubborn : list Z;
  unkillable : list Z;
  cargo_exit : list (string * Z);
  crash_on_start : list string;
  healthy_from : list (Z * Z);
  next_pid : Z;
  quarantine : list Path
}.

Definition root : Path := ["D:"; "chaos-backend-service"].

Fixpoint path_eqb (p q : Path) : bool :=
  match p, q with
  | [], [] => true
  | a :: p', b :: q' => String.eqb a b && path_eqb p' q'
  | _, _ => false
  end.

(** [strip_prefix p q] is [Some r] when [q = p ++ r]. *)
Fixpoint strip_prefix (p q : Path) : option Path :=
  match p, q with
  | [], _ => Some q
  | a :: p', b :: q' => if String.eqb a b then strip_prefix p' q' else None
  | _ :: _, [] => None
  end.

Definition under (p q : Path) : bool :=
  match strip_prefix p q with
  | Some _ => true
  | None => false
  end.

Definition is_dir (p : Path) (h : t) : bool := existsb (path_eqb p) (dirs h).

Fixpoint file_size (p : Path) (fs : list (Path * Z)) : option Z :=
  match fs with
  | [] => None
  | (q, size) :: rest => if path_eqb p q then Some size else file_size p rest
  end.

Definition exists_ (p : Path) (h : t) : bool :=
  is_dir p h || match file_size p (files h) with Some _ => true | None => false end.

Definition stat_size (p : Path) (h : t) : result Z :=
  match file_size p (files h) with
  | Some size => Ok size
  | None => if is_dir p h then Ok 0 else Raise OtherError
  end.

Definition with_fs (h : t) (ds : list Path) (fs : list (Path * Z)) : t :=
  {| clock := clock h; dirs := ds; files := fs; listeners := listeners h;
     procs := procs h; stubborn := stubborn h; unkillable := unkillable h;
     cargo_exit := cargo_exit h; crash_on_start := crash_on_start h;
     healthy_from := healthy_from h; next_pid := next_pid h;
     quarantine := quarantine h |}.

Definition with_procs (h : t) (ls : list Conn) (ps : list ProcInfo) (np : Z) : t :=
  {| clock := clock h; dirs := dirs h; files := files h; listeners := ls;
     procs := ps; stubborn := stubborn h; unkillable := unkillable h;
     cargo_exit := cargo_exit h; crash_on_start := crash_on_start h;
     healthy_from := healthy_from h; next_pid := np;
     quarantine := quarantine h |}.

Definition advance (n : Z) (h : t) : t :=
  {| clock := clock h + n; dirs := dirs h; files := files h;
     listeners := listeners h; procs := procs h; stubborn := stubborn h;
     unkillable := unkillable h; cargo_exit := cargo_exit h;
     crash_on_start := crash_on_start h; healthy_from := healthy_from h;
     next_pid := next_pid h;
     quarantine := quarantine h |}.

Definition mkdir (p : Path) (h : t) : result unit * t :=
  (Ok tt, with_fs h (p :: dirs h) (files h)).

Definition rmtree (p : Path) (h : t) : result unit * t :=
  if is_dir p h then
    (Ok tt, with_fs h (filter (fun d => negb (under p d)) (dirs h))
                      (filter (fun f => negb (under p (fst f))) (files h)))
  else (Raise OtherError, h).

Definition moved_dirs (src dst : Path) (ds : list Path) : list Path :=
  flat_map (fun d => match strip_prefix src d with
                     | Some r => [dst ++ r]
                     | None => []
                     end) ds.

Definition moved_files (src dst : Path) (fs : list (Path * Z)) : list (Path * Z) :=
  flat_map (fun f => match strip_prefix src (fst f) with
                     | Some r => [(dst ++ r, snd f)]
                     | None => []
                     end) fs.

Definition copytree (src dst : Path) (h : t) : result unit * t :=
  if is_dir src h && negb (exists_ dst h) then
    (Ok tt, with_fs h (moved_dirs src dst (dirs h) ++ dirs h)
                      (moved_files src dst (files h) ++ files h))
  else (Raise OtherError, h).

Definition copy2 (src dst : Path) (h : t) : result unit * t :=
  match file_size src (files h) with
  | Some size =>
      let others := filter (fun f => negb (path_eqb dst (fst f))) (files h) in
      if existsb (path_eqb dst) (quarantine h)
      then (Ok tt, with_fs h (dirs h) others)
      else (Ok tt, with_fs h (dirs h) ((dst, size) :: others))
  | None => (Raise OtherError, h)
  end.

Definition alive (pid : Z) (h : t) : bool :=
  existsb (fun p => pi_pid p =? pid) (procs h).

Definition mem (pid : Z) (l : list Z) : bool := existsb (Z.eqb pid) l.

Definition exit_process (pid : Z) (h : t) : t :=
  with_procs h
    (filter (fun c => match conn_pid c with
                      | Some p => negb (p =? pid)
                      | None => true
                      end) (listeners h))
    (filter (fun p => negb (pi_pid p =? pid)) (procs h))
    (next_pid h).

Definition process (pid : option Z) (h : t) : result Z :=
  match pid with
  | Some p => if alive p h then Ok p else Raise NoSuchProcess
  | None => Ok 0
  end.

Definition terminate (pid : Z) (h : t) : result unit * t :=
  if negb (alive pid h) then (Raise NoSuchProcess, h)
  else if mem pid (stubborn h) then (Ok tt, h)
  else (Ok tt, exit_process pid h).

Definition kill (pid : Z) (h : t) : result unit * t :=
  if negb (alive pid h) then (Raise NoSuchProcess, h)
  else if mem pid (unkillable h) then (Ok tt, h)
  else (Ok tt, exit_process pid h).

Definition wait (pid timeout : Z) (h : t) : result unit * t :=
  if alive pid h then (Raise TimeoutExpired, advance (Z.max timeout 0) h)
  else (Ok tt, h).

Definition cargo_build (service_id : string) (timeout : Z) (h : t)
    : result Completed * t :=
  match lookup service_id (cargo_exit h) with
  | Some code => (Ok {| returncode := code; stderr := "" |}, h)
  | None => (Raise SubprocessTimeout, advance (Z.max timeout 0) h)
  end.

Fixpoint last_component (p : Path) : string :=
  match p with
  | [] => ""
  | [x] => x
  | _ :: rest => last_component rest
  end.

Definition popen (exe_path cwd : Path) (config_path : option string) (h : t)
    : result Z * t :=
  match file_size exe_path (files h) with
  | None => (Raise OtherError, h)
  | Some _ =>
      let pid := next_pid h in
      if existsb (String.eqb (last_component exe_path)) (crash_on_start h)
      then (Ok pid, with_procs h (listeners h) (procs h) (pid + 1))
      else (Ok pid,
            with_procs h (listeners h)
              ({| pi_pid := pid; pi_name := Some (last_component exe_path);
                  pi_exe := None |} :: procs h)
              (pid + 1))
  end.

Definition poll (pid : Z) (h : t) : option Z :=
  if alive pid h then None else Some 1.

Definition communicate (pid : Z) (h : t) : result StderrText * t :=
  (Ok NoStderr, h).

Fixpoint lookupZ (k : Z) (d : list (Z * Z)) : option Z :=
  match d with
  | [] => None
  | (k', v) :: rest => if k =? k' then Some v else lookupZ k rest
  end.

Definition http_get (port timeout : Z) (h : t) : result Z * t :=
  match lookupZ port (healthy_from h) with
  | Some since => if since <=? clock h then (Ok 200, h) else (Raise OtherError, h)
  | None => (Raise OtherError, h)
  end.

Lemma sleep_time (n : Z) (h : t) : clock h + n <= clock (advance n h).
Proof. simpl. lia. Qed.

Lemma http_time (p timeout : Z) (h : t) : clock h <= clock (snd (http_get p timeout h)).
Proof.
  unfold http_get. destruct (lookupZ p (healthy_from h)) as [since|]; simpl.
  - destruct (since <=? clock h); simpl; lia.
  - lia.
Qed.

Definition os : OS t := {|
  os_project_root := root;
  os_time := clock;
  os_sleep := advance;
  os_net_connections := fun h => Ok (listeners h);
  os_process := process;
  os_process_iter := fun h => Ok (map Ok (procs h));
  os_terminate := terminate;
  os_wait := wait;
  os_kill := kill;
  os_exists := exists_;
  os_stat_size := stat_size;
  os_mkdir := mkdir;
  os_rmtree := rmtree;
  os_copytree := copytree;
  os_copy2 := copy2;
  os_cargo_build := cargo_build;
  os_popen := popen;
  os_poll := poll;
  os_communicate := communicate;
  os_http_get := http_get;
  os_sleep_time := sleep_time;
  os_http_time := http_time
|}.

(** A checkout that has been built and installed, nothing running: the
    build output holds the four executables, the deployment directory
    exists, only the gateway ships a configuration tree, and only the
    gateway's health endpoint answers. *)
Definition installed : t := {|
  clock := 1000;
  dirs := [ root; root ++ ["target"]; root ++ ["target"; "release"];
            root ++ ["services"]; root ++ ["services"; "api-gateway"];
            root ++ ["services"; "api-gateway"; "configs"];
            ["C:"; "ChaosWorld"]; service_dir; service_dir ++ ["configs"];
            service_dir ++ ["configs"; "api-gateway"] ];
  files := [ (root ++ ["target"; "release"; "api-gateway.exe"], 4096);
             (root ++ ["target"; "release"; "user-management.exe"], 4096);
             (root ++ ["target"; "release"; "chaos-backend.exe"], 4096);
             (root ++ ["target"; "release"; "content-management-service.exe"], 4096);
             (root ++ ["services"; "api-gateway"; "configs"; "api-gateway.yaml"], 120);
             (service_dir ++ ["configs"; "api-gateway"; "stale.yaml"], 7) ];
  listeners := [];
  procs := [];
  stubborn := [];
  unkillable := [];
  cargo_exit := [("api-gateway", 0); ("user-management", 0);
                 ("chaos-backend", 0); ("content-management-service", 0)];
  crash_on_start := [];
  healthy_from := [(8080, 0)];
  next_pid := 5000;
  quarantine := []
|}.

(** The gateway is up on its port, nothing else runs. *)
Definition gateway_up : t :=
  with_procs installed
    [ {| laddr_port := 8080; status := "LISTEN"; conn_pid := Some 4100 |} ]
    [ {| pi_pid := 4100; pi_name := Some "api-gateway.exe";
         pi_exe := Some "C:/ChaosWorld/services/api-gateway.exe" |} ]
    5000.

Definition with_stubborn (h : t) (st unk : list Z) : t :=
  {| clock := clock h; dirs := dirs h; files := files h;
     listeners := listeners h; procs := procs h; stubborn := st;
     unkillable := unk; cargo_exit := cargo_exit h;
     crash_on_start := crash_on_start h; healthy_from := healthy_from h;
     next_pid := next_pid h;
     quarantine := quarantine h |}.

(** The gateway ignores the termination signal and survives a kill. *)
Definition gateway_stuck : t := with_stubborn gateway_up [4100] [4100].

(** The four executables have been staged into the deployment directory. *)
Definition deployed : t :=
  with_fs installed (dirs installed)
    ([ (service_dir ++ ["api-gateway.exe"], 4096);
       (service_dir ++ ["user-management.exe"], 4096);
       (service_dir ++ ["chaos-backend.exe"], 4096);
       (service_dir ++ ["content-management-service.exe"], 4096) ]
     ++ files installed).

Definition with_crashes (h : t) (crashing : list string) : t :=
  {| clock := clock h; dirs := dirs h; files := files h;
     listeners := listeners h; procs := procs h; stubborn := stubborn h;
     unkillable := unkillable h; cargo_exit := cargo_exit h;
     crash_on_start := crashing; healthy_from := healthy_from h;
     next_pid := next_pid h;
     quarantine := quarantine h |}.

(** The backend exits right after it is launched. *)
Definition backend_crashes : t := with_crashes deployed ["chaos-backend.exe"].

Definition with_health (h : t) (hf : list (Z * Z)) : t :=
  {| clock := clock h; dirs := dirs h; files := files h;
     listeners := listeners h; procs := procs h; stubborn := stubborn h;
     unkillable := unkillable h; cargo_exit := cargo_exit h;
     crash_on_start := crash_on_start h; healthy_from := hf;
     next_pid := next_pid h;
     quarantine := quarantine h |}.

(** No health endpoint ever answers. *)
Definition never_healthy : t := with_health installed [].

(** The build left a zero-byte gateway executable. *)
Definition empty_artifact : t :=
  with_fs installed (dirs installed)
    ((root ++ ["target"; "release"; "api-gateway.exe"], 0)
     :: filter (fun f => negb (path_eqb (root ++ ["target"; "release"; "api-gateway.exe"])
                                        (fst f)))
               (files installed)).

(** A fresh checkout: the project is there, nothing has been built, the
    per-service configuration sources have not been checked out. *)
Definition fresh_checkout : t :=
  with_fs installed
    [ root; ["C:"; "ChaosWorld"]; service_dir; service_dir ++ ["configs"] ]
    [].

(** User management is up on its port. *)
Definition user_management_up : t :=
  with_procs deployed
    [ {| laddr_port := 8082; status := "LISTEN"; conn_pid := Some 4200 |} ]
    [ {| pi_pid := 4200; pi_name := Some "user-management.exe";
         pi_exe := Some "C:/ChaosWorld/services/user-management.exe" |} ]
    5000.

(** Whatever is written to the gateway's place in the deployment directory
    is removed at once. *)
Definition gateway_quarantined : t :=
  {| clock := clock installed; dirs := dirs installed; files := files installed;
     listeners := listeners installed; procs := procs installed;
     stubborn := stubborn installed; unkillable := unkillable installed;
     cargo_exit := cargo_exit installed;
     crash_on_start := crash_on_start installed;
     healthy_from := healthy_from installed; next_pid := next_pid installed;
     quarantine := [service_dir ++ ["api-gateway.exe"]] |}.

End Host.

(** * The command line of [simple_deploy.py]

    The remaining methods of [SimpleDeployer] and [main].  They log lines
    of their own; a run at this level leaves the events of the operations
    it calls and those lines. *)

Inductive DeployerMsg :=
| DMsgStoppingAll
| DMsgStartingAll
| DMsgBuildingServices (ids : list string)
| DMsgCopyingServices (ids : list string)
| DMsgCopyingAll
| DMsgServiceStatus
| DMsgTesting (service_name : string)
| DMsgTestStep1 (service_name : string)
| DMsgFailedToStop (service_name : string)
| DMsgWasNotRunning (service_name : string)
| DMsgTestStep2 (service_name : string)
| DMsgFailedToBuild (service_name : string)
| DMsgTestStep3 (service_name : string)
| DMsgFailedToCopyConfigs
| DMsgTestStep4 (service_name : string)
| DMsgFailedToCopy (service_name : string)
| DMsgTestStep5 (service_name : string)
| DMsgFailedToStart (service_name : string)
| DMsgTestStep6 (service_name : string)
| DMsgMayNotBeHealthy (service_name : string)
| DMsgTestStep7
| DMsgFinalHealth (is_healthy : bool) (service_name : string) (port : Z).

Inductive Line :=
| LEvent (e : Event)
| LSaid (level : Level) (m : DeployerMsg).

Definition D (W A : Type) : Type := W -> A * list Line * W.

Definition dret {W A : Type} (a : A) : D W A := fun w => (a, [], w).

Definition dbind {W A B : Type} (m : D W A) (k : A -> D W B) : D W B :=
  fun w =>
    let '(a, d1, w1) := m w in
    let '(b, d2, w2) := k a w1 in
    (b, d1 ++ d2, w2).

(** An operation of [ServiceUtils], or of the part of [SimpleDeployer]
    modelled above, called from this level. *)
Definition lift {W A : Type} (m : M W A) : D W A :=
  fun w => let '(a, d, w') := m w in (a, map LEvent d, w').

Definition say {W : Type} (level : Level) (m : DeployerMsg) : D W unit :=
  fun w => (tt, [LSaid level m], w).

Definition dvalue {W A : Type} (r : A * list Line * W) : A := fst (fst r).
Definition dlines {W A : Type} (r : A * list Line * W) : list Line := snd (fst r).
Definition dfinal {W A : Type} (r : A * list Line * W) : W := snd r.

(** The events among the lines of a run. *)
Fixpoint events_of (ls : list Line) : list Event :=
  match ls with
  | [] => []
  | LEvent e :: rest => e :: events_of rest
  | LSaid _ _ :: rest => events_of rest
  end.

Declare Scope cli_scope.
Delimit Scope cli_scope with cli.
Notation "x <- m ;; k" := (dbind m (fun x => k))
  (at level 100, m at next level, right associativity) : cli_scope.
Notation "m ;;; k" := (dbind m (fun _ => k))
  (at level 100, right associativity) : cli_scope.

Definition exit_code (success : bool) : Z := if success then 0 else 1.

(** An uncaught exception ends the interpreter with status 1. *)
Definition exit_code_of (r : result bool) : Z :=
  match r with
  | Ok success => exit_code success
  | Raise _ => 1
  end.

Section SimpleDeployer.

Context {W : Type} (os : OS W).

(** [str.lower], left abstract: the model's strings are byte strings. *)
Context (lower : string -> string).

Local Open Scope cli_scope.

Definition quick_deploy : D W (result bool) := lift (deploy_all os true None).

Definition full_deploy : D W (result bool) := lift (deploy_all os false None).

Definition stop_all (service_ids : option (list string)) : D W bool :=
  (if truthy service_ids
   then lift (log INFO (MsgStoppingServices (given service_ids)))
   else say INFO DMsgStoppingAll) ;;;
  lift (stop_all_services os service_ids).

Definition start_all (service_ids : option (list string)) : D W bool :=
  (if truthy service_ids
   then lift (log INFO (MsgStartingServices (given service_ids)))
   else say INFO DMsgStartingAll) ;;;
  started <- lift (start_all_services os service_ids) ;;
  if negb started then dret false
  else lift (wait_for_services os service_ids 30).

Definition build_all (service_ids : option (list string)) : D W bool :=
  (if truthy service_ids
   then say INFO (DMsgBuildingServices (given service_ids))
   else lift (log INFO MsgBuildingAll)) ;;;
  lift (build_services os service_ids).

Definition copy_all (service_ids : option (list string)) : D W bool :=
  (if truthy service_ids
   then say INFO (DMsgCopyingServices (given service_ids))
   else say INFO DMsgCopyingAll) ;;;
  lift (copy_services os service_ids).

(** The loop of [status]; [self.utils.services[service_id]] raises
    [KeyError] for an id that is not registered. *)
Fixpoint status_lines (current : list (string * bool)) : D W (result unit) :=
  match current with
  | [] => dret (Ok tt)
  | (service_id, is_healthy) :: rest =>
      match services_get service_id with
      | Some config =>
          lift (log INFO (MsgStatusLine is_healthy (name config) (port config))) ;;;
          status_lines rest
      | None => dret (Raise KeyError)
      end
  end.

(** [SimpleDeployer.status]; the name [status] is taken by the field of a
    connection. *)
Definition status_command : D W (result bool) :=
  say INFO DMsgServiceStatus ;;;
  current <- lift (get_service_status os) ;;
  shown <- status_lines current ;;
  match shown with
  | Ok _ => dret (Ok true)
  | Raise e => dret (Raise e)
  end.

Definition test_service (service_id : string) : D W bool :=
  match services_get service_id with
  | None => lift (log ERROR (MsgUnknownService service_id)) ;;; dret false
  | Some config =>
      say INFO (DMsgTesting (name config)) ;;;
      say INFO (DMsgTestStep1 (name config)) ;;;
      process <- lift (find_process_by_port os (port config)) ;;
      stopped <- match process with
                 | Some _ =>
                     ok <- lift (stop_service_by_port os (port config) (name config)) ;;
                     if negb ok
                     then say ERROR (DMsgFailedToStop (name config)) ;;; dret false
                     else dret true
                 | None =>
                     say INFO (DMsgWasNotRunning (name config)) ;;; dret true
                 end ;;
      if negb stopped then dret false
      else
        say INFO (DMsgTestStep2 (name config)) ;;;
        built <- lift (build_services os (Some [service_id])) ;;
        if negb built
        then say ERROR (DMsgFailedToBuild (name config)) ;;; dret false
        else
          say INFO (DMsgTestStep3 (name config)) ;;;
          configs <- lift (copy_config_files os (Some [service_id])) ;;
          if negb configs
          then say ERROR DMsgFailedToCopyConfigs ;;; dret false
          else
            say INFO (DMsgTestStep4 (name config)) ;;;
            copied <- lift (copy_services os (Some [service_id])) ;;
            if negb copied
            then say ERROR (DMsgFailedToCopy (name config)) ;;; dret false
            else
              say INFO (DMsgTestStep5 (name config)) ;;;
              started <- lift (start_service os service_id) ;;
              if negb started
              then say ERROR (DMsgFailedToStart (name config)) ;;; dret false
              else
                say INFO (DMsgTestStep6 (name config)) ;;;
                lift (sleep os 3) ;;;
                is_healthy <- lift (check_service_health os service_id) ;;
                (if negb is_healthy
                 then say WARNING (DMsgMayNotBeHealthy (name config))
                 else dret tt) ;;;
                say INFO DMsgTestStep7 ;;;
                is_healthy <- lift (check_service_health os service_id) ;;
                say INFO (DMsgFinalHealth is_healthy (name config) (port config)) ;;;
                dret is_healthy
  end.

(** [set(service_ids) - valid_services] is not empty. *)
Definition invalid_services (service_ids : list string) : bool :=
  existsb (fun service_id =>
             negb (existsb (String.eqb service_id) services_keys)) service_ids.

(** [main], from [sys.argv] to the exit status of the process. *)
Definition main (argv : list string) : D W Z :=
  match argv with
  | _ :: arg1 :: rest =>
      let command := lower arg1 in
      if String.eqb command "help" then dret 0
      else
        let service_ids := match rest with
                           | [] => None
                           | _ :: _ => Some rest
                           end in
        if invalid_services (given service_ids) then dret 1
        else if String.eqb command "stop" then
          success <- stop_all service_ids ;; dret (exit_code success)
        else if String.eqb command "start" then
          success <- start_all service_ids ;; dret (exit_code success)
        else if String.eqb command "build" then
          success <- build_all service_ids ;; dret (exit_code success)
        else if String.eqb command "copy" then
          success <- copy_all service_ids ;; dret (exit_code success)
        else if String.eqb command "status" then
          success <- status_command ;; dret (exit_code_of success)
        else if String.eqb command "restart" then
          success <- lift (restart_all os service_ids) ;; dret (exit_code success)
        else if String.eqb command "test" then
          match service_ids with
          | Some [service_id] =>
              success <- test_service service_id ;; dret (exit_code success)
          | _ => dret 1
          end
        else if String.eqb command "quick" then
          success <- lift (deploy_all os true service_ids) ;;
          dret (exit_code_of success)
        else if String.eqb command "full" || String.eqb command "deploy" then
          success <- lift (deploy_all os false service_ids) ;;
          dret (exit_code_of success)
        else dret 1
  | _ =>
      success <- full_deploy ;; dret (exit_code_of success)
  end.

End SimpleDeployer.

(** [str.lower] on ASCII letters. *)
Definition ascii_lower (c : ascii) : ascii :=
  let n := nat_of_ascii c in
  if (Nat.leb 65 n && Nat.leb n 90)%bool then ascii_of_nat (n + 32) else c.

Fixpoint lower_ascii (s : string) : string :=
  match s with
  | EmptyString => EmptyString
  | String c rest => String (ascii_lower c) (lower_ascii rest)
  end.

(** * Vocabulary of the further properties *)

(** A connection in LISTEN state on [port]. *)
Definition listens (port : Z) (conn : Conn) : bool :=
  (laddr_port conn =? port) && String.eqb (status conn) "LISTEN".

(** The pids to which a termination signal was sent, in order. *)
Fixpoint terminated (d : list Event) : list Z :=
  match d with
  | [] => []
  | EvTerminate _ pid _ :: rest => pid :: terminated rest
  | _ :: rest => terminated rest
  end.

Section Turns.

Context {W : Type} (os : OS W).

(** The bodies of the two loops of [stop_all_services]. *)
Definition stop_by_port_turn (service_id : string) : M W bool :=
  match services_get service_id with
  | Some config => stop_service_by_port os (port config) (name config)
  | None => ret true
  end.

Definition stop_by_name_turn (service_id : string) : M W bool :=
  match services_get service_id with
  | Some config => stop_service_by_name os (exe config) (name config)
  | None => ret true
  end.

End Turns.

Section Outcomes.

Context {W : Type} (os : OS W).

(** At its turn, the executable of a service is copied and is there
    afterwards: the service is registered, its build output exists, the
    copy does not raise and the size of the destination can be read. *)
Definition staged_at (service_id : string) (turn : W) : Prop :=
  exists config size,
    services_get service_id = Some config
    /\ os_exists os (target_dir os ++ [exe config]) turn = true
    /\ fst (os_copy2 os (target_dir os ++ [exe config])
              (service_dir ++ [exe config]) turn) = Ok tt
    /\ os_stat_size os (service_dir ++ [exe config])
         (snd (os_copy2 os (target_dir os ++ [exe config])
                 (service_dir ++ [exe config]) turn)) = Ok size.

(** The service is registered, its executable is in the deployment
    directory, the launch does not raise and the process is still running
    two seconds later. *)
Definition comes_up (service_id : string) (w : W) : Prop :=
  exists config pid,
    services_get service_id = Some config
    /\ os_exists os (service_dir ++ [exe config]) w = true
    /\ fst (os_popen os (service_dir ++ [exe config]) service_dir
              (config_path_env service_id) w) = Ok pid
    /\ os_poll os pid
         (os_sleep os 2
            (snd (os_popen os (service_dir ++ [exe config]) service_dir
                    (config_path_env service_id) w))) = None.

End Outcomes.

(** What the wait loop counts as success on a polled status: every id of
    the subset is healthy in it, or, without a subset, every entry is. *)
Definition all_counted_healthy (service_ids : option (list string))
    (current : list (string * bool)) : Prop :=
  if truthy service_ids
  then forall service_id, In service_id (given service_ids) ->
         status_get current service_id = true
  else forall entry, In entry current -> snd entry = true.

(** The states in which a wait that begins in [w] polls the services: [w]
    itself, and after every round that did not succeed the state left by
    that round's health requests and its two second sleep. *)
Inductive polls_in {W : Type} (os : OS W) : W -> W -> Prop :=
| polls_first (w : W) : polls_in os w w
| polls_again (w w' : W) :
    polls_in os (os_sleep os 2 (final (get_service_status os w))) w' ->
    polls_in os w w'.

(** ** Stages in order *)

(** A call of stage [s], or a log line or a sleep. *)
Definition in_stage (s : Stage) (e : Event) : Prop :=
  stage_of e = s \/ stage_of e = StLog \/ stage_of e = StSleep.

(** [staged stages d]: [d] is made of consecutive segments, one per stage
    of the list in that order (a segment may be empty), each holding only
    calls of its stage besides log lines and sleeps. *)
Fixpoint staged (stages : list Stage) (d : list Event) : Prop :=
  match stages with
  | [] => d = []
  | s :: rest =>
      exists d1 d2, d = d1 ++ d2 /\ Forall (in_stage s) d1 /\ staged rest d2
  end.

(** The lines with which [deploy_all] gives up. *)
Definition is_abort (m : Msg) : bool :=
  match m with
  | MsgAbortStop | MsgAbortBuild | MsgAbortConfig | MsgAbortCopy | MsgAbortStart =>
      true
  | _ => false
  end.

Definition is_health_request (e : Event) : bool :=
  match e with
  | EvHttpGet _ _ _ => true
  | _ => false
  end.

(** ** Command words *)

(** The words that [main] dispatches on, "help" apart. *)
Definition known_command (command : string) : bool :=
  existsb (String.eqb command)
    ["stop"; "start"; "build"; "copy"; "status"; "restart"; "test";
     "quick"; "full"; "deploy"].

(** The subset that [main] passes on: none when no id follows the command. *)
Definition subset_of (rest : list string) : option (list string) :=
  match rest with
  | [] => None
  | _ :: _ => Some rest
  end.
(** * Reasoning about runs *)

Section Runs.

Context {W : Type}.

Lemma value_bind {A B : Type} (m : M W A) (k : A -> M W B) (w : W) :
  value (bind m k w) = value (k (value (m w)) (final (m w))).
Proof.
  unfold bind, value, final.
  destruct (m w) as [[a d1] w1]; simpl.
  destruct (k a w1) as [[b d2] w2]; reflexivity.
Qed.

Lemma events_bind {A B : Type} (m : M W A) (k : A -> M W B) (w : W) :
  events (bind m k w) = events (m w) ++ events (k (value (m w)) (final (m w))).
Proof.
  unfold bind, value, final, events.
  destruct (m w) as [[a d1] w1]; simpl.
  destruct (k a w1) as [[b d2] w2]; reflexivity.
Qed.

Lemma final_bind {A B : Type} (m : M W A) (k : A -> M W B) (w : W) :
  final (bind m k w) = final (k (value (m w)) (final (m w))).
Proof.
  unfold bind, value, final.
  destruct (m w) as [[a d1] w1]; simpl.
  destruct (k a w1) as [[b d2] w2]; reflexivity.
Qed.

Lemma run_eta {A : Type} (r : A * list Event * W) :
  r = (value r, events r, final r).
Proof. destruct r as [[a d] w]; reflexivity. Qed.

Lemma run_ext {A : Type} (r1 r2 : A * list Event * W) :
  value r1 = value r2 -> events r1 = events r2 -> final r1 = final r2 -> r1 = r2.
Proof.
  destruct r1 as [[a1 d1] w1], r2 as [[a2 d2] w2].
  unfold value, events, final; simpl; congruence.
Qed.

Lemma value_ret {A : Type} (a : A) (w : W) : value (ret a w) = a.
Proof. reflexivity. Qed.
Lemma events_ret {A : Type} (a : A) (w : W) : events (ret a w) = [].
Proof. reflexivity. Qed.
Lemma final_ret {A : Type} (a : A) (w : W) : final (ret a w) = w.
Proof. reflexivity. Qed.

Lemma value_query {A : Type} (q : W -> A) (w : W) : value (query q w) = q w.
Proof. reflexivity. Qed.
Lemma events_query {A : Type} (q : W -> A) (w : W) : events (query q w) = [].
Proof. reflexivity. Qed.
Lemma final_query {A : Type} (q : W -> A) (w : W) : final (query q w) = w.
Proof. reflexivity. Qed.

Lemma value_log (l : Level) (m : Msg) (w : W) : value (log l m w) = tt.
Proof. reflexivity. Qed.
Lemma events_log (l : Level) (m : Msg) (w : W) : events (log l m w) = [EvLog l m].
Proof. reflexivity. Qed.
Lemma final_log (l : Level) (m : Msg) (w : W) : final (log l m w) = w.
Proof. reflexivity. Qed.

Lemma value_call {A : Type} (op : W -> A * W) (ev : A -> Event) (w : W) :
  value (call op ev w) = fst (op w).
Proof. unfold call; destruct (op w); reflexivity. Qed.
Lemma events_call {A : Type} (op : W -> A * W) (ev : A -> Event) (w : W) :
  events (call op ev w) = [ev (fst (op w))].
Proof. unfold call; destruct (op w); reflexivity. Qed.
Lemma final_call {A : Type} (op : W -> A * W) (ev : A -> Event) (w : W) :
  final (call op ev w) = snd (op w).
Proof. unfold call; destruct (op w); reflexivity. Qed.

Lemma value_sleep (os : OS W) (n : Z) (w : W) : value (sleep os n w) = tt.
Proof. reflexivity. Qed.
Lemma events_sleep (os : OS W) (n : Z) (w : W) : events (sleep os n w) = [EvSleep n].
Proof. reflexivity. Qed.
Lemma final_sleep (os : OS W) (n : Z) (w : W) : final (sleep os n w) = os_sleep os n w.
Proof. reflexivity. Qed.

End Runs.

Create Rewrite HintDb run.
#[local] Hint Rewrite @value_bind @events_bind @final_bind
  @value_ret @events_ret @final_ret
  @value_query @events_query @final_query
  @value_log @events_log @final_log
  @value_call @events_call @final_call
  @value_sleep @events_sleep @final_sleep : run.

Ltac run := autorewrite with run in *; cbn beta iota in *.

(** ** Loops with a success flag *)

Section Loops.

Context {W A : Type} (body : A -> M W bool).

Lemma iterations_fst (l : list A) (w : W) : map fst (iterations body l w) = l.
Proof.
  revert w; induction l as [|x l IH]; intros w; simpl; [reflexivity|].
  now rewrite IH.
Qed.

Lemma for_each_value (l : list A) (success : bool) (w : W) :
  value (for_each body l success w) = success && forallb (turn_ok body) (iterations body l w).
Proof.
  revert success w; induction l as [|x l IH]; intros success w; simpl.
  - now rewrite andb_true_r.
  - rewrite value_bind, IH. unfold turn_ok at 2; simpl.
    now rewrite andb_assoc.
Qed.

Lemma for_each_events (l : list A) (success : bool) (w : W) :
  events (for_each body l success w) = flat_map (turn_events body) (iterations body l w).
Proof.
  revert success w; induction l as [|x l IH]; intros success w; simpl.
  - reflexivity.
  - rewrite events_bind, IH. reflexivity.
Qed.

Lemma for_each_final (l : list A) (success : bool) (w : W) :
  final (for_each body l success w) =
  match rev (iterations body l w) with
  | [] => w
  | last :: _ => final (body (fst last) (snd last))
  end.
Proof.
  revert success w; induction l as [|x l IH]; intros success w; simpl.
  - reflexivity.
  - rewrite final_bind, IH.
    destruct (iterations body l (final (body x w))) as [|it its] eqn:E; simpl.
    + reflexivity.
    + destruct (rev its ++ [it]) eqn:E2.
      * destruct (rev its); discriminate.
      * simpl. reflexivity.
Qed.

Lemma for_each_false (l : list A) (w : W) :
  value (for_each body l false w) = false.
Proof. now rewrite for_each_value. Qed.

Lemma for_each_turn_fails (l : list A) (success : bool) (w : W) (it : A * W) :
  In it (iterations body l w) -> turn_ok body it = false ->
  value (for_each body l success w) = false.
Proof.
  intros Hin Hbad. rewrite for_each_value.
  destruct (forallb (turn_ok body) (iterations body l w)) eqn:E.
  - rewrite forallb_forall in E. rewrite (E _ Hin) in Hbad. discriminate.
  - apply andb_false_r.
Qed.

(** A loop whose turns all leave the host untouched runs every turn in the
    state it started from. *)
Lemma iterations_still (l : list A) (w : W) :
  (forall x, In x l -> final (body x w) = w) ->
  iterations body l w = map (fun x => (x, w)) l.
Proof.
  induction l as [|x l IH]; intros Hstill; simpl; [reflexivity|].
  rewrite (Hstill x (or_introl eq_refl)).
  rewrite IH; [reflexivity|]. intros y Hy. apply Hstill. now right.
Qed.

End Loops.


(** Case analysis on the next outcome a run depends on. *)
Ltac next_case :=
  match goal with
  | |- context [match ?x with _ => _ end] =>
      lazymatch x with
      | context [match _ with _ => _ end] => fail
      | _ => destruct x eqn:?
      end
  end.

Ltac cases := repeat (run; cbn [fst snd negb] in *; try next_case).

(** ** Events of composed runs *)

Section Emits.

Context {W : Type}.

Lemma emits_ret {A : Type} (P : Event -> Prop) (a : A) : emits (W := W) P (ret a).
Proof. intros w. constructor. Qed.

Lemma emits_query {A : Type} (P : Event -> Prop) (q : W -> A) : emits P (query q).
Proof. intros w. constructor. Qed.

Lemma emits_log (P : Event -> Prop) (l : Level) (m : Msg) :
  P (EvLog l m) -> emits (W := W) P (log l m).
Proof. intros H w. repeat constructor. exact H. Qed.

Lemma emits_sleep (P : Event -> Prop) (os : OS W) (n : Z) :
  P (EvSleep n) -> emits P (sleep os n).
Proof. intros H w. repeat constructor. exact H. Qed.

Lemma emits_call {A : Type} (P : Event -> Prop) (op : W -> A * W) (ev : A -> Event) :
  (forall a, P (ev a)) -> emits P (call op ev).
Proof. intros H w. rewrite events_call. repeat constructor. apply H. Qed.

Lemma emits_bind {A B : Type} (P : Event -> Prop) (m : M W A) (k : A -> M W B) :
  emits P m -> (forall a, emits P (k a)) -> emits P (bind m k).
Proof.
  intros Hm Hk w. rewrite events_bind. apply Forall_app. split.
  - apply Hm.
  - apply Hk.
Qed.

Lemma emits_weaken {A : Type} (P Q : Event -> Prop) (m : M W A) :
  (forall e, P e -> Q e) -> emits P m -> emits Q m.
Proof. intros HPQ Hm w. eapply Forall_impl; [exact HPQ|apply Hm]. Qed.

Lemma emits_for_each {A : Type} (P : Event -> Prop) (body : A -> M W bool)
    (l : list A) (success : bool) :
  (forall x, In x l -> emits P (body x)) -> emits P (for_each body l success).
Proof.
  revert success; induction l as [|x l IH]; intros success Hbody; simpl.
  - apply emits_ret.
  - apply emits_bind.
    + apply Hbody. now left.
    + intros ok. apply IH. intros y Hy. apply Hbody. now right.
Qed.

End Emits.

(** Walks through a run, leaving one goal per log line and call. *)
Ltac emits_steps :=
  cbv zeta;
  repeat first
    [ apply emits_ret
    | apply emits_query
    | apply emits_log
    | apply emits_sleep
    | apply emits_call; intros
    | apply emits_bind; [|intros]
    | match goal with
      | |- emits _ (match ?x with _ => _ end) => destruct x
      end ].

(** * Stopping *)

Section Stopping.

Context {W : Type} (os : OS W).

Lemma scan_listeners_absent (port : Z) (conns : list Conn) (w : W) :
  existsb (fun conn => (laddr_port conn =? port)
                       && String.eqb (status conn) "LISTEN") conns = false ->
  scan_listeners os port conns w = Ok None.
Proof.
  induction conns as [|conn conns IH]; simpl; intros H; [reflexivity|].
  apply orb_false_elim in H as [Hc Hrest].
  rewrite Hc. now apply IH.
Qed.

Lemma find_process_by_port_final (port : Z) (w : W) :
  final (find_process_by_port os port w) = w.
Proof.
  unfold find_process_by_port; run.
  destruct (os_net_connections os w) as [conns|e]; run; [|reflexivity].
  destruct (scan_listeners os port conns w); run; reflexivity.
Qed.

Lemma find_process_by_port_logs (port : Z) (w : W) :
  Forall (fun e => is_log e = true) (events (find_process_by_port os port w)).
Proof.
  unfold find_process_by_port; run.
  destruct (os_net_connections os w) as [conns|e]; run.
  - destruct (scan_listeners os port conns w); run; repeat constructor.
  - repeat constructor.
Qed.

Lemma find_process_by_port_found (port pid : Z) (w : W) :
  value (find_process_by_port os port w) = Some pid ->
  events (find_process_by_port os port w) = [].
Proof.
  unfold find_process_by_port; run.
  destruct (os_net_connections os w) as [conns|e]; run; [|discriminate].
  destruct (scan_listeners os port conns w); run; [reflexivity|discriminate].
Qed.

Lemma find_process_by_port_absent (port : Z) (w : W) :
  listening_on os port w = false ->
  value (find_process_by_port os port w) = None.
Proof.
  unfold listening_on, find_process_by_port; run.
  destruct (os_net_connections os w) as [conns|e]; run; [|reflexivity].
  intros H. rewrite (scan_listeners_absent port conns w H). reflexivity.
Qed.

Lemma scan_processes_absent (exe_name : string) (procs : list (result ProcInfo)) :
  existsb (fun p => match p with
                    | Ok info => name_matches exe_name info
                    | Raise _ => false
                    end) procs = false ->
  fst (scan_processes exe_name procs) = [].
Proof.
  induction procs as [|p procs IH]; simpl; intros H; [reflexivity|].
  apply orb_false_elim in H as [Hp Hrest]. specialize (IH Hrest).
  destruct p as [info|e].
  - destruct (scan_processes exe_name procs) as [found raised]; simpl in *.
    rewrite Hp. simpl. assumption.
  - destruct e; simpl; auto.
Qed.

Lemma find_process_by_name_final (exe_name : string) (w : W) :
  final (find_process_by_name os exe_name w) = w.
Proof.
  unfold find_process_by_name; run.
  destruct (os_process_iter os w) as [procs|e]; run; [|reflexivity].
  destruct (scan_processes exe_name procs) as [found [|]]; run; reflexivity.
Qed.

Lemma find_process_by_name_logs (exe_name : string) (w : W) :
  Forall (fun e => is_log e = true) (events (find_process_by_name os exe_name w)).
Proof.
  unfold find_process_by_name; run.
  destruct (os_process_iter os w) as [procs|e]; run.
  - destruct (scan_processes exe_name procs) as [found [|]]; run; repeat constructor.
  - repeat constructor.
Qed.

Lemma find_process_by_name_absent (exe_name : string) (w : W) :
  running_as os exe_name w = false ->
  value (find_process_by_name os exe_name w) = [].
Proof.
  unfold running_as, find_process_by_name; run.
  destruct (os_process_iter os w) as [procs|e]; run; [|reflexivity].
  intros H. pose proof (scan_processes_absent exe_name procs H) as Hnone.
  destruct (scan_processes exe_name procs) as [found [|]]; run; assumption.
Qed.

Lemma logs_no_stop_call (d : list Event) :
  Forall (fun e => is_log e = true) d -> no_stop_call d.
Proof.
  unfold no_stop_call. intros H. eapply Forall_impl; [|exact H].
  intros [] Hl; simpl in *; congruence.
Qed.

Lemma stop_service_by_port_quiet (port : Z) (service_name : string) (w : W) :
  listening_on os port w = false ->
  quiet (stop_service_by_port os port service_name) w.
Proof.
  intros H. unfold quiet, stop_service_by_port. run.
  rewrite (find_process_by_port_absent port w H).
  rewrite find_process_by_port_final. run.
  repeat split.
  apply Forall_app; split.
  - apply logs_no_stop_call, find_process_by_port_logs.
  - repeat constructor.
Qed.

Lemma stop_service_by_name_quiet (exe_name service_name : string) (w : W) :
  running_as os exe_name w = false ->
  quiet (stop_service_by_name os exe_name service_name) w.
Proof.
  intros H. unfold quiet, stop_service_by_name. run.
  rewrite (find_process_by_name_absent exe_name w H).
  rewrite find_process_by_name_final. run.
  repeat split.
  apply Forall_app; split.
  - apply logs_no_stop_call, find_process_by_name_logs.
  - repeat constructor.
Qed.

Lemma for_each_quiet {A : Type} (body : A -> M W bool) (l : list A) (w : W) :
  (forall x, In x l -> quiet (body x) w) ->
  quiet (for_each body l true) w.
Proof.
  intros Hq.
  assert (Hit : iterations body l w = map (fun x => (x, w)) l).
  { apply iterations_still. intros x Hx. apply (Hq x Hx). }
  unfold quiet. rewrite for_each_value, for_each_events, for_each_final, Hit.
  repeat split.
  - simpl. apply forallb_forall. intros it Hin.
    apply in_map_iff in Hin as (x & <- & Hx). apply (Hq x Hx).
  - rewrite <- map_rev. destruct (rev l) as [|x l'] eqn:E; simpl; [reflexivity|].
    apply (Hq x). apply in_rev. rewrite E. now left.
  - unfold no_stop_call. apply Forall_flat_map, Forall_forall. intros it Hin.
    apply in_map_iff in Hin as (x & <- & Hx). apply (Hq x Hx).
Qed.

(** C4 -- Stopping services that are not running succeeds without any
    terminate or kill call: when no connection listens on the port of a
    requested service and no live process matches its executable name,
    [stop_service_by_port] and [stop_service_by_name] both return success
    and leave the host untouched, and [stop_all_services] over such
    services returns success with no terminate or kill call in its run. *)
Theorem stop_absent_is_success (ids : list string) (w : W) :
  (forall id config, In id ids -> services_get id = Some config ->
     absent os config w) ->
  (forall id config, In id ids -> services_get id = Some config ->
     (value (stop_service_by_port os (port config) (name config) w) = true
      /\ no_stop_call (events (stop_service_by_port os (port config) (name config) w)))
     /\ (value (stop_service_by_name os (exe config) (name config) w) = true
      /\ no_stop_call (events (stop_service_by_name os (exe config) (name config) w))))
  /\ value (stop_all_services os (Some ids) w) = true
  /\ no_stop_call (events (stop_all_services os (Some ids) w)).
Proof.
  intros Habs.
  assert (Hport : forall id, In id ids ->
            quiet (fun w => match services_get id with
                          | Some config =>
                              stop_service_by_port os (port config) (name config) w
                          | None => ret true w
                          end) w).
  { intros id Hin. destruct (services_get id) as [config|] eqn:E.
    - apply stop_service_by_port_quiet, (Habs id config Hin E).
    - repeat split; constructor. }
  assert (Hname : forall id, In id ids ->
            quiet (fun w => match services_get id with
                          | Some config =>
                              stop_service_by_name os (exe config) (name config) w
                          | None => ret true w
                          end) w).
  { intros id Hin. destruct (services_get id) as [config|] eqn:E.
    - apply stop_service_by_name_quiet, (Habs id config Hin E).
    - repeat split; constructor. }
  split.
  { intros id config Hin E. destruct (Habs id config Hin E) as [Hp Hn].
    pose proof (stop_service_by_port_quiet (port config) (name config) w Hp) as (? & ? & ?).
    pose proof (stop_service_by_name_quiet (exe config) (name config) w Hn) as (? & ? & ?).
    auto. }
  pose proof (for_each_quiet
    (fun id => match services_get id with
               | Some config => stop_service_by_port os (port config) (name config)
               | None => ret true
               end) ids w) as Q1.
  pose proof (for_each_quiet
    (fun id => match services_get id with
               | Some config => stop_service_by_name os (exe config) (name config)
               | None => ret true
               end) ids w) as Q2.
  destruct Q1 as (V1 & F1 & E1).
  { intros id Hin. specialize (Hport id Hin). destruct (services_get id); exact Hport. }
  destruct Q2 as (V2 & F2 & E2).
  { intros id Hin. specialize (Hname id Hin). destruct (services_get id); exact Hname. }
  unfold stop_all_services, ids_or_all. run.
  assert (F0 : forall l1 m1 l2 m2 (b : bool),
            final ((if b then log l1 m1 else log l2 m2) w) = w)
    by (intros; destruct b; reflexivity).
  rewrite F0, V1, F1, V2. split; [reflexivity|].
  unfold no_stop_call in *; repeat (apply Forall_app; split);
    try assumption; try (destruct (truthy (Some ids))); repeat constructor.
Qed.

Lemma stop_service_by_port_escalation (port : Z) (service_name : string)
    (pid : Z) (w : W) :
  value (find_process_by_port os port w) = Some pid ->
  escalation service_name pid
    (calls (events (stop_service_by_port os port service_name w)))
    (value (stop_service_by_port os port service_name w)).
Proof.
  intros Hfound. unfold stop_service_by_port, terminate, wait, kill. run.
  rewrite (find_process_by_port_found port pid w Hfound), Hfound,
    find_process_by_port_final.
  run.
  destruct (os_terminate os pid w) as [[[]|e1] w1]; cbn [fst snd]; run;
    [|simpl; constructor].
  destruct (os_wait os pid 10 w1) as [[[]|e2] w2]; cbn [fst snd]; run;
    [simpl; constructor|].
  destruct e2; run; try (simpl; constructor; discriminate).
  destruct (os_kill os pid w2) as [[[]|e3] w3]; cbn [fst snd]; run;
    [|simpl; constructor].
  destruct (os_wait os pid 5 w3) as [[[]|e4] w4]; cbn [fst snd]; run;
    simpl; constructor.
Qed.

Lemma escalation_kill_after_timeout (service_name : string) (pid : Z)
    (d : list Event) (b : bool) :
  escalation service_name pid d b ->
  forall r, In (EvKill service_name pid r) d ->
  exists rest,
    d = EvTerminate service_name pid (Ok tt)
        :: EvWait pid 10 (Raise TimeoutExpired)
        :: EvKill service_name pid r :: rest.
Proof.
  intros H r Hin.
  inversion H; subst; simpl in Hin;
    repeat (destruct Hin as [Hin|Hin]; [try discriminate|]); try contradiction;
    inversion Hin; subst; eexists; reflexivity.
Qed.

Lemma escalation_survivor_fails (service_name : string) (pid : Z)
    (d : list Event) (b : bool) :
  escalation service_name pid d b ->
  forall e, In (EvWait pid 5 (Raise e)) d -> b = false.
Proof.
  intros H e Hin.
  inversion H; subst; simpl in Hin; try reflexivity;
    repeat (destruct Hin as [Hin|Hin]; [try discriminate|]); try contradiction.
Qed.

(** C7 -- Graceful, then forceful, then a reported failure: for a process
    located on the port, the calls of [stop_service_by_port] follow the
    termination state machine: the first call is the graceful signal,
    followed by a wait of at most 10 seconds; a kill is sent only after that
    wait has timed out, followed by a wait of at most 5 seconds; and when
    the process is still there after both waits the function returns
    [false] (a value, the model has no exception escaping it). *)
Theorem stop_escalates_then_reports (port : Z) (service_name : string)
    (pid : Z) (w : W) :
  value (find_process_by_port os port w) = Some pid ->
  let run := stop_service_by_port os port service_name w in
  escalation service_name pid (calls (events run)) (value run)
  /\ (exists r rest, calls (events run) = EvTerminate service_name pid r :: rest)
  /\ (forall r, In (EvKill service_name pid r) (calls (events run)) ->
      exists rest,
        calls (events run) =
          EvTerminate service_name pid (Ok tt)
          :: EvWait pid 10 (Raise TimeoutExpired)
          :: EvKill service_name pid r :: rest)
  /\ (In (EvWait pid 10 (Raise TimeoutExpired)) (calls (events run)) ->
      In (EvWait pid 5 (Raise TimeoutExpired)) (calls (events run)) ->
      value run = false).
Proof.
  intros Hfound run0.
  pose proof (stop_service_by_port_escalation port service_name pid w Hfound) as H.
  fold run0 in H. repeat split.
  - exact H.
  - inversion H; eexists; eexists; reflexivity.
  - apply (escalation_kill_after_timeout _ _ _ _ H).
  - intros _ H5. apply (escalation_survivor_fails _ _ _ _ H _ H5).
Qed.

End Stopping.

(** Only the gateway is up and the backend is asked to stop: success, no
    terminate or kill call. *)
Lemma stop_absent_is_success_witness :
  value (stop_all_services Host.os (Some ["chaos-backend"]) Host.gateway_up) = true
  /\ no_stop_call
       (events (stop_all_services Host.os (Some ["chaos-backend"]) Host.gateway_up)).
Proof.
  apply (stop_absent_is_success Host.os ["chaos-backend"] Host.gateway_up).
  intros id config [<-|[]] E. vm_compute in E. inversion E; subst.
  split; vm_compute; reflexivity.
Defined.

(** A gateway that ignores both signals: terminate, wait 10, kill, wait 5,
    and [false]. *)
Lemma stop_escalates_then_reports_witness :
  value (stop_service_by_port Host.os 8080 "API Gateway" Host.gateway_stuck) = false
  /\ calls (events (stop_service_by_port Host.os 8080 "API Gateway" Host.gateway_stuck))
     = [ EvTerminate "API Gateway" 4100 (Ok tt);
         EvWait 4100 10 (Raise TimeoutExpired);
         EvKill "API Gateway" 4100 (Ok tt);
         EvWait 4100 5 (Raise TimeoutExpired) ].
Proof.
  split; [|vm_compute; reflexivity].
  apply (stop_escalates_then_reports Host.os 8080 "API Gateway" 4100
           Host.gateway_stuck); vm_compute; auto.
Defined.

(** * Starting *)

Section Starting.

Context {W : Type} (os : OS W).

Lemma launches_app (d1 d2 : list Event) :
  launches (d1 ++ d2) = launches d1 ++ launches d2.
Proof.
  induction d1 as [|e d1 IH]; simpl; [reflexivity|].
  destruct e; simpl; rewrite ?IH; reflexivity.
Qed.

Lemma start_service_launches (service_id : string) (w : W) :
  (launches (events (start_service os service_id w)) = [service_id])
  \/ (launches (events (start_service os service_id w)) = []
      /\ value (start_service os service_id w) = false).
Proof.
  unfold start_service. cases; simpl; auto.
Qed.

Lemma start_loop_prefix (l : list string) (w : W) :
  exists k, launches (events (start_loop os l w)) = firstn k l
            /\ (value (start_loop os l w) = true ->
                launches (events (start_loop os l w)) = l).
Proof.
  revert w; induction l as [|id l IH]; intros w.
  - exists 0%nat. simpl. auto.
  - simpl. run. rewrite launches_app.
    destruct (value (start_service os id w)) eqn:Hok; run.
    + destruct (start_service_launches id w) as [Hl|[_ Hv]]; [|congruence].
      rewrite Hl. rewrite launches_app. simpl.
      destruct (IH (os_sleep os 1 (final (start_service os id w)))) as (k & Hk & Hall).
      exists (S k). simpl. rewrite Hk. split; [reflexivity|].
      intros Hv. rewrite <- Hk. now rewrite (Hall Hv).
    + destruct (start_service_launches id w) as [Hl|[Hl _]]; rewrite Hl.
      * exists 1%nat. simpl. split; [reflexivity|discriminate].
      * exists 0%nat. simpl. split; [reflexivity|discriminate].
Qed.

Lemma start_loop_fail_fast (l1 l2 : list string) (w : W) :
  value (start_loop os l1 w) = false ->
  start_loop os (l1 ++ l2) w = start_loop os l1 w.
Proof.
  revert w; induction l1 as [|id l1 IH]; intros w; simpl.
  - discriminate.
  - intros Hv. rewrite value_bind in Hv.
    unfold bind. destruct (start_service os id w) as [[ok d] w1]; simpl in *.
    unfold value, final in Hv; simpl in Hv.
    destruct ok; [|reflexivity].
    unfold bind in *. simpl in *.
    rewrite IH; [reflexivity|].
    destruct (start_loop os l1 (os_sleep os 1 w1)) as [[b d'] w']; exact Hv.
Qed.

(** C5 -- Launch order and fail-fast: [start_all_services] issues its
    launches one after the other for a prefix of the given list, in the
    order given (the whole list when it reports success); without a subset
    the list is user-management, chaos-backend, content-management-service,
    api-gateway; and once the run over a list has failed, nothing that
    follows that list is launched. *)
Theorem start_all_in_order_fail_fast (ids later : list string) (w : W) :
  (exists k,
     launches (events (start_all_services os (Some ids) w)) = firstn k ids
     /\ (value (start_all_services os (Some ids) w) = true ->
         launches (events (start_all_services os (Some ids) w)) = ids))
  /\ (exists k,
     launches (events (start_all_services os None w)) =
       firstn k ["user-management"; "chaos-backend";
                 "content-management-service"; "api-gateway"]
     /\ (value (start_all_services os None w) = true ->
         launches (events (start_all_services os None w)) =
           ["user-management"; "chaos-backend";
            "content-management-service"; "api-gateway"]))
  /\ (value (start_all_services os (Some ids) w) = false ->
      value (start_all_services os (Some (ids ++ later)) w) = false
      /\ launches (events (start_all_services os (Some (ids ++ later)) w)) =
         launches (events (start_all_services os (Some ids) w))).
Proof.
  assert (Hlog : forall (o : option (list string)) (l : list string),
            value (start_all_services os o w) = value (start_loop os
              match o with None => default_start_order | Some ids => ids end w)
            /\ launches (events (start_all_services os o w)) =
               launches (events (start_loop os
                 match o with None => default_start_order | Some ids => ids end w))).
  { intros o _. unfold start_all_services. run.
    destruct (truthy o); run; rewrite launches_app; simpl; auto. }
  repeat split.
  - destruct (Hlog (Some ids) []) as [-> ->]. apply start_loop_prefix.
  - destruct (Hlog None []) as [-> ->]. apply start_loop_prefix.
  - destruct (Hlog (Some ids) []) as [Hv _]. rewrite Hv in H.
    destruct (Hlog (Some (ids ++ later)) []) as [-> _].
    now rewrite (start_loop_fail_fast ids later w H).
  - destruct (Hlog (Some ids) []) as [Hv ->]. rewrite Hv in H.
    destruct (Hlog (Some (ids ++ later)) []) as [_ ->].
    now rewrite (start_loop_fail_fast ids later w H).
Qed.

End Starting.

(** The backend crashes on start: the gateway, listed after it, is never
    launched. *)
Lemma start_all_in_order_fail_fast_witness :
  value (start_all_services Host.os
           (Some (["user-management"; "chaos-backend"] ++ ["api-gateway"]))
           Host.backend_crashes) = false
  /\ launches (events (start_all_services Host.os
           (Some (["user-management"; "chaos-backend"] ++ ["api-gateway"]))
           Host.backend_crashes))
     = launches (events (start_all_services Host.os
           (Some ["user-management"; "chaos-backend"]) Host.backend_crashes)).
Proof.
  apply (start_all_in_order_fail_fast Host.os
           ["user-management"; "chaos-backend"] ["api-gateway"]
           Host.backend_crashes).
  vm_compute. reflexivity.
Defined.

(** * Health *)

Section Health.

Context {W : Type} (os : OS W).

Lemma check_service_health_spec (service_id : string) (config : ServiceConfig)
    (w : W) :
  services_get service_id = Some config ->
  value (check_service_health os service_id w)
    = match fst (os_http_get os (port config) 5 w) with
      | Ok status_code => status_code =? 200
      | Raise _ => false
      end
  /\ events (check_service_health os service_id w)
     = [EvHttpGet (port config) 5 (fst (os_http_get os (port config) 5 w))]
  /\ final (check_service_health os service_id w)
     = snd (os_http_get os (port config) 5 w).
Proof.
  intros E. unfold check_service_health. rewrite E. run.
  destruct (os_http_get os (port config) 5 w) as [[code|e] w1]; cbn [fst snd]; run;
    auto.
Qed.

Lemma check_service_health_time (service_id : string) (w : W) :
  os_time os w <= os_time os (final (check_service_health os service_id w)).
Proof.
  destruct (services_get service_id) as [config|] eqn:E.
  - destruct (check_service_health_spec service_id config w E) as (_ & _ & ->).
    apply os_http_time.
  - unfold check_service_health. rewrite E. run. lia.
Qed.

Lemma status_of_time (ids : list string) (w : W) :
  os_time os w <= os_time os (final (status_of os ids w)).
Proof.
  revert w; induction ids as [|id ids IH]; intros w; simpl; run; [lia|].
  pose proof (check_service_health_time id w).
  pose proof (IH (final (check_service_health os id w))). lia.
Qed.

Lemma get_service_status_round (w : W) :
  poll_round registered_ports (events (get_service_status os w)).
Proof.
  unfold get_service_status, services_keys, services. simpl map. simpl status_of.
  run.
  repeat match goal with
  | |- context [events (check_service_health os ?id ?w0)] =>
      let H := fresh in
      destruct (check_service_health_spec id _ w0 eq_refl) as (_ & H & _);
      rewrite H; clear H
  end.
  simpl. repeat constructor.
Qed.

Lemma wait_loop_polls (service_ids : option (list string)) (timeout start_time : Z)
    (fuel : nat) (w : W) :
  timeout - (os_time os w - start_time) <= 2 * Z.of_nat fuel ->
  exists b,
    value (wait_loop os (S fuel) service_ids timeout start_time w) = Some b
    /\ polling (events (wait_loop os (S fuel) service_ids timeout start_time w)) b
    /\ (b = false ->
        timeout <= os_time os
                     (final (wait_loop os (S fuel) service_ids timeout start_time w))
                   - start_time).
Proof.
  revert w; induction fuel as [|fuel IH]; intros w Hrem.
  - simpl wait_loop. run.
    destruct (os_time os w - start_time <? timeout) eqn:Hlt.
    + apply Z.ltb_lt in Hlt. lia.
    + apply Z.ltb_ge in Hlt. run. exists false. repeat split.
      * simpl. constructor.
      * intros _. lia.
  - remember (S fuel) as n. simpl wait_loop. run.
    destruct (os_time os w - start_time <? timeout) eqn:Hlt.
    + run.
      match goal with
      | |- context [if ?c then _ else _] => destruct c eqn:Hall
      end; run.
      * exists true. repeat split; [|discriminate].
        rewrite app_nil_r. apply polling_healthy, get_service_status_round.
      * pose proof (status_of_time services_keys w) as Ht.
        fold (get_service_status os) in Ht.
        pose proof (os_sleep_time os 2 (final (get_service_status os w))) as Hs.
        subst n.
        destruct (IH (os_sleep os 2 (final (get_service_status os w)))) as
          (b & Hv & Hp & Hd); [lia|].
        exists b. repeat split.
        -- exact Hv.
        -- simpl app. apply polling_retry; [apply get_service_status_round|exact Hp].
        -- exact Hd.
    + apply Z.ltb_ge in Hlt. run. exists false. repeat split.
      * simpl. constructor.
      * intros _. lia.
Qed.

Lemma wait_loop_returns (service_ids : option (list string)) (timeout : Z) (w : W) :
  exists b,
    value (wait_loop os (wait_fuel timeout) service_ids timeout (os_time os w) w)
      = Some b
    /\ polling (events (wait_loop os (wait_fuel timeout) service_ids timeout
                          (os_time os w) w)) b
    /\ (b = false ->
        timeout <= os_time os
                     (final (wait_loop os (wait_fuel timeout) service_ids timeout
                               (os_time os w) w))
                   - os_time os w).
Proof.
  unfold wait_fuel. apply wait_loop_polls. lia.
Qed.

(** C8 -- Health checks and the wait loop.  For a registered service,
    [check_service_health] issues one GET to the service's port with a
    5 second timeout and reports healthy exactly when the answer is status
    200; an exception (connection error, timeout) or another status gives
    [false].  [wait_for_services] always returns: its events after the
    opening log line are rounds of health requests, each unsuccessful round
    followed by a 2 second sleep, and it returns [false] only once the
    deadline has passed. *)
Theorem health_check_and_wait (service_id : string) (config : ServiceConfig)
    (service_ids : option (list string)) (timeout : Z) (w : W) :
  services_get service_id = Some config ->
  (value (check_service_health os service_id w) = true
   <-> fst (os_http_get os (port config) 5 w) = Ok 200)
  /\ events (check_service_health os service_id w)
     = [EvHttpGet (port config) 5 (fst (os_http_get os (port config) 5 w))]
  /\ value (wait_loop os (wait_fuel timeout) service_ids timeout (os_time os w) w)
     <> None
  /\ (exists opening d,
        events (wait_for_services os service_ids timeout w) = EvLog INFO opening :: d
        /\ polling d (value (wait_for_services os service_ids timeout w)))
  /\ (value (wait_for_services os service_ids timeout w) = false ->
      timeout <= os_time os (final (wait_for_services os service_ids timeout w))
                 - os_time os w).
Proof.
  intros E.
  destruct (check_service_health_spec service_id config w E) as (Hv & He & _).
  destruct (wait_loop_returns service_ids timeout w) as (b & Hb & Hp & Hd).
  assert (F0 : forall m1 m2 (c : bool),
            final ((if c then log INFO m1 else log INFO m2) w) = w)
    by (intros; destruct c; reflexivity).
  repeat split.
  - rewrite Hv. destruct (fst (os_http_get os (port config) 5 w)) as [code|e].
    + intros H. apply Z.eqb_eq in H. now subst.
    + discriminate.
  - intros H. rewrite Hv, H. reflexivity.
  - exact He.
  - rewrite Hb. discriminate.
  - unfold wait_for_services. run. rewrite F0, Hb. run.
    exists (if truthy service_ids
            then MsgWaitingFor (given service_ids) timeout
            else MsgWaitingAll timeout).
    exists (events (wait_loop os (wait_fuel timeout) service_ids timeout
                      (os_time os w) w)).
    split; [|exact Hp].
    destruct (truthy service_ids); run; simpl; now rewrite app_nil_r.
  - unfold wait_for_services. run. rewrite F0, Hb. run.
    intros Hf. apply Hd. exact Hf.
Qed.

End Health.

(** The gateway on a host where no health endpoint answers: the check is
    [false] and the wait gives up after the deadline. *)
Lemma health_check_and_wait_witness :
  (value (check_service_health Host.os "api-gateway" Host.never_healthy) = true
   <-> fst (os_http_get Host.os 8080 5 Host.never_healthy) = Ok 200)
  /\ value (wait_for_services Host.os (Some ["api-gateway"]) 10 Host.never_healthy)
     = false.
Proof.
  destruct (health_check_and_wait Host.os "api-gateway"
              {| exe := "api-gateway.exe"; port := 8080; name := "API Gateway" |}
              (Some ["api-gateway"]) 10 Host.never_healthy eq_refl)
    as (H & _).
  split; [exact H|vm_compute; reflexivity].
Defined.

(** * Deployment *)

Section Deployment.

Context {W : Type} (os : OS W).

Lemma if_log_final (c : bool) (l1 l2 : Level) (m1 m2 : Msg) (w : W) :
  final ((if c then log l1 m1 else log l2 m2) w) = w.
Proof. destruct c; reflexivity. Qed.

Lemma if_log_events (c : bool) (l1 l2 : Level) (m1 m2 : Msg) (w : W) :
  events ((if c then log l1 m1 else log l2 m2) w)
  = [if c then EvLog l1 m1 else EvLog l2 m2].
Proof. destruct c; reflexivity. Qed.

(** [deploy_all] is its five stages followed, when none aborted, by the
    health wait and the report. *)
Lemma deploy_all_split (skip_build : bool) (service_ids : option (list string))
    (w : W) :
  deploy_all os skip_build service_ids w
  = bind (deploy_stages os skip_build service_ids)
      (fun ok => if ok then deploy_report os (os_time os w) service_ids
                 else ret (Ok false)) w.
Proof.
  apply run_ext; unfold deploy_all, deploy_stages, deploy_report; run;
    rewrite ?if_log_final;
    repeat (match goal with
            | |- context [if negb ?c then _ else _] => destruct c; cbn [negb]
            end; run; rewrite ?app_nil_r, <- ?app_assoc; try reflexivity).
Qed.

Lemma unknown_turn_fails (body : string -> M W bool) (l : list string) (w : W) :
  (forall id w', services_get id = None -> value (body id w') = false) ->
  forallb (turn_ok body) (iterations body l w) = true ->
  Forall registered l.
Proof.
  intros Hbody. revert w; induction l as [|id l IH]; intros w; simpl.
  - constructor.
  - intros H. apply andb_prop in H as [Hid Hrest]. constructor.
    + intros Hnone. unfold turn_ok in Hid; simpl in Hid.
      rewrite (Hbody id w Hnone) in Hid. discriminate.
    + apply (IH _ Hrest).
Qed.

Lemma services_keys_registered : Forall registered services_keys.
Proof. repeat constructor; discriminate. Qed.

Lemma copy_config_files_registered (service_ids : option (list string)) (w : W) :
  value (copy_config_files os service_ids w) = true ->
  Forall registered (ids_or_all service_ids).
Proof.
  destruct service_ids as [ids|]; [|intros _; apply services_keys_registered].
  unfold copy_config_files, ids_or_all. run.
  destruct (os_exists os (configs_dir os) w); cbn [negb]; run; [|discriminate].
  match goal with
  | |- context [if negb ?c then _ else _] => destruct c; cbn [negb]
  end; run; [|discriminate].
  rewrite for_each_value. cbn [andb]. apply unknown_turn_fails.
  intros id w' Hnone. unfold copy_config_one. rewrite Hnone. run. reflexivity.
Qed.

Lemma deploy_stages_registered (skip_build : bool)
    (service_ids : option (list string)) (w : W) :
  value (deploy_stages os skip_build service_ids w) = true ->
  Forall registered (ids_or_all service_ids).
Proof.
  unfold deploy_stages. run. rewrite ?if_log_final.
  destruct (value (stop_all_services os service_ids w)); cbn [negb]; run;
    [|discriminate].
  match goal with
  | |- context [if negb (value ?b) then _ else _] =>
      destruct (value b); cbn [negb]
  end; run; [|discriminate].
  match goal with
  | |- context [if negb (value (copy_config_files os service_ids ?w0)) then _ else _] =>
      pose proof (copy_config_files_registered service_ids w0) as Hreg;
      destruct (value (copy_config_files os service_ids w0)); cbn [negb]
  end; run; [|discriminate].
  intros _. apply Hreg. reflexivity.
Qed.

Lemma report_status_ok (status : list (string * bool)) (ids : list string) (w : W) :
  Forall registered ids ->
  value (report_status status ids w) = Ok tt.
Proof.
  intros Hreg. revert w; induction Hreg as [|id ids Hid _ IH]; intros w; simpl.
  - reflexivity.
  - unfold registered in Hid.
    destruct (services_get id) as [config|]; [|contradiction].
    destruct (lookup id status); run; apply IH.
Qed.

(** C3 -- A health timeout is only a warning: when the five stages of
    [deploy_all] before the health wait all succeed and the health wait
    then returns [false], [deploy_all] still returns [True], having logged
    the warning. *)
Theorem health_timeout_is_warning (skip_build : bool)
    (service_ids : option (list string)) (w : W) :
  value (deploy_stages os skip_build service_ids w) = true ->
  value (wait_for_services os service_ids 30
           (final (deploy_stages os skip_build service_ids w))) = false ->
  value (deploy_all os skip_build service_ids w) = Ok true
  /\ In (EvLog WARNING MsgMaybeNotHealthy)
        (events (deploy_all os skip_build service_ids w)).
Proof.
  intros Hstages Hwait.
  pose proof (deploy_stages_registered skip_build service_ids w Hstages) as Hreg.
  rewrite deploy_all_split. run. rewrite Hstages.
  unfold deploy_report. run. rewrite Hwait. cbn [negb]. run.
  split.
  - match goal with
    | |- context [report_status ?st ?ids ?w0] =>
        rewrite (report_status_ok st ids w0 Hreg)
    end.
    reflexivity.
  - apply in_or_app. right. apply in_or_app. right. left. reflexivity.
Qed.

End Deployment.

(** A quick deployment of the gateway on a host whose health endpoints
    never answer: every stage succeeds, the wait times out, the deployment
    is reported as successful. *)
Lemma health_timeout_is_warning_witness :
  value (deploy_all Host.os true (Some ["api-gateway"]) Host.never_healthy) = Ok true
  /\ In (EvLog WARNING MsgMaybeNotHealthy)
        (events (deploy_all Host.os true (Some ["api-gateway"]) Host.never_healthy)).
Proof.
  apply (health_timeout_is_warning Host.os true (Some ["api-gateway"])
           Host.never_healthy); vm_compute; reflexivity.
Defined.

(** * Staging executables *)

Section StagingExecutables.

Context {W : Type} (os : OS W).

Lemma copy_service_one_spec (service_id : string) (config : ServiceConfig) (w : W) :
  services_get service_id = Some config ->
  let source_path := target_dir os ++ [exe config] in
  let dest_path := service_dir ++ [exe config] in
  let copied := os_copy2 os source_path dest_path w in
  value (copy_service_one os service_id w)
  = os_exists os source_path w
    && match fst copied, os_stat_size os dest_path (snd copied) with
       | Ok _, Ok _ => true
       | _, _ => false
       end.
Proof.
  intros E. unfold copy_service_one. rewrite E. run.
  destruct (os_exists os (target_dir os ++ [exe config]) w); run; [|reflexivity].
  destruct (os_copy2 os (target_dir os ++ [exe config]) (service_dir ++ [exe config]) w)
    as [[[]|e] w1]; cbn [fst snd andb]; run; [|reflexivity].
  destruct (os_stat_size os (service_dir ++ [exe config]) w1); run; reflexivity.
Qed.

Lemma copy_services_value (ids : list string) (w : W) :
  value (copy_services os (Some ids) w)
  = os_exists os (target_dir os) w && os_exists os service_dir w
    && forallb (turn_ok (copy_service_one os)) (iterations (copy_service_one os) ids w).
Proof.
  unfold copy_services, ids_or_all. run.
  destruct (os_exists os (target_dir os) w); cbn [negb andb]; run; [|reflexivity].
  destruct (os_exists os service_dir w); cbn [negb andb]; run; [|reflexivity].
  now rewrite for_each_value.
Qed.

(** C1, as amended -- [copy_services] checks that the destination is there
    after the copy, not that it is non-empty.  If, at the turn of a
    requested service, reading the size of the destination after the copy
    raises (the file is absent), that service is marked failed and
    [copy_services] returns [False].  If the copy did not raise and the size
    can be read, the service is reported as copied with that size, whatever
    it is, zero included. *)
Theorem copy_services_requires_destination (ids : list string) (w : W)
    (service_id : string) (config : ServiceConfig) (turn : W) (e : exn) :
  services_get service_id = Some config ->
  In (service_id, turn) (iterations (copy_service_one os) ids w) ->
  let source_path := target_dir os ++ [exe config] in
  let dest_path := service_dir ++ [exe config] in
  (os_stat_size os dest_path (snd (os_copy2 os source_path dest_path turn)) = Raise e ->
   value (copy_service_one os service_id turn) = false
   /\ value (copy_services os (Some ids) w) = false)
  /\ (forall size,
        os_exists os source_path turn = true ->
        fst (os_copy2 os source_path dest_path turn) = Ok tt ->
        os_stat_size os dest_path (snd (os_copy2 os source_path dest_path turn))
          = Ok size ->
        value (copy_service_one os service_id turn) = true
        /\ In (EvLog INFO (MsgCopied (name config) size))
              (events (copy_service_one os service_id turn))).
Proof.
  intros E Hin source_path dest_path. split.
  - intros Hstat.
    assert (Hturn : value (copy_service_one os service_id turn) = false).
    { rewrite (copy_service_one_spec service_id config turn E).
      fold source_path dest_path. rewrite Hstat.
      destruct (fst (os_copy2 os source_path dest_path turn));
        apply andb_false_r. }
    split; [exact Hturn|].
    rewrite copy_services_value.
    replace (forallb _ _) with false; [apply andb_false_r|].
    symmetry. apply not_true_is_false. intros Hall.
    rewrite forallb_forall in Hall. specialize (Hall _ Hin).
    unfold turn_ok in Hall; simpl in Hall. congruence.
  - intros size Hsrc Hcopy Hstat.
    unfold copy_service_one. rewrite E. run.
    fold source_path dest_path. rewrite Hsrc. run. rewrite Hcopy. run.
    rewrite Hstat. run. split; [reflexivity|].
    simpl. auto.
Qed.

End StagingExecutables.

(** The copy does not raise but the destination is gone when its size is
    read: the service is failed and [copy_services] returns [False]. *)
Lemma copy_services_requires_destination_witness :
  fst (os_copy2 Host.os (target_dir Host.os ++ ["api-gateway.exe"])
         (service_dir ++ ["api-gateway.exe"]) Host.gateway_quarantined) = Ok tt
  /\ value (copy_services Host.os (Some ["api-gateway"]) Host.gateway_quarantined)
     = false.
Proof.
  split; [vm_compute; reflexivity|].
  refine (proj2 (proj1
    (copy_services_requires_destination Host.os ["api-gateway"]
       Host.gateway_quarantined "api-gateway"
       {| exe := "api-gateway.exe"; port := 8080; name := "API Gateway" |}
       Host.gateway_quarantined OtherError eq_refl _) _)).
  - left. reflexivity.
  - vm_compute. reflexivity.
Defined.

(** C1, as stated, fails: the build output holds a zero-byte gateway
    executable; the copy does not raise, the destination has size zero, and
    [copy_services] reports the service as copied and returns [True]. *)
Lemma copy_services_accepts_empty_destination :
  let run := copy_services Host.os (Some ["api-gateway"]) Host.empty_artifact in
  value run = true
  /\ In (EvLog INFO (MsgCopied "API Gateway" 0)) (events run)
  /\ os_stat_size Host.os (service_dir ++ ["api-gateway.exe"]) (final run) = Ok 0.
Proof. vm_compute. repeat split; auto. Qed.

(** * What each operation touches *)

Section Touches.

Context {W : Type} (os : OS W).

Ltac side := split; [simpl; eauto 10 | simpl; tauto].

Lemma registered_port (service_id : string) (config : ServiceConfig) :
  services_get service_id = Some config -> In (port config) registered_ports.
Proof.
  unfold services_get, services, registered_ports. simpl.
  repeat match goal with
  | |- context [String.eqb service_id ?s] => destruct (String.eqb service_id s)
  end; intros E; inversion E; subst; simpl; auto 10.
Qed.

Lemma find_process_by_port_within (S : list string) (stages : list Stage) (port : Z) :
  In StLog stages -> emits (within os S stages) (find_process_by_port os port).
Proof.
  intros Hlog. unfold find_process_by_port. emits_steps; split; simpl; auto.
Qed.

Lemma find_process_by_name_within (S : list string) (stages : list Stage)
    (exe_name : string) :
  In StLog stages -> emits (within os S stages) (find_process_by_name os exe_name).
Proof.
  intros Hlog. unfold find_process_by_name. emits_steps; split; simpl; auto.
Qed.

Lemma stop_service_by_port_within (S : list string) (id : string)
    (config : ServiceConfig) :
  In id S -> services_get id = Some config ->
  emits (within os S [StLog; StStop])
    (stop_service_by_port os (port config) (name config)).
Proof.
  intros Hin E. unfold stop_service_by_port, terminate, wait, kill.
  apply emits_bind; [apply find_process_by_port_within; simpl; auto|].
  intros process. emits_steps; side.
Qed.

Lemma stop_service_by_name_within (S : list string) (id : string)
    (config : ServiceConfig) :
  In id S -> services_get id = Some config ->
  emits (within os S [StLog; StStop])
    (stop_service_by_name os (exe config) (name config)).
Proof.
  intros Hin E. unfold stop_service_by_name.
  apply emits_bind; [apply find_process_by_name_within; simpl; auto|].
  intros processes. destruct processes as [|pid processes].
  - emits_steps; side.
  - apply emits_for_each. intros p _.
    unfold stop_one_by_name, terminate, wait, kill. emits_steps; side.
Qed.

Lemma stop_all_services_within (service_ids : option (list string)) :
  emits (within os (ids_or_all service_ids) [StLog; StStop; StSleep])
    (stop_all_services os service_ids).
Proof.
  unfold stop_all_services.
  apply emits_bind; [destruct (truthy service_ids); emits_steps; side|]. intros _.
  apply emits_bind.
  { apply emits_for_each. intros id Hin.
    destruct (services_get id) as [config|] eqn:E; [|apply emits_ret].
    eapply emits_weaken; [|apply (stop_service_by_port_within _ id config Hin E)].
    intros e [Hs Hst]. split; [exact Hs|simpl in *; tauto]. }
  intros by_port. apply emits_bind.
  { apply emits_for_each. intros id Hin.
    destruct (services_get id) as [config|] eqn:E; [|apply emits_ret].
    eapply emits_weaken; [|apply (stop_service_by_name_within _ id config Hin E)].
    intros e [Hs Hst]. split; [exact Hs|simpl in *; tauto]. }
  intros by_name. emits_steps; side.
Qed.

Lemma build_services_within (service_ids : option (list string)) :
  emits (within os (ids_or_all service_ids) [StLog; StBuild])
    (build_services os service_ids).
Proof.
  unfold build_services. emits_steps; try side.
  apply emits_for_each. intros id Hin. unfold build_one.
  destruct (services_get id) as [config|] eqn:E; emits_steps; side.
Qed.

Lemma copy_config_files_within (service_ids : option (list string)) :
  emits (within os (ids_or_all service_ids) [StLog; StConfig])
    (copy_config_files os service_ids).
Proof.
  unfold copy_config_files. emits_steps; try side.
  apply emits_for_each. intros id Hin. unfold copy_config_one.
  destruct (services_get id) as [config|] eqn:E; emits_steps; side.
Qed.

Lemma copy_services_within (service_ids : option (list string)) :
  emits (within os (ids_or_all service_ids) [StLog; StCopy])
    (copy_services os service_ids).
Proof.
  unfold copy_services. emits_steps; try side.
  apply emits_for_each. intros id Hin. unfold copy_service_one.
  destruct (services_get id) as [config|] eqn:E; emits_steps; side.
Qed.

Lemma start_service_within (S : list string) (service_id : string) :
  In service_id S ->
  emits (within os S [StLog; StStart; StSleep]) (start_service os service_id).
Proof.
  intros Hin. unfold start_service.
  destruct (services_get service_id) as [config|] eqn:E; emits_steps; side.
Qed.

Lemma start_loop_within (S : list string) (start_order : list string) :
  incl start_order S ->
  emits (within os S [StLog; StStart; StSleep]) (start_loop os start_order).
Proof.
  induction start_order as [|id rest IH]; intros Hincl; simpl.
  - apply emits_ret.
  - apply emits_bind.
    + apply start_service_within. apply Hincl. now left.
    + intros [|]; [|apply emits_ret].
      apply emits_bind; [apply emits_sleep; side|]. intros _.
      apply IH. intros x Hx. apply Hincl. now right.
Qed.

Lemma start_all_services_within (service_ids : option (list string)) :
  emits (within os (ids_or_all service_ids) [StLog; StStart; StSleep])
    (start_all_services os service_ids).
Proof.
  unfold start_all_services.
  apply emits_bind; [destruct (truthy service_ids); emits_steps; side|]. intros _.
  apply start_loop_within. destruct service_ids as [ids|]; simpl.
  - apply incl_refl.
  - intros x Hx. simpl in Hx. unfold services_keys. simpl.
    intuition (subst; auto).
Qed.

Lemma check_service_health_within (S : list string) (service_id : string) :
  emits (within os S [StLog; StHealth; StSleep]) (check_service_health os service_id).
Proof.
  unfold check_service_health.
  destruct (services_get service_id) as [config|] eqn:E; emits_steps.
  split; [apply (registered_port _ _ E)|simpl; tauto].
Qed.

Lemma status_of_within (S : list string) (ids : list string) :
  emits (within os S [StLog; StHealth; StSleep]) (status_of os ids).
Proof.
  induction ids as [|id ids IH]; simpl.
  - apply emits_ret.
  - apply emits_bind; [apply check_service_health_within|]. intros healthy.
    apply emits_bind; [exact IH|]. intros status. apply emits_ret.
Qed.

Lemma wait_loop_within (S : list string) (fuel : nat)
    (service_ids : option (list string)) (timeout start_time : Z) :
  emits (within os S [StLog; StHealth; StSleep])
    (wait_loop os fuel service_ids timeout start_time).
Proof.
  induction fuel as [|fuel IH]; simpl.
  - apply emits_ret.
  - apply emits_bind; [apply emits_query|]. intros now.
    destruct (now - start_time <? timeout); [|emits_steps; side].
    apply emits_bind; [apply status_of_within|]. intros status.
    match goal with
    | |- emits _ (if ?c then _ else _) => destruct c
    end; [emits_steps; side|].
    apply emits_bind; [apply emits_log; side|]. intros _.
    apply emits_bind; [apply emits_sleep; side|]. intros _. exact IH.
Qed.

Lemma wait_for_services_within (S : list string)
    (service_ids : option (list string)) (timeout : Z) :
  emits (within os S [StLog; StHealth; StSleep])
    (wait_for_services os service_ids timeout).
Proof.
  unfold wait_for_services.
  apply emits_bind; [destruct (truthy service_ids); emits_steps; side|]. intros _.
  apply emits_bind; [apply emits_query|]. intros start_time.
  apply emits_bind; [apply wait_loop_within|]. intros r. apply emits_ret.
Qed.

Lemma report_status_within (S : list string) (status : list (string * bool))
    (ids : list string) :
  emits (W := W) (within os S [StLog]) (report_status status ids).
Proof.
  induction ids as [|id ids IH]; simpl.
  - apply emits_ret.
  - destruct (lookup id status); destruct (services_get id);
      emits_steps; try side; exact IH.
Qed.

Lemma within_more (S : list string) (stages stages' : list Stage) (e : Event) :
  incl stages stages' -> within os S stages e -> within os S stages' e.
Proof. intros Hincl [Hs Hst]. split; [exact Hs|apply Hincl, Hst]. Qed.

Lemma deploy_stages_within (skip_build : bool) (service_ids : option (list string)) :
  emits (within os (ids_or_all service_ids)
           [StLog; StStop; StSleep; StBuild; StConfig; StCopy; StStart])
    (deploy_stages os skip_build service_ids).
Proof.
  unfold deploy_stages.
  apply emits_bind; [destruct (truthy service_ids); emits_steps; side|]. intros _.
  apply emits_bind; [apply emits_log; side|]. intros _.
  apply emits_bind.
  { eapply emits_weaken; [|apply stop_all_services_within].
    intros e. apply within_more. intros s; simpl; tauto. }
  intros [|]; cbn [negb]; [|emits_steps; side].
  apply emits_bind; [apply emits_log; side|]. intros _.
  apply emits_bind; [apply emits_sleep; side|]. intros _.
  apply emits_bind.
  { destruct skip_build; cbn [negb]; [emits_steps; side|].
    apply emits_bind; [apply emits_log; side|]. intros _.
    eapply emits_weaken; [|apply build_services_within].
    intros e. apply within_more. intros s; simpl; tauto. }
  intros [|]; cbn [negb]; [|emits_steps; side].
  apply emits_bind; [apply emits_log; side|]. intros _.
  apply emits_bind.
  { eapply emits_weaken; [|apply copy_config_files_within].
    intros e. apply within_more. intros s; simpl; tauto. }
  intros [|]; cbn [negb]; [|emits_steps; side].
  apply emits_bind; [apply emits_log; side|]. intros _.
  apply emits_bind.
  { eapply emits_weaken; [|apply copy_services_within].
    intros e. apply within_more. intros s; simpl; tauto. }
  intros [|]; cbn [negb]; [|emits_steps; side].
  apply emits_bind; [apply emits_log; side|]. intros _.
  apply emits_bind.
  { eapply emits_weaken; [|apply start_all_services_within].
    intros e. apply within_more. intros s; simpl; tauto. }
  intros [|]; cbn [negb]; emits_steps; side.
Qed.

Lemma deploy_report_within (start_time : Z) (service_ids : option (list string)) :
  emits (within os (ids_or_all service_ids) [StLog; StHealth; StSleep])
    (deploy_report os start_time service_ids).
Proof.
  unfold deploy_report.
  apply emits_bind; [apply wait_for_services_within|]. intros healthy.
  apply emits_bind; [destruct healthy; cbn [negb]; emits_steps; side|]. intros _.
  apply emits_bind; [apply emits_query|]. intros end_time.
  apply emits_bind; [apply emits_log; side|]. intros _.
  apply emits_bind; [apply emits_log; side|]. intros _.
  apply emits_bind; [apply emits_log; side|]. intros _.
  apply emits_bind; [apply status_of_within|]. intros status.
  apply emits_bind.
  { eapply emits_weaken; [|apply report_status_within].
    intros e. apply within_more. intros s; simpl; tauto. }
  intros [|]; apply emits_ret.
Qed.

End Touches.

(** * Building *)

Section Building.

Context {W : Type} (os : OS W).

Lemma build_outcomes_app (d1 d2 : list Event) :
  build_outcomes (d1 ++ d2) = build_outcomes d1 ++ build_outcomes d2.
Proof.
  induction d1 as [|e d1 IH]; simpl; [reflexivity|].
  destruct e; simpl; rewrite ?IH; reflexivity.
Qed.

Lemma build_one_spec (service_id : string) (w : W) :
  build_outcomes (events (build_one os service_id w))
  = (if is_registered service_id
     then [(service_id, fst (os_cargo_build os service_id 300 w))]
     else [])
  /\ value (build_one os service_id w)
     = is_registered service_id
       && exited_zero (fst (os_cargo_build os service_id 300 w)).
Proof.
  unfold build_one, is_registered.
  destruct (services_get service_id) as [config|]; run; [|split; reflexivity].
  destruct (os_cargo_build os service_id 300 w) as [[completed|e] w1];
    cbn [fst snd]; run.
  - unfold exited_zero. destruct (returncode completed =? 0); run; split; reflexivity.
  - destruct e; run; split; reflexivity.
Qed.

Lemma build_loop_spec (ids : list string) (w : W) :
  map fst (build_outcomes (events (for_each (build_one os) ids true w)))
  = filter is_registered ids
  /\ (value (for_each (build_one os) ids true w) = true
      <-> Forall registered ids
          /\ Forall (fun o => exited_zero (snd o) = true)
               (build_outcomes (events (for_each (build_one os) ids true w)))).
Proof.
  rewrite for_each_value, for_each_events. cbn [andb].
  revert w; induction ids as [|id ids IH]; intros w; simpl.
  - repeat split; constructor.
  - destruct (IH (final (build_one os id w))) as [IHo IHv].
    destruct (build_one_spec id w) as [Ho Hv].
    change (turn_events (build_one os) (id, w)) with (events (build_one os id w)).
    change (turn_ok (build_one os) (id, w)) with (value (build_one os id w)).
    rewrite !build_outcomes_app, map_app, IHo, Ho, Hv.
    unfold registered, is_registered in *.
    destruct (services_get id) as [config|] eqn:E; cbn [andb map app fst snd].
    + split; [reflexivity|]. rewrite andb_true_iff, IHv. split.
      * intros [Hz [Hreg Hall]]. split.
        -- constructor; [congruence|exact Hreg].
        -- constructor; [exact Hz|exact Hall].
      * intros [Hreg Hall]. inversion Hreg; subst. inversion Hall; subst. auto.
    + split; [reflexivity|]. split; [discriminate|].
      intros [Hreg _]. inversion Hreg; subst. congruence.
Qed.

Lemma stage_not_after_build (S : list string) (stages : list Stage) (d : list Event) :
  forallb (fun s => negb (after_build s)) stages = true ->
  Forall (within os S stages) d ->
  Forall (fun e => after_build (stage_of e) = false) d.
Proof.
  intros Hst Hd. eapply Forall_impl; [|exact Hd].
  intros e [_ Hin]. rewrite forallb_forall in Hst.
  specialize (Hst _ Hin). now apply negb_true_iff in Hst.
Qed.

(** C6, as amended -- Best-effort builds behind the target-directory
    guard.  When the build output directory exists, [build_services] runs
    the build command of every registered id of the list, in order and
    whatever the earlier outcomes, and returns [True] exactly when every
    requested id is registered and every command that ran exited with
    status zero.  When the directory is missing it returns [False] without
    running any command.  In [deploy_all], once the stop stage has
    succeeded, a failed build stage makes the deployment return [False]
    with no staging, launch or health call in the run. *)
Theorem build_best_effort_behind_guard (ids : list string) (w : W) :
  (os_exists os (target_dir os) w = true ->
   map fst (build_outcomes (events (build_services os (Some ids) w)))
     = filter is_registered ids
   /\ (value (build_services os (Some ids) w) = true
       <-> Forall registered ids
           /\ Forall (fun o => exited_zero (snd o) = true)
                (build_outcomes (events (build_services os (Some ids) w)))))
  /\ (os_exists os (target_dir os) w = false ->
      value (build_services os (Some ids) w) = false
      /\ build_outcomes (events (build_services os (Some ids) w)) = [])
  /\ (forall service_ids w0,
        value (stop_all_services os service_ids w0) = true ->
        value (build_services os service_ids
                 (os_sleep os 3 (final (stop_all_services os service_ids w0))))
          = false ->
        value (deploy_all os false service_ids w0) = Ok false
        /\ Forall (fun e => after_build (stage_of e) = false)
             (events (deploy_all os false service_ids w0))).
Proof.
  split; [|split].
  - intros Hdir.
    assert (Hev : events (build_services os (Some ids) w)
                  = EvLog INFO MsgBuildingAll
                    :: events (for_each (build_one os) ids true w)).
    { unfold build_services, ids_or_all. run. rewrite Hdir. cbn [negb]. run.
      reflexivity. }
    assert (Hval : value (build_services os (Some ids) w)
                   = value (for_each (build_one os) ids true w)).
    { unfold build_services, ids_or_all. run. rewrite Hdir. cbn [negb]. run.
      reflexivity. }
    rewrite Hev, Hval. cbn [build_outcomes]. apply build_loop_spec.
  - intros Hdir. unfold build_services. run. rewrite Hdir. cbn [negb]. run.
    split; reflexivity.
  - intros service_ids w0 Hstop Hbuild.
    rewrite deploy_all_split. unfold deploy_stages. run.
    rewrite !if_log_final, !if_log_events, Hstop. cbn [negb]. run.
    rewrite Hbuild. cbn [negb]. run. split; [reflexivity|].
    pose proof (stop_all_services_within os service_ids w0) as Hst.
    pose proof (build_services_within os service_ids
                  (os_sleep os 3 (final (stop_all_services os service_ids w0))))
      as Hbd.
    apply stage_not_after_build in Hst; [|reflexivity].
    apply stage_not_after_build in Hbd; [|reflexivity].
    repeat (apply Forall_app; split); try assumption;
      try (destruct (truthy service_ids)); repeat constructor.
Qed.

End Building.

(** On an installed host the gateway builds (exit status 0) after an
    unknown id was rejected, and the result is [False] because of the
    unknown id alone. *)
Lemma build_best_effort_behind_guard_witness :
  map fst (build_outcomes
             (events (build_services Host.os (Some ["bogus"; "api-gateway"])
                        Host.installed)))
  = ["api-gateway"]
  /\ value (build_services Host.os (Some ["api-gateway"]) Host.installed) = true.
Proof.
  split.
  - apply (build_best_effort_behind_guard Host.os ["bogus"; "api-gateway"]
             Host.installed). vm_compute. reflexivity.
  - apply (build_best_effort_behind_guard Host.os ["api-gateway"] Host.installed).
    + vm_compute. reflexivity.
    + split.
      * repeat constructor. discriminate.
      * vm_compute. repeat constructor.
Defined.

(** C6, as stated, fails on a fresh checkout: the build output directory is
    not there yet, so [build_services] returns [False] -- for the empty
    list, and for the gateway, whose build command would exit with status
    zero but is never run. *)
Lemma build_refused_without_target_dir :
  value (build_services Host.os (Some []) Host.fresh_checkout) = false
  /\ value (build_services Host.os (Some ["api-gateway"]) Host.fresh_checkout) = false
  /\ build_outcomes
       (events (build_services Host.os (Some ["api-gateway"]) Host.fresh_checkout))
     = []
  /\ exited_zero (fst (os_cargo_build Host.os "api-gateway" 300 Host.fresh_checkout))
     = true.
Proof. vm_compute. repeat split. Qed.

(** * Scope of a run over a subset *)

Section SubsetScope.

Context {W : Type} (os : OS W).

Lemma launches_scoped (S : list string) (d : list Event) :
  Forall (fun e => match e with
                   | EvPopen id _ _ _ => In id S
                   | _ => True
                   end) d ->
  incl (launches d) S.
Proof.
  induction 1 as [|e d He _ IH]; simpl.
  - intros x [].
  - destruct e; try exact IH.
    intros x [<-|Hx]; [exact He|apply IH, Hx].
Qed.

Lemma within_launch (S S' : list string) (stages : list Stage) (e : Event) :
  (In StStart stages -> incl S S') ->
  within os S stages e ->
  match e with
  | EvPopen id _ _ _ => In id S'
  | _ => True
  end.
Proof.
  intros Hs [Hscoped Hstage]. destruct e; try exact I.
  simpl in *. apply Hs; tauto.
Qed.

Lemma restart_all_launches (ids : list string) :
  emits (fun e => match e with
                  | EvPopen id _ _ _ => In id ids
                  | _ => True
                  end) (restart_all os (Some ids)).
Proof.
  unfold restart_all.
  apply emits_bind; [destruct (truthy (Some ids)); emits_steps; exact I|]. intros _.
  apply emits_bind.
  { eapply emits_weaken; [|apply (stop_all_services_within os None)].
    intros e. apply within_launch. simpl. intros [H|[H|[H|[]]]]; discriminate. }
  intros [|]; cbn [negb]; [|emits_steps; exact I].
  apply emits_bind; [apply emits_log; exact I|]. intros _.
  apply emits_bind; [apply emits_sleep; exact I|]. intros _.
  apply emits_bind.
  { eapply emits_weaken; [|apply (start_all_services_within os (Some ids))].
    intros e. apply within_launch. intros _. apply incl_refl. }
  intros [|]; cbn [negb]; [|emits_steps; exact I].
  apply emits_bind.
  { eapply emits_weaken; [|apply (wait_for_services_within os ids (Some ids) 30)].
    intros e. apply within_launch. simpl. intros [H|[H|[H|[]]]]; discriminate. }
  intros [|]; cbn [negb]; emits_steps; exact I.
Qed.

Lemma poll_round_in (ports : list Z) (d : list Event) :
  poll_round ports d ->
  forall p, In p ports -> exists r, In (EvHttpGet p 5 r) d.
Proof.
  induction 1 as [|q r ports d _ IH]; intros p Hp.
  - destruct Hp.
  - destruct Hp as [<-|Hp].
    + exists r. now left.
    + destruct (IH p Hp) as [r' Hr']. exists r'. now right.
Qed.

Lemma wait_for_services_polls_all (service_ids : option (list string)) (w : W)
    (p : Z) :
  In p registered_ports ->
  exists r, In (EvHttpGet p 5 r) (events (wait_for_services os service_ids 30 w)).
Proof.
  intros Hp.
  destruct (poll_round_in _ _ (get_service_status_round os w) p Hp) as [r Hr].
  exists r. unfold wait_for_services. run. rewrite if_log_final.
  apply in_or_app. right.
  change (wait_fuel 30) with (S 30). generalize 30%nat. intros fuel.
  cbn [wait_loop]. run.
  replace (os_time os w - os_time os w) with 0 by lia.
  cbn [Z.ltb Z.compare]. run.
  rewrite !in_app_iff. tauto.
Qed.

(** C2, as amended -- Scope of a run over an explicit subset.  In
    [deploy_all] every terminate or kill call is made for a registered
    service of the subset, every build and every launch is of an id of the
    subset, and every staging call copies the files of a service of the
    subset; [restart_all] launches only ids of the subset.  The health wait
    is not scoped: each of its polls sends a request to the port of every
    registered service, and only the count is restricted to the subset. *)
Theorem subset_scope (ids : list string) (skip_build : bool) (w : W) :
  Forall (scoped os ids) (events (deploy_all os skip_build (Some ids) w))
  /\ incl (launches (events (restart_all os (Some ids) w))) ids
  /\ (forall p, In p registered_ports ->
      exists r,
        In (EvHttpGet p 5 r) (events (wait_for_services os (Some ids) 30 w))).
Proof.
  split; [|split].
  - rewrite deploy_all_split, events_bind. apply Forall_app. split.
    + eapply Forall_impl; [|apply (deploy_stages_within os skip_build (Some ids))].
      intros e [He _]. exact He.
    + destruct (value (deploy_stages os skip_build (Some ids) w)).
      * eapply Forall_impl; [|apply (deploy_report_within os _ (Some ids))].
        intros e [He _]. exact He.
      * constructor.
  - apply launches_scoped, restart_all_launches.
  - intros p Hp. apply wait_for_services_polls_all, Hp.
Qed.

End SubsetScope.

(** C2, as stated, fails: a quick deployment of the gateway alone sends
    health requests to the port of user management, which is registered
    but not in the subset. *)
Lemma subset_scope_health_counterexample :
  let subset := ["api-gateway"] in
  ~ In "user-management" subset
  /\ option_map port (services_get "user-management") = Some 8082
  /\ value (deploy_all Host.os true (Some subset) Host.installed) = Ok true
  /\ In (EvHttpGet 8082 5 (Raise OtherError))
        (events (deploy_all Host.os true (Some subset) Host.installed)).
Proof.
  cbv zeta. split; [|split; [|split]].
  - intros [H|[]]. discriminate.
  - reflexivity.
  - vm_compute. reflexivity.
  - vm_compute. auto 40.
Qed.

(** [restart_all] calls [stop_all_services()] without the subset: a restart
    of the gateway alone terminates user management. *)
Lemma restart_all_stops_every_service :
  In (EvTerminate "User Management" 4200 (Ok tt))
     (events (restart_all Host.os (Some ["api-gateway"]) Host.user_management_up)).
Proof. vm_compute. auto 40. Qed.

(** * Staging configuration *)

Section StagingConfiguration.

Context {W : Type} (os : OS W).

Lemma copy_config_files_guarded (service_ids : option (list string)) (w : W) :
  config_guards os w = true ->
  value (copy_config_files os service_ids w)
    = value (for_each (copy_config_one os) (ids_or_all service_ids) true
               (config_loop_start os w))
  /\ exists header,
       Forall (fun e => stage_of e = StLog \/ exists r, e = EvMkdir target_configs_dir r)
              header
       /\ events (copy_config_files os service_ids w)
          = header ++ events (for_each (copy_config_one os) (ids_or_all service_ids)
                                true (config_loop_start os w)).
Proof.
  unfold config_guards, config_loop_start, copy_config_files. intros Hg.
  apply andb_prop in Hg as [Hsrc Hdst]. run. rewrite Hsrc. cbn [negb]. run.
  destruct (os_exists os target_configs_dir w); cbn [negb orb] in *; run.
  - split; [reflexivity|]. exists [EvLog INFO MsgCopyingConfigs].
    split; [|reflexivity]. constructor; [left; reflexivity|constructor].
  - destruct (os_mkdir os target_configs_dir w) as [[[]|e] w1]; cbn [fst snd] in *;
      [|discriminate].
    run. split; [reflexivity|].
    exists [EvLog INFO MsgCopyingConfigs; EvMkdir target_configs_dir (Ok tt);
            EvLog INFO (MsgCreatedConfigsDir target_configs_dir)].
    split; [|reflexivity].
    constructor; [left; reflexivity|].
    constructor; [right; eexists; reflexivity|].
    constructor; [left; reflexivity|constructor].
Qed.

Lemma copy_config_files_unguarded (service_ids : option (list string)) (w : W) :
  config_guards os w = false ->
  value (copy_config_files os service_ids w) = false
  /\ Forall before_loop (events (copy_config_files os service_ids w)).
Proof.
  unfold config_guards, copy_config_files. intros Hg. run.
  destruct (os_exists os (configs_dir os) w); cbn [negb andb] in *; run.
  - destruct (os_exists os target_configs_dir w); cbn [negb orb] in *;
      [discriminate|]. run.
    destruct (os_mkdir os target_configs_dir w) as [[[]|e] w1]; cbn [fst snd] in *;
      [discriminate|].
    run. split; [reflexivity|]. repeat constructor.
  - split; [reflexivity|]. repeat constructor.
Qed.

Ltac absent_event :=
  let H := fresh in
  intros H; simpl in H;
  repeat (destruct H as [H|H]; [discriminate|]); contradiction.

Lemma copy_config_one_spec (service_id : string) (config : ServiceConfig)
    (turn : W) :
  services_get service_id = Some config ->
  let src := source_config_dir os service_id in
  let dst := target_service_config_dir service_id in
  let run := copy_config_one os service_id turn in
  (os_exists os src turn = true ->
   (os_exists os dst turn = true ->
    calls (events run)
    = EvRmtree dst (fst (os_rmtree os dst turn))
      :: match fst (os_rmtree os dst turn) with
         | Ok _ =>
             [EvCopytree src dst
                (fst (os_copytree os src dst (snd (os_rmtree os dst turn))))]
         | Raise _ => []
         end)
   /\ (os_exists os dst turn = false ->
       calls (events run) = [EvCopytree src dst (fst (os_copytree os src dst turn))])
   /\ (value run = true <-> In (EvCopytree src dst (Ok tt)) (events run)))
  /\ (os_exists os src turn = false ->
      run = (true, [EvLog WARNING (MsgNoConfigs (name config) src)], turn)).
Proof.
  intros E src dst run0. split.
  - intros Hsrc. subst run0. unfold copy_config_one. rewrite E. cbv zeta.
    fold src dst. run. rewrite Hsrc. run.
    destruct (os_exists os dst turn); run.
    + split; [|split; [discriminate|]].
      * intros _.
        destruct (os_rmtree os dst turn) as [[[]|e1] w1]; cbn [fst snd]; run;
          [|reflexivity].
        destruct (os_copytree os src dst w1) as [[[]|e2] w2]; cbn [fst snd]; run;
          reflexivity.
      * destruct (os_rmtree os dst turn) as [[[]|e1] w1]; cbn [fst snd]; run.
        -- destruct (os_copytree os src dst w1) as [[[]|e2] w2]; cbn [fst snd]; run;
             simpl; (split; [auto; discriminate|]); [auto|absent_event].
        -- simpl. split; [discriminate|absent_event].
    + split; [discriminate|split].
      * intros _.
        destruct (os_copytree os src dst turn) as [[[]|e2] w2]; cbn [fst snd]; run;
          reflexivity.
      * destruct (os_copytree os src dst turn) as [[[]|e2] w2]; cbn [fst snd]; run;
          simpl; (split; [auto; discriminate|]); [auto|absent_event].
  - intros Hsrc. subst run0. unfold copy_config_one. rewrite E. cbv zeta.
    fold src. apply run_ext; run; rewrite Hsrc; run; reflexivity.
Qed.

(** C9, as amended -- Replace or skip, behind the directory guards.  When
    the project's [services] directory exists and the deployment [configs]
    directory exists or can be created, the result of [copy_config_files]
    is the conjunction of the turns of the requested services, and at the
    turn of every requested registered service: if its configuration source
    exists and the target exists, the target is removed and, when the
    removal succeeded, the source is copied to the target's place, with no
    other call; if the target does not exist the source is copied and
    nothing else is called; the turn succeeds exactly when that copy
    succeeded; if the source does not exist the turn logs one warning,
    touches nothing and counts as a success.  When a guard fails the
    function returns [False] before its loop: no service is skipped with a
    warning, nothing is removed or copied. *)
Theorem copy_config_replaces_or_skips (ids : list string) (w : W) :
  (config_guards os w = true ->
   value (copy_config_files os (Some ids) w)
   = forallb (turn_ok (copy_config_one os))
       (iterations (copy_config_one os) ids (config_loop_start os w))
   /\ forall service_id config turn,
        services_get service_id = Some config ->
        In (service_id, turn)
           (iterations (copy_config_one os) ids (config_loop_start os w)) ->
        let src := source_config_dir os service_id in
        let dst := target_service_config_dir service_id in
        let run := copy_config_one os service_id turn in
        (os_exists os src turn = true ->
         (os_exists os dst turn = true ->
          calls (events run)
          = EvRmtree dst (fst (os_rmtree os dst turn))
            :: match fst (os_rmtree os dst turn) with
               | Ok _ =>
                   [EvCopytree src dst
                      (fst (os_copytree os src dst (snd (os_rmtree os dst turn))))]
               | Raise _ => []
               end)
         /\ (os_exists os dst turn = false ->
             calls (events run)
             = [EvCopytree src dst (fst (os_copytree os src dst turn))])
         /\ (value run = true <-> In (EvCopytree src dst (Ok tt)) (events run)))
        /\ (os_exists os src turn = false ->
            run = (true, [EvLog WARNING (MsgNoConfigs (name config) src)], turn)))
  /\ (config_guards os w = false ->
      value (copy_config_files os (Some ids) w) = false
      /\ Forall before_loop (events (copy_config_files os (Some ids) w))).
Proof.
  split.
  - intros Hg. split.
    + destruct (copy_config_files_guarded (Some ids) w Hg) as [-> _].
      unfold ids_or_all. now rewrite for_each_value.
    + intros service_id config turn E _.
      apply (copy_config_one_spec service_id config turn E).
  - apply copy_config_files_unguarded.
Qed.

End StagingConfiguration.

(** On the installed host the gateway's target tree is removed and the
    source tree copied in its place. *)
Lemma copy_config_replaces_or_skips_witness :
  calls (events (copy_config_one Host.os "api-gateway" Host.installed))
  = [ EvRmtree (target_service_config_dir "api-gateway") (Ok tt);
      EvCopytree (source_config_dir Host.os "api-gateway")
                 (target_service_config_dir "api-gateway") (Ok tt) ].
Proof.
  refine (proj1 (proj1
    (proj2 (proj1 (copy_config_replaces_or_skips Host.os ["api-gateway"]
                     Host.installed) eq_refl)
       "api-gateway"
       {| exe := "api-gateway.exe"; port := 8080; name := "API Gateway" |}
       Host.installed eq_refl _) eq_refl) eq_refl).
  left. reflexivity.
Defined.

(** The replacement is not a merge: the stale file of the old target tree
    is gone, the target holds the file of the source tree; user management,
    which ships no configuration, is skipped and the result is [True]. *)
Lemma copy_config_replace_is_not_merge :
  let run := copy_config_files Host.os (Some ["api-gateway"; "user-management"])
               Host.installed in
  value run = true
  /\ os_exists Host.os (target_service_config_dir "api-gateway" ++ ["stale.yaml"])
       (final run) = false
  /\ os_stat_size Host.os (target_service_config_dir "api-gateway" ++ ["api-gateway.yaml"])
       (final run) = Ok 120
  /\ In (EvLog WARNING (MsgNoConfigs "User Management"
                          (source_config_dir Host.os "user-management")))
        (events run).
Proof. vm_compute. repeat split; auto 20. Qed.

(** C9, as stated, fails on a checkout without the [services] directory:
    the gateway's configuration source does not exist, yet the service is
    not skipped with a warning and the result is [False]. *)
Lemma copy_config_fails_without_services_dir :
  let run := copy_config_files Host.os (Some ["api-gateway"]) Host.fresh_checkout in
  os_exists Host.os (source_config_dir Host.os "api-gateway") Host.fresh_checkout
    = false
  /\ value run = false
  /\ events run = [ EvLog INFO MsgCopyingConfigs;
                    EvLog ERROR (MsgSourceConfigsNotFound (configs_dir Host.os)) ].
Proof. vm_compute. repeat split. Qed.

(** * Unknown service ids *)

Section UnknownIds.

Context {W : Type} (os : OS W).

Lemma iterations_in {A : Type} (body : A -> M W bool) (l : list A) (w : W) (x : A) :
  In x l -> exists turn, In (x, turn) (iterations body l w).
Proof.
  revert w; induction l as [|y l IH]; intros w Hin; [destruct Hin|].
  destruct Hin as [->|Hin].
  - exists w. now left.
  - destruct (IH (final (body y w)) Hin) as [turn Ht]. exists turn. now right.
Qed.

Lemma loop_runs_every_turn {A : Type} (body : A -> M W bool) (l : list A)
    (w0 : W) (header : list Event) (success : bool) :
  every_turn_runs body l w0 (header ++ events (for_each body l success w0)).
Proof.
  intros x Hx. destruct (iterations_in body l w0 x Hx) as [turn Ht].
  exists turn. split; [exact Ht|].
  intros e He. apply in_or_app. right. rewrite for_each_events.
  apply in_flat_map. exists (x, turn). split; [exact Ht|exact He].
Qed.

Lemma unknown_in_loop (body : string -> M W bool) (ids : list string) (u : string)
    (w : W) :
  (forall w', body u w' = (false, [EvLog ERROR (MsgUnknownService u)], w')) ->
  In u ids ->
  value (for_each body ids true w) = false
  /\ In (EvLog ERROR (MsgUnknownService u)) (events (for_each body ids true w)).
Proof.
  intros Hbody Hin. destruct (iterations_in body ids w u Hin) as [turn Ht]. split.
  - apply (for_each_turn_fails body ids true w (u, turn) Ht).
    unfold turn_ok; simpl. now rewrite Hbody.
  - rewrite for_each_events. apply in_flat_map. exists (u, turn).
    split; [exact Ht|]. unfold turn_events; simpl. rewrite Hbody. now left.
Qed.

Lemma for_each_skip {A : Type} (body : A -> M W bool) (keep : A -> bool)
    (l : list A) (success : bool) (w : W) :
  (forall x w', keep x = false -> body x w' = (true, [], w')) ->
  for_each body l success w = for_each body (filter keep l) success w.
Proof.
  intros Hskip. revert success w; induction l as [|x l IH]; intros success w; simpl.
  - reflexivity.
  - destruct (keep x) eqn:K; simpl.
    + unfold bind. destruct (body x w) as [[ok d] w1]. now rewrite IH.
    + unfold bind. rewrite (Hskip x w K), andb_true_r, IH.
      destruct (for_each body (filter keep l) success w) as [[b d] w2]. reflexivity.
Qed.

Lemma stop_all_services_silent (service_ids : option (list string)) :
  emits silent_about_unknown (stop_all_services os service_ids).
Proof.
  unfold stop_all_services.
  apply emits_bind; [destruct (truthy service_ids); emits_steps; exact I|]. intros _.
  apply emits_bind.
  { apply emits_for_each. intros id _. destruct (services_get id) as [config|];
      [|apply emits_ret].
    unfold stop_service_by_port, find_process_by_port, terminate, wait, kill.
    emits_steps; exact I. }
  intros by_port. apply emits_bind.
  { apply emits_for_each. intros id _. destruct (services_get id) as [config|];
      [|apply emits_ret].
    unfold stop_service_by_name, find_process_by_name.
    apply emits_bind; [emits_steps; exact I|]. intros [|pid processes].
    - emits_steps; exact I.
    - apply emits_for_each. intros p _.
      unfold stop_one_by_name, terminate, wait, kill. emits_steps; exact I. }
  intros by_name. emits_steps; exact I.
Qed.

Lemma stop_all_services_skips (ids : list string) (w : W) :
  value (stop_all_services os (Some ids) w)
    = value (stop_all_services os (Some (filter is_registered ids)) w)
  /\ calls (events (stop_all_services os (Some ids) w))
     = calls (events (stop_all_services os (Some (filter is_registered ids)) w))
  /\ final (stop_all_services os (Some ids) w)
     = final (stop_all_services os (Some (filter is_registered ids)) w).
Proof.
  unfold stop_all_services, ids_or_all.
  set (by_port := fun service_id : string =>
         match services_get service_id with
         | Some config => stop_service_by_port os (port config) (name config)
         | None => ret true
         end).
  set (by_name := fun service_id : string =>
         match services_get service_id with
         | Some config => stop_service_by_name os (exe config) (name config)
         | None => ret true
         end).
  assert (Hskip1 : forall id (w' : W), is_registered id = false ->
            by_port id w' = (true, [], w')).
  { intros id w' H. unfold by_port, is_registered in *.
    destruct (services_get id); [discriminate|reflexivity]. }
  assert (Hskip2 : forall id (w' : W), is_registered id = false ->
            by_name id w' = (true, [], w')).
  { intros id w' H. unfold by_name, is_registered in *.
    destruct (services_get id); [discriminate|reflexivity]. }
  run. rewrite !if_log_final, !if_log_events.
  rewrite (for_each_skip by_port is_registered ids true w Hskip1).
  match goal with
  | |- context [for_each by_name ids ?s ?w0] =>
      rewrite (for_each_skip by_name is_registered ids s w0 Hskip2)
  end.
  repeat split.
  unfold calls. cbn [app filter].
  destruct (truthy (Some ids)), (truthy (Some (filter is_registered ids)));
    reflexivity.
Qed.

Lemma build_services_unguarded (service_ids : option (list string)) (w : W) :
  os_exists os (target_dir os) w = false ->
  value (build_services os service_ids w) = false
  /\ Forall before_loop (events (build_services os service_ids w)).
Proof.
  intros Hdir. unfold build_services. run. rewrite Hdir. cbn [negb]. run.
  split; [reflexivity|repeat constructor].
Qed.

Lemma copy_services_unguarded (service_ids : option (list string)) (w : W) :
  os_exists os (target_dir os) w && os_exists os service_dir w = false ->
  value (copy_services os service_ids w) = false
  /\ Forall before_loop (events (copy_services os service_ids w)).
Proof.
  intros Hdirs. unfold copy_services. run.
  destruct (os_exists os (target_dir os) w); cbn [negb andb] in *; run.
  - rewrite Hdirs. cbn [negb]. run. split; [reflexivity|repeat constructor].
  - split; [reflexivity|repeat constructor].
Qed.

(** C10, as amended -- Unknown ids, behind the directory guards.  For a
    list that holds an id that is not registered: [stop_all_services] logs
    nothing about it, and its result, its calls and the state it leaves are
    those of the run over the registered ids of the list alone.  When its
    directory guards pass, each of [build_services], [copy_config_files]
    and [copy_services] returns [False], logs the id as an unknown service
    at level ERROR, and still gives every id of the list its turn; when a
    guard fails it returns [False] before its loop, without a line about
    the id and without a turn for any id. *)
Theorem unknown_ids_asymmetry (ids : list string) (u : string) (w : W) :
  In u ids ->
  services_get u = None ->
  (Forall silent_about_unknown (events (stop_all_services os (Some ids) w))
   /\ value (stop_all_services os (Some ids) w)
      = value (stop_all_services os (Some (filter is_registered ids)) w)
   /\ calls (events (stop_all_services os (Some ids) w))
      = calls (events (stop_all_services os (Some (filter is_registered ids)) w))
   /\ final (stop_all_services os (Some ids) w)
      = final (stop_all_services os (Some (filter is_registered ids)) w))
  /\ ((os_exists os (target_dir os) w = true ->
       value (build_services os (Some ids) w) = false
       /\ In (EvLog ERROR (MsgUnknownService u))
             (events (build_services os (Some ids) w))
       /\ every_turn_runs (build_one os) ids w
            (events (build_services os (Some ids) w)))
      /\ (os_exists os (target_dir os) w = false ->
          value (build_services os (Some ids) w) = false
          /\ Forall before_loop (events (build_services os (Some ids) w))))
  /\ ((config_guards os w = true ->
       value (copy_config_files os (Some ids) w) = false
       /\ In (EvLog ERROR (MsgUnknownService u))
             (events (copy_config_files os (Some ids) w))
       /\ every_turn_runs (copy_config_one os) ids (config_loop_start os w)
            (events (copy_config_files os (Some ids) w)))
      /\ (config_guards os w = false ->
          value (copy_config_files os (Some ids) w) = false
          /\ Forall before_loop (events (copy_config_files os (Some ids) w))))
  /\ ((os_exists os (target_dir os) w && os_exists os service_dir w = true ->
       value (copy_services os (Some ids) w) = false
       /\ In (EvLog ERROR (MsgUnknownService u))
             (events (copy_services os (Some ids) w))
       /\ every_turn_runs (copy_service_one os) ids w
            (events (copy_services os (Some ids) w)))
      /\ (os_exists os (target_dir os) w && os_exists os service_dir w = false ->
          value (copy_services os (Some ids) w) = false
          /\ Forall before_loop (events (copy_services os (Some ids) w)))).
Proof.
  intros Hin Hu. split; [|split; [|split]].
  - split; [apply stop_all_services_silent|apply stop_all_services_skips].
  - split; [|apply build_services_unguarded]. intros Hdir.
    destruct (unknown_in_loop (build_one os) ids u w) as [Hv He]; [|exact Hin|].
    { intros w'. unfold build_one. now rewrite Hu. }
    assert (Hev : events (build_services os (Some ids) w)
                  = [EvLog INFO MsgBuildingAll]
                    ++ events (for_each (build_one os) ids true w)).
    { unfold build_services, ids_or_all. run. rewrite Hdir. cbn [negb]. run.
      reflexivity. }
    rewrite Hev. split; [|split].
    + unfold build_services, ids_or_all. run. rewrite Hdir. cbn [negb]. run.
      exact Hv.
    + apply in_or_app. now right.
    + apply loop_runs_every_turn.
  - split; [|apply (copy_config_files_unguarded os)]. intros Hg.
    destruct (unknown_in_loop (copy_config_one os) ids u (config_loop_start os w))
      as [Hv He]; [|exact Hin|].
    { intros w'. unfold copy_config_one. now rewrite Hu. }
    destruct (copy_config_files_guarded os (Some ids) w Hg)
      as (Hval & header & _ & Hev).
    unfold ids_or_all in *. rewrite Hval, Hev. split; [exact Hv|split].
    + apply in_or_app. now right.
    + apply loop_runs_every_turn.
  - split; [|apply copy_services_unguarded].
    intros Hdirs. apply andb_prop in Hdirs as [Hdir Hsvc].
    destruct (unknown_in_loop (copy_service_one os) ids u w) as [Hv He];
      [|exact Hin|].
    { intros w'. unfold copy_service_one. now rewrite Hu. }
    assert (Hev : events (copy_services os (Some ids) w)
                  = [EvLog INFO MsgCopyingExecutables]
                    ++ events (for_each (copy_service_one os) ids true w)).
    { unfold copy_services, ids_or_all. run. rewrite Hdir. cbn [negb]. run.
      rewrite Hsvc. cbn [negb]. run. reflexivity. }
    rewrite Hev. split; [|split].
    + rewrite copy_services_value, Hdir, Hsvc. cbn [andb].
      now rewrite for_each_value in Hv.
    + apply in_or_app. now right.
    + apply loop_runs_every_turn.
Qed.

End UnknownIds.

(** An unknown id next to the gateway on the installed host: stopping
    succeeds, building fails on the unknown id and still builds the
    gateway. *)
Lemma unknown_ids_asymmetry_witness :
  value (stop_all_services Host.os (Some ["bogus"; "api-gateway"]) Host.installed)
  = true
  /\ value (build_services Host.os (Some ["bogus"; "api-gateway"]) Host.installed)
     = false
  /\ In (EvLog ERROR (MsgUnknownService "bogus"))
        (events (build_services Host.os (Some ["bogus"; "api-gateway"])
                   Host.installed))
  /\ map fst (build_outcomes
                (events (build_services Host.os (Some ["bogus"; "api-gateway"])
                           Host.installed)))
     = ["api-gateway"].
Proof.
  destruct (unknown_ids_asymmetry Host.os ["bogus"; "api-gateway"] "bogus"
              Host.installed (or_introl eq_refl) eq_refl)
    as ((_ & Hstop & _) & (Hbuild & _) & _).
  destruct (Hbuild eq_refl) as (Hv & Hlog & _).
  split; [rewrite Hstop; vm_compute; reflexivity|].
  split; [exact Hv|]. split; [exact Hlog|]. vm_compute. reflexivity.
Defined.

(** C10, as stated, fails on a fresh checkout: the build output directory
    is missing, so [build_services] returns before its loop; the unknown id
    is never logged and the gateway, which follows it, is never built. *)
Lemma unknown_id_not_reported_without_target_dir :
  let run := build_services Host.os (Some ["bogus"; "api-gateway"])
               Host.fresh_checkout in
  services_get "bogus" = None
  /\ value run = false
  /\ events run = [ EvLog INFO MsgBuildingAll;
                    EvLog ERROR (MsgTargetDirNotFound (target_dir Host.os)) ]
  /\ ~ In (EvLog ERROR (MsgUnknownService "bogus")) (events run).
Proof.
  cbv zeta. split; [reflexivity|]. split; [vm_compute; reflexivity|].
  split; [vm_compute; reflexivity|].
  vm_compute. intros [H|[H|[]]]; discriminate.
Qed.

(** * Further properties *)

(** ** Locating processes *)

Section Locating.

Context {W : Type} (os : OS W).

Lemma scan_listeners_found (port : Z) (conns : list Conn) (w : W) (pid : Z) :
  scan_listeners os port conns w = Ok (Some pid) ->
  exists before conn after,
    conns = before ++ conn :: after
    /\ listens port conn = true
    /\ os_process os (conn_pid conn) w = Ok pid
    /\ forall c, In c before -> listens port c = true ->
         os_process os (conn_pid c) w = Raise NoSuchProcess
         \/ os_process os (conn_pid c) w = Raise AccessDenied.
Proof.
  induction conns as [|c conns IH]; simpl; [discriminate|].
  fold (listens port c).
  destruct (listens port c) eqn:Hl.
  - destruct (os_process os (conn_pid c) w) as [p|e] eqn:Hp.
    + intros H. inversion H; subst.
      exists [], c, conns. repeat split; auto. intros c' [].
    + destruct e; try discriminate; intros H;
        destruct (IH H) as (before & conn & after & -> & Hc & Hpid & Hb);
        exists (c :: before), conn, after; repeat split; auto;
        intros c' [<-|Hin] Hl'; auto.
  - intros H. destruct (IH H) as (before & conn & after & -> & Hc & Hpid & Hb).
    exists (c :: before), conn, after. repeat split; auto.
    intros c' [<-|Hin] Hl'; [congruence|auto].
Qed.

(** X1 -- [find_process_by_port] returns the process of the first listener
    on the port that can be inspected: when it returns a process, that
    process owns a connection in LISTEN state on the port, every listener
    on the port that comes earlier in the scan raised [NoSuchProcess] or
    [AccessDenied] and was skipped, nothing was logged and the host is
    untouched. *)
Theorem find_process_by_port_first_inspectable (port pid : Z) (w : W) :
  value (find_process_by_port os port w) = Some pid ->
  (exists before conn after,
     os_net_connections os w = Ok (before ++ conn :: after)
     /\ listens port conn = true
     /\ os_process os (conn_pid conn) w = Ok pid
     /\ forall c, In c before -> listens port c = true ->
          os_process os (conn_pid c) w = Raise NoSuchProcess
          \/ os_process os (conn_pid c) w = Raise AccessDenied)
  /\ events (find_process_by_port os port w) = []
  /\ final (find_process_by_port os port w) = w.
Proof.
  intros Hfound. split; [|split].
  - unfold find_process_by_port in Hfound. run.
    destruct (os_net_connections os w) as [conns|e]; run; [|discriminate].
    destruct (scan_listeners os port conns w) as [found|e] eqn:Hscan; run;
      [|discriminate].
    subst found.
    destruct (scan_listeners_found port conns w pid Hscan)
      as (before & conn & after & -> & H).
    exists before, conn, after. split; [reflexivity|exact H].
  - apply (find_process_by_port_found os port pid w Hfound).
  - apply find_process_by_port_final.
Qed.

Lemma ends_with_unfold (s suffix : string) :
  ends_with s suffix
  = if String.eqb s suffix then true
    else match s with
         | EmptyString => false
         | String _ s' => ends_with s' suffix
         end.
Proof. destruct s; reflexivity. Qed.

Lemma ends_with_iff (s suffix : string) :
  ends_with s suffix = true <-> exists prefix, s = String.append prefix suffix.
Proof.
  split.
  - induction s as [|c s IH]; rewrite ends_with_unfold.
    + destruct (String.eqb_spec EmptyString suffix) as [<-|]; [|discriminate].
      intros _. exists EmptyString. reflexivity.
    + destruct (String.eqb_spec (String c s) suffix) as [<-|].
      * intros _. exists EmptyString. reflexivity.
      * intros H. destruct (IH H) as [prefix ->].
        exists (String c prefix). reflexivity.
  - intros [prefix ->]. induction prefix as [|c prefix IH]; simpl String.append.
    + rewrite ends_with_unfold, String.eqb_refl. reflexivity.
    + rewrite ends_with_unfold.
      destruct (String.eqb (String c (String.append prefix suffix)) suffix);
        [reflexivity|exact IH].
Qed.

Lemma scan_processes_all_ok (exe_name : string) (infos : list ProcInfo) :
  scan_processes exe_name (map Ok infos)
  = (map pi_pid (filter (name_matches exe_name) infos), false).
Proof.
  induction infos as [|info infos IH]; simpl; [reflexivity|].
  rewrite IH. destruct (name_matches exe_name info); reflexivity.
Qed.

(** X2 -- [find_process_by_name] returns exactly the matching processes:
    when the process table can be read without an exception, the result is
    the pids, in table order, of the processes whose name is the executable
    name or whose non-empty executable path ends with it; nothing is
    logged and the host is untouched. *)
Theorem find_process_by_name_exact (exe_name : string) (infos : list ProcInfo)
    (w : W) :
  os_process_iter os w = Ok (map Ok infos) ->
  find_process_by_name os exe_name w
  = (map pi_pid (filter (name_matches exe_name) infos), [], w)
  /\ forall info,
       name_matches exe_name info = true
       <-> pi_name info = Some exe_name
           \/ exists path prefix,
                pi_exe info = Some path /\ path <> ""
                /\ path = String.append prefix exe_name.
Proof.
  intros Hiter. split.
  - unfold find_process_by_name. apply run_ext; run; rewrite Hiter; run;
      rewrite scan_processes_all_ok; run; reflexivity.
  - intros info. unfold name_matches. rewrite orb_true_iff. split.
    + intros [Hn|He].
      * left. destruct (pi_name info) as [n|]; [|discriminate].
        apply String.eqb_eq in Hn. now subst.
      * right. destruct (pi_exe info) as [path|]; [|discriminate].
        apply andb_prop in He as [Hne Hend].
        apply ends_with_iff in Hend as [prefix Hp].
        exists path, prefix. repeat split; auto.
        intros ->. discriminate.
    + intros [Hn|(path & prefix & He & Hne & Hp)].
      * left. rewrite Hn. apply String.eqb_refl.
      * right. rewrite He. apply andb_true_intro. split.
        -- destruct (String.eqb_spec path ""); [contradiction|reflexivity].
        -- apply ends_with_iff. now exists prefix.
Qed.

End Locating.

(** The gateway is found on its port on the host where it is up. *)
Lemma find_process_by_port_first_inspectable_witness :
  events (find_process_by_port Host.os 8080 Host.gateway_up) = []
  /\ final (find_process_by_port Host.os 8080 Host.gateway_up) = Host.gateway_up.
Proof.
  apply (find_process_by_port_first_inspectable Host.os 8080 4100 Host.gateway_up).
  vm_compute. reflexivity.
Defined.

(** One process matches by its path on the host where the gateway is up. *)
Lemma find_process_by_name_exact_witness :
  find_process_by_name Host.os "api-gateway.exe" Host.gateway_up
  = ([4100], [], Host.gateway_up).
Proof.
  apply (find_process_by_name_exact Host.os "api-gateway.exe"
           (Host.procs Host.gateway_up) Host.gateway_up eq_refl).
Defined.

(** ** Stopping by name and stopping everything *)

Section StoppingMore.

Context {W : Type} (os : OS W).

Lemma terminated_app (d1 d2 : list Event) :
  terminated (d1 ++ d2) = terminated d1 ++ terminated d2.
Proof.
  induction d1 as [|e d1 IH]; simpl; [reflexivity|].
  destruct e; simpl; rewrite ?IH; reflexivity.
Qed.

Lemma terminated_logs (d : list Event) :
  Forall (fun e => is_log e = true) d -> terminated d = [].
Proof.
  induction 1 as [|e d He _ IH]; simpl; [reflexivity|].
  destruct e; simpl in *; try discriminate. exact IH.
Qed.

Lemma stop_one_by_name_escalation (service_name : string) (pid : Z) (w : W) :
  escalation service_name pid
    (calls (events (stop_one_by_name os service_name pid w)))
    (value (stop_one_by_name os service_name pid w))
  /\ terminated (events (stop_one_by_name os service_name pid w)) = [pid].
Proof.
  unfold stop_one_by_name, terminate, wait, kill. run.
  destruct (os_terminate os pid w) as [[[]|e1] w1]; cbn [fst snd]; run;
    [|simpl; split; [constructor|reflexivity]].
  destruct (os_wait os pid 10 w1) as [[[]|e2] w2]; cbn [fst snd]; run;
    [simpl; split; [constructor|reflexivity]|].
  destruct e2; run; try (simpl; split; [constructor; discriminate|reflexivity]).
  destruct (os_kill os pid w2) as [[[]|e3] w3]; cbn [fst snd]; run;
    [|simpl; split; [constructor|reflexivity]].
  destruct (os_wait os pid 5 w3) as [[[]|e4] w4]; cbn [fst snd]; run;
    simpl; split; try constructor; reflexivity.
Qed.

Lemma terminated_turns (service_name : string) (pids : list Z) (w : W) :
  terminated (flat_map (turn_events (stop_one_by_name os service_name))
                (iterations (stop_one_by_name os service_name) pids w))
  = pids.
Proof.
  revert w; induction pids as [|pid pids IH]; intros w; simpl; [reflexivity|].
  rewrite terminated_app, IH.
  change (turn_events (stop_one_by_name os service_name) (pid, w))
    with (events (stop_one_by_name os service_name pid w)).
  destruct (stop_one_by_name_escalation service_name pid w) as [_ ->].
  reflexivity.
Qed.

(** X3 -- [stop_service_by_name] is best effort over every match: a
    termination signal is sent to each process that [find_process_by_name]
    returned, in that order and whatever happened to the earlier ones; each
    process goes through the same escalation as a stop by port (terminate,
    wait 10, kill only after a timeout, wait 5); and the result is [True]
    exactly when every one of them was stopped. *)
Theorem stop_service_by_name_best_effort (exe_name service_name : string) (w : W) :
  let pids := value (find_process_by_name os exe_name w) in
  let turns := iterations (stop_one_by_name os service_name) pids w in
  terminated (events (stop_service_by_name os exe_name service_name w)) = pids
  /\ value (stop_service_by_name os exe_name service_name w)
     = forallb (turn_ok (stop_one_by_name os service_name)) turns
  /\ forall pid turn, In (pid, turn) turns ->
       escalation service_name pid
         (calls (events (stop_one_by_name os service_name pid turn)))
         (value (stop_one_by_name os service_name pid turn)).
Proof.
  intros pids turns. split; [|split].
  - unfold stop_service_by_name. run. rewrite terminated_app.
    rewrite (terminated_logs _ (find_process_by_name_logs os exe_name w)).
    rewrite find_process_by_name_final. fold pids.
    destruct pids as [|pid pids'] eqn:E; run; [reflexivity|].
    rewrite for_each_events. apply terminated_turns.
  - unfold stop_service_by_name. run. rewrite find_process_by_name_final.
    subst turns. fold pids. destruct pids as [|pid pids'] eqn:E; run;
      [reflexivity|].
    now rewrite for_each_value.
  - intros pid turn _. apply stop_one_by_name_escalation.
Qed.

(** X4 -- [stop_all_services] runs every stop by port before the first
    stop by name and always ends with a two second sleep: its events are
    the opening line, the turns of the stop by port over all requested ids,
    then the turns of the stop by name over the same ids, then the sleep;
    its result is [True] exactly when every one of those turns succeeded,
    and a failed turn does not keep the later ones from running. *)
Theorem stop_all_services_port_then_name (service_ids : option (list string))
    (w : W) :
  let ids := ids_or_all service_ids in
  let by_port := iterations (stop_by_port_turn os) ids w in
  let w1 := final (for_each (stop_by_port_turn os) ids true w) in
  let by_name := iterations (stop_by_name_turn os) ids w1 in
  events (stop_all_services os service_ids w)
  = (if truthy service_ids
     then EvLog INFO (MsgStoppingServices (given service_ids))
     else EvLog INFO MsgStoppingAll)
    :: flat_map (turn_events (stop_by_port_turn os)) by_port
    ++ flat_map (turn_events (stop_by_name_turn os)) by_name
    ++ [EvSleep 2]
  /\ value (stop_all_services os service_ids w)
     = forallb (turn_ok (stop_by_port_turn os)) by_port
       && forallb (turn_ok (stop_by_name_turn os)) by_name
  /\ map fst by_port = ids /\ map fst by_name = ids.
Proof.
  intros ids by_port w1 by_name.
  unfold stop_all_services. fold ids.
  change (fun service_id : string =>
            match services_get service_id with
            | Some config => stop_service_by_port os (port config) (name config)
            | None => ret true
            end) with (stop_by_port_turn os).
  change (fun service_id : string =>
            match services_get service_id with
            | Some config => stop_service_by_name os (exe config) (name config)
            | None => ret true
            end) with (stop_by_name_turn os).
  run. rewrite !if_log_final, !if_log_events. fold w1.
  rewrite !for_each_events, !for_each_value. cbn [andb].
  fold by_port by_name. repeat split.
  - apply iterations_fst.
  - apply iterations_fst.
Qed.

End StoppingMore.

(** ** Staging and starting one service *)

Section OneService.

Context {W : Type} (os : OS W).

Lemma copy_service_one_staged (service_id : string) (turn : W) :
  value (copy_service_one os service_id turn) = true <-> staged_at os service_id turn.
Proof.
  unfold staged_at. destruct (services_get service_id) as [config|] eqn:E.
  - rewrite (copy_service_one_spec os service_id config turn E). cbv zeta.
    split.
    + intros H. apply andb_prop in H as [Hsrc H].
      destruct (os_copy2 os (target_dir os ++ [exe config])
                  (service_dir ++ [exe config]) turn) as [[[]|e] w1] eqn:Hc;
        cbn [fst snd] in *; [|discriminate].
      destruct (os_stat_size os (service_dir ++ [exe config]) w1) as [size|e]
        eqn:Hs; [|discriminate].
      exists config, size. rewrite Hc. cbn [fst snd]. auto.
    + intros (config' & size & E' & Hsrc & Hcopy & Hstat).
      inversion E'; subst config'. rewrite Hsrc, Hcopy, Hstat. reflexivity.
  - split.
    + unfold copy_service_one. rewrite E. run. discriminate.
    + intros (config & size & E' & _). discriminate.
Qed.

(** X5 -- When [copy_services] succeeds: it returns [True] exactly when the
    build output directory and the deployment directory exist and, at the
    turn of every requested id, the id is registered, its build output
    exists, the copy does not raise and the size of the destination can be
    read. *)
Theorem copy_services_true_iff (ids : list string) (w : W) :
  value (copy_services os (Some ids) w) = true
  <-> os_exists os (target_dir os) w = true
      /\ os_exists os service_dir w = true
      /\ forall service_id turn,
           In (service_id, turn) (iterations (copy_service_one os) ids w) ->
           staged_at os service_id turn.
Proof.
  rewrite copy_services_value, !andb_true_iff, forallb_forall. split.
  - intros [[Ht Hs] Hall]. repeat split; auto.
    intros service_id turn Hin. apply copy_service_one_staged.
    apply (Hall (service_id, turn) Hin).
  - intros (Ht & Hs & Hall). repeat split; auto.
    intros [service_id turn] Hin. apply copy_service_one_staged.
    apply (Hall service_id turn Hin).
Qed.

(** X6 -- When [start_service] succeeds, and when it launches nothing: it
    returns [True] exactly when the service is registered, its executable
    is in the deployment directory, the launch (from that directory, with
    the service's CONFIG_PATH) does not raise and the process is still
    running after the two second pause; for an id that is not registered or
    whose executable is missing it returns [False] without any call on the
    host. *)
Theorem start_service_true_iff (service_id : string) (w : W) :
  (value (start_service os service_id w) = true <-> comes_up os service_id w)
  /\ ((services_get service_id = None
       \/ exists config, services_get service_id = Some config
                         /\ os_exists os (service_dir ++ [exe config]) w = false) ->
      value (start_service os service_id w) = false
      /\ calls (events (start_service os service_id w)) = []
      /\ final (start_service os service_id w) = w).
Proof.
  split.
  - unfold comes_up, start_service.
    destruct (services_get service_id) as [config|] eqn:E; run.
    + destruct (os_exists os (service_dir ++ [exe config]) w) eqn:Hexe;
        cbn [negb]; run.
      * destruct (os_popen os (service_dir ++ [exe config]) service_dir
                    (config_path_env service_id) w) as [[pid|e] w1] eqn:Hp;
          cbn [fst snd]; run.
        -- destruct (os_poll os pid (os_sleep os 2 w1)) as [code|] eqn:Hpoll; run.
           ++ split.
              ** destruct (os_communicate os pid (os_sleep os 2 w1)) as [[[]|e] w2];
                   cbn [fst snd]; run; discriminate.
              ** intros (config' & pid' & E' & _ & Hp' & Hpoll').
                 inversion E'; subst config'. rewrite Hp in Hp', Hpoll'.
                 cbn [fst snd] in *. inversion Hp'; subst pid'. congruence.
           ++ split; [|reflexivity]. intros _. exists config, pid.
              rewrite Hp. cbn [fst snd]. auto.
        -- split; [discriminate|].
           intros (config' & pid' & E' & _ & Hp' & _).
           inversion E'; subst config'. rewrite Hp in Hp'. discriminate.
      * split; [discriminate|].
        intros (config' & pid' & E' & Hexe' & _).
        inversion E'; subst config'. congruence.
    + split; [discriminate|]. intros (config & pid & E' & _). discriminate.
  - intros [Hnone|(config & E & Hexe)]; unfold start_service.
    + rewrite Hnone. run. repeat split.
    + rewrite E. run. rewrite Hexe. cbn [negb]. run. repeat split.
Qed.

End OneService.

(** X7 -- The registry is well formed: ids, ports and executable names are
    pairwise distinct, no executable name is the end of another one (a
    match by name never takes one service for another), every executable is
    [<id>.exe] and every CONFIG_PATH is [configs/<id>/<id>.yaml]. *)
Theorem registry_well_formed :
  NoDup services_keys
  /\ NoDup registered_ports
  /\ (forall id1 id2 c1 c2,
        services_get id1 = Some c1 -> services_get id2 = Some c2 ->
        id1 <> id2 -> ends_with (exe c1) (exe c2) = false)
  /\ (forall service_id config,
        services_get service_id = Some config ->
        exe config = String.append service_id ".exe"
        /\ config_path_env service_id
           = Some (String.append "configs/"
                     (String.append service_id
                        (String.append "/" (String.append service_id ".yaml"))))).
Proof.
  split; [|split; [|split]].
  - unfold services_keys, services; simpl.
    repeat constructor; simpl; intuition discriminate.
  - unfold registered_ports, services; simpl.
    repeat constructor; simpl; intuition discriminate.
  - intros id1 id2 c1 c2 E1 E2 Hne.
    unfold services_get, services in E1, E2. simpl in E1, E2.
    repeat match type of E1 with
    | context [String.eqb id1 ?s] =>
        destruct (String.eqb_spec id1 s); [subst id1|]
    end; inversion E1; subst c1;
    repeat match type of E2 with
    | context [String.eqb id2 ?s] =>
        destruct (String.eqb_spec id2 s); [subst id2|]
    end; inversion E2; subst c2; try contradiction; reflexivity.
  - intros service_id config E.
    unfold services_get, services in E. simpl in E.
    repeat match type of E with
    | context [String.eqb service_id ?s] =>
        destruct (String.eqb_spec service_id s); [subst service_id|]
    end; inversion E; subst config; split; reflexivity.
Qed.

(** On the installed host the gateway's executable is missing from the
    deployment directory: nothing is launched. *)
Lemma start_service_true_iff_witness :
  value (start_service Host.os "api-gateway" Host.installed) = false
  /\ calls (events (start_service Host.os "api-gateway" Host.installed)) = []
  /\ final (start_service Host.os "api-gateway" Host.installed) = Host.installed.
Proof.
  apply (start_service_true_iff Host.os "api-gateway" Host.installed).
  right. eexists. split; reflexivity.
Defined.

(** ** Health polling *)

Section HealthMore.

Context {W : Type} (os : OS W).

Lemma status_of_keys (ids : list string) (w : W) :
  map fst (value (status_of os ids w)) = ids.
Proof.
  revert w; induction ids as [|id ids IH]; intros w; simpl; run; [reflexivity|].
  simpl. now rewrite IH.
Qed.

Lemma lookup_none_iff {A : Type} (k : string) (d : list (string * A)) :
  lookup k d = None <-> ~ In k (map fst d).
Proof.
  induction d as [|[k' v] d IH]; simpl.
  - tauto.
  - destruct (String.eqb_spec k k') as [->|Hne].
    + split; [discriminate|]. intros H. exfalso. apply H. now left.
    + rewrite IH. split.
      * intros H [Heq|Hin]; [congruence|contradiction].
      * intros H Hin. apply H. now right.
Qed.

Lemma status_lookup_none (service_id : string) (w : W) :
  lookup service_id (value (get_service_status os w)) = None
  <-> services_get service_id = None.
Proof.
  unfold services_get. rewrite !lookup_none_iff. unfold get_service_status.
  rewrite status_of_keys. reflexivity.
Qed.

(** X8 -- [get_service_status] reports on exactly the registered services:
    its result has one entry per registered id, in registry order, so an id
    has no entry exactly when it is not registered; and it sends one health
    request, with the 5 second timeout, to each registered port in that
    order. *)
Theorem get_service_status_covers_registry (w : W) :
  map fst (value (get_service_status os w)) = services_keys
  /\ (forall service_id,
        lookup service_id (value (get_service_status os w)) = None
        <-> services_get service_id = None)
  /\ poll_round registered_ports (events (get_service_status os w)).
Proof.
  split; [|split].
  - apply status_of_keys.
  - intros service_id. apply status_lookup_none.
  - apply get_service_status_round.
Qed.

(** X9 -- With a timeout that is not positive [wait_for_services] gives up
    at once: it returns [False] after its opening line and the timeout
    error, without a single health request and without sleeping. *)
Theorem wait_for_services_no_time (service_ids : option (list string))
    (timeout : Z) (w : W) :
  timeout <= 0 ->
  wait_for_services os service_ids timeout w
  = (false,
     [ (if truthy service_ids
        then EvLog INFO (MsgWaitingFor (given service_ids) timeout)
        else EvLog INFO (MsgWaitingAll timeout));
       EvLog ERROR MsgTimeoutWaiting ],
     w).
Proof.
  intros Hle.
  assert (Hfuel : wait_fuel timeout = 1%nat).
  { unfold wait_fuel. destruct timeout; try reflexivity. lia. }
  assert (Hlt : (os_time os w - os_time os w <? timeout) = false).
  { apply Z.ltb_ge. lia. }
  unfold wait_for_services. rewrite Hfuel. cbn [wait_loop].
  apply run_ext; run; rewrite ?if_log_final, ?if_log_events; run; rewrite Hlt;
    run; reflexivity.
Qed.

Lemma count_true_all (l : list bool) :
  count_true l = Z.of_nat (List.length l) -> forall b, In b l -> b = true.
Proof.
  unfold count_true. intros H.
  assert (Hlen : List.length (filter (fun b => b) l) = List.length l) by lia.
  clear H. induction l as [|x l IH]; intros b Hin; [destruct Hin|].
  simpl in Hlen. destruct x.
  - simpl in Hlen. destruct Hin as [<-|Hin]; [reflexivity|].
    apply IH; [lia|exact Hin].
  - pose proof (filter_length_le (fun b => b) l). lia.
Qed.

Lemma wait_loop_true (fuel : nat) (service_ids : option (list string))
    (timeout start_time : Z) (w : W) :
  value (wait_loop os fuel service_ids timeout start_time w) = Some true ->
  exists w', polls_in os w w'
             /\ all_counted_healthy service_ids (value (get_service_status os w')).
Proof.
  revert w; induction fuel as [|fuel IH]; intros w; simpl wait_loop; run;
    [discriminate|].
  destruct (os_time os w - start_time <? timeout); run; [|discriminate].
  match goal with
  | |- context [if ?c then _ else _] => destruct c eqn:Hall
  end; run.
  - intros _. exists w. split; [apply polls_first|]. unfold all_counted_healthy.
    apply Z.eqb_eq in Hall.
    destruct (truthy service_ids).
    + intros service_id Hin.
      apply (count_true_all
               (map (status_get (value (get_service_status os w)))
                  (given service_ids)));
        [rewrite length_map; exact Hall|apply in_map; exact Hin].
    + intros entry Hin.
      apply (count_true_all (map snd (value (get_service_status os w))));
        [rewrite length_map; exact Hall|apply in_map; exact Hin].
  - intros Hrest. destruct (IH _ Hrest) as [w' [Hpolls Hhealthy]].
    exists w'. split; [apply polls_again; exact Hpolls|exact Hhealthy].
Qed.

(** X10 -- What a successful wait means: when [wait_for_services] returns
    [True], one of its polls -- the first one, or one made after a round
    that failed and slept two seconds -- found every counted service
    healthy (every id of the subset, or every registered service when no
    subset is given).  In particular every id of the subset is registered:
    a subset that holds an unknown id can only make the wait return
    [False]. *)
Theorem wait_for_services_true_means_healthy (service_ids : option (list string))
    (timeout : Z) (w : W) :
  value (wait_for_services os service_ids timeout w) = true ->
  (exists w', polls_in os w w'
              /\ all_counted_healthy service_ids (value (get_service_status os w')))
  /\ (truthy service_ids = true -> Forall registered (given service_ids)).
Proof.
  intros Htrue.
  assert (Hpoll : exists w',
            polls_in os w w'
            /\ all_counted_healthy service_ids (value (get_service_status os w'))).
  { unfold wait_for_services in Htrue. run. rewrite ?if_log_final in Htrue.
    match type of Htrue with
    | context [wait_loop os ?f ?i ?t ?s ?w0] =>
        destruct (value (wait_loop os f i t s w0)) as [[|]|] eqn:Hloop;
          try discriminate;
        apply (wait_loop_true f i t s w0 Hloop)
    end. }
  split; [exact Hpoll|].
  intros Htruthy. destruct Hpoll as [w' [_ Hall]].
  unfold all_counted_healthy in Hall. rewrite Htruthy in Hall.
  apply Forall_forall. intros service_id Hin. specialize (Hall service_id Hin).
  unfold status_get in Hall.
  destruct (lookup service_id (value (get_service_status os w'))) eqn:Hl;
    [|discriminate].
  intros Hnone.
  apply (proj2 (status_lookup_none service_id w')) in Hnone. congruence.
Qed.

Lemma wait_loop_empty_subset (fuel : nat) (timeout start_time : Z) (w : W) :
  wait_loop os fuel (Some []) timeout start_time w
  = wait_loop os fuel None timeout start_time w.
Proof.
  revert w; induction fuel as [|fuel IH]; intros w; [reflexivity|].
  cbn [wait_loop]. unfold bind.
  destruct (query (os_time os) w) as [[now d0] w0].
  destruct (now - start_time <? timeout); [|reflexivity].
  destruct (get_service_status os w0) as [[current d1] w1].
  cbn [truthy given].
  destruct (count_true (map snd current) =? Z.of_nat (List.length current));
    [reflexivity|].
  cbn. rewrite IH. reflexivity.
Qed.

(** X11 -- The empty subset is not "no subset" for stopping and starting,
    but it is for waiting: with the empty list [stop_all_services] stops
    nothing and [start_all_services] launches nothing and returns [True],
    while [wait_for_services] behaves as without a subset and waits for
    every registered service. *)
Theorem empty_subset_edge (timeout : Z) (w : W) :
  calls (events (stop_all_services os (Some []) w)) = [EvSleep 2]
  /\ value (stop_all_services os (Some []) w) = true
  /\ start_all_services os (Some []) w = (true, [EvLog INFO MsgStartingAll], w)
  /\ wait_for_services os (Some []) timeout w = wait_for_services os None timeout w.
Proof.
  repeat split.
  unfold wait_for_services. cbn [truthy]. unfold bind.
  destruct (log INFO (MsgWaitingAll timeout) w) as [[u d0] w0].
  destruct (query (os_time os) w0) as [[start_time d1] w1].
  rewrite wait_loop_empty_subset. reflexivity.
Qed.

End HealthMore.

(** A wait that is given no time on the installed host. *)
Lemma wait_for_services_no_time_witness :
  value (wait_for_services Host.os (Some ["api-gateway"]) 0 Host.installed) = false.
Proof.
  rewrite (wait_for_services_no_time Host.os (Some ["api-gateway"]) 0
             Host.installed); [reflexivity|lia].
Defined.

(** The gateway answers on the installed host: the wait succeeds and the
    subset is registered. *)
Lemma wait_for_services_true_means_healthy_witness :
  Forall registered ["api-gateway"].
Proof.
  refine (proj2 (wait_for_services_true_means_healthy Host.os
                   (Some ["api-gateway"]) 30 Host.installed _) eq_refl).
  vm_compute. reflexivity.
Defined.

(** ** The deployment pipeline *)

Section Pipeline.

Context {W : Type} (os : OS W).

Ltac side := split; [simpl; eauto 10 | simpl; tauto].

Lemma deploy_all_value (skip_build : bool) (service_ids : option (list string))
    (w : W) :
  value (deploy_all os skip_build service_ids w)
  = Ok (value (deploy_stages os skip_build service_ids w)).
Proof.
  rewrite deploy_all_split. run.
  destruct (value (deploy_stages os skip_build service_ids w)) eqn:Hstages; run;
    [|reflexivity].
  pose proof (deploy_stages_registered os skip_build service_ids w Hstages) as Hreg.
  unfold deploy_report. run.
  match goal with
  | |- context [report_status ?st ?ids ?w0] =>
      rewrite (report_status_ok st ids w0 Hreg)
  end.
  reflexivity.
Qed.

(** X12 -- [deploy_all] never raises and reports its stages: its result is
    [True] exactly when stop, build (unless skipped), configuration,
    executables and start all succeeded, and [False] otherwise; the
    [KeyError] of its final status loop cannot happen, and the health wait
    has no part in the result. *)
Theorem deploy_all_reports_stages (skip_build : bool)
    (service_ids : option (list string)) (w : W) :
  (forall e, value (deploy_all os skip_build service_ids w) <> Raise e)
  /\ value (deploy_all os skip_build service_ids w)
     = Ok (value (deploy_stages os skip_build service_ids w)).
Proof.
  split; [rewrite deploy_all_value; discriminate|apply deploy_all_value].
Qed.

Lemma within_no_build (S : list string) (stages : list Stage) (d : list Event) :
  ~ In StBuild stages -> Forall (within os S stages) d -> build_outcomes d = [].
Proof.
  intros Hno. induction 1 as [|e d [_ He] _ IH]; simpl; [reflexivity|].
  destruct e; simpl in *; try exact IH. contradiction.
Qed.

Lemma deploy_stages_quick_within (service_ids : option (list string)) :
  emits (within os (ids_or_all service_ids)
           [StLog; StStop; StSleep; StConfig; StCopy; StStart])
    (deploy_stages os true service_ids).
Proof.
  unfold deploy_stages.
  apply emits_bind; [destruct (truthy service_ids); emits_steps; side|]. intros _.
  apply emits_bind; [apply emits_log; side|]. intros _.
  apply emits_bind.
  { eapply emits_weaken; [|apply stop_all_services_within].
    intros e. apply within_more. intros s; simpl; tauto. }
  intros [|]; cbn [negb]; [|emits_steps; side].
  apply emits_bind; [apply emits_log; side|]. intros _.
  apply emits_bind; [apply emits_sleep; side|]. intros _.
  apply emits_bind; [emits_steps; side|].
  intros [|]; cbn [negb]; [|emits_steps; side].
  apply emits_bind; [apply emits_log; side|]. intros _.
  apply emits_bind.
  { eapply emits_weaken; [|apply copy_config_files_within].
    intros e. apply within_more. intros s; simpl; tauto. }
  intros [|]; cbn [negb]; [|emits_steps; side].
  apply emits_bind; [apply emits_log; side|]. intros _.
  apply emits_bind.
  { eapply emits_weaken; [|apply copy_services_within].
    intros e. apply within_more. intros s; simpl; tauto. }
  intros [|]; cbn [negb]; [|emits_steps; side].
  apply emits_bind; [apply emits_log; side|]. intros _.
  apply emits_bind.
  { eapply emits_weaken; [|apply start_all_services_within].
    intros e. apply within_more. intros s; simpl; tauto. }
  intros [|]; cbn [negb]; emits_steps; side.
Qed.

(** X13 -- A deployment that skips the build never runs a build command,
    whatever the subset and whatever the host does. *)
Theorem deploy_all_skip_build_never_builds (service_ids : option (list string))
    (w : W) :
  build_outcomes (events (deploy_all os true service_ids w)) = [].
Proof.
  rewrite deploy_all_split, events_bind, build_outcomes_app.
  rewrite (within_no_build (ids_or_all service_ids)
             [StLog; StStop; StSleep; StConfig; StCopy; StStart]);
    [|simpl; intuition discriminate|apply deploy_stages_quick_within].
  destruct (value (deploy_stages os true service_ids w)); [|reflexivity].
  apply (within_no_build (ids_or_all service_ids) [StLog; StHealth; StSleep]);
    [simpl; intuition discriminate|apply deploy_report_within].
Qed.

Lemma staged_nil (stages : list Stage) : staged stages [].
Proof.
  induction stages as [|s stages IH]; simpl; [reflexivity|].
  exists [], []. repeat split; [constructor|exact IH].
Qed.

Lemma staged_more (s : Stage) (stages : list Stage) (d1 d : list Event) :
  Forall (in_stage s) d1 -> staged (s :: stages) d -> staged (s :: stages) (d1 ++ d).
Proof.
  intros H1 (d2 & d3 & -> & H2 & H3). exists (d1 ++ d2), d3.
  repeat split; [apply app_assoc|apply Forall_app; auto|exact H3].
Qed.

Lemma staged_next (s : Stage) (stages : list Stage) (d : list Event) :
  staged stages d -> staged (s :: stages) d.
Proof. intros H. exists [], d. repeat split; [constructor|exact H]. Qed.

Lemma within_in_stage (S : list string) (s : Stage) (d : list Event) :
  Forall (within os S [StLog; s; StSleep]) d -> Forall (in_stage s) d.
Proof.
  intros H. eapply Forall_impl; [|exact H].
  intros e [_ Hin]. unfold in_stage. simpl in Hin. intuition.
Qed.

Lemma within_in_stage2 (S : list string) (s : Stage) (d : list Event) :
  Forall (within os S [StLog; s]) d -> Forall (in_stage s) d.
Proof.
  intros H. eapply Forall_impl; [|exact H].
  intros e [_ Hin]. unfold in_stage. simpl in Hin. intuition.
Qed.

Lemma log_in_stage (s : Stage) (l : Level) (m : Msg) : in_stage s (EvLog l m).
Proof. right. left. reflexivity. Qed.

Lemma sleep_in_stage (s : Stage) (n : Z) : in_stage s (EvSleep n).
Proof. right. right. reflexivity. Qed.

Lemma if_log_in_stage (s : Stage) (c : bool) (l1 l2 : Level) (m1 m2 : Msg) :
  in_stage s (if c then EvLog l1 m1 else EvLog l2 m2).
Proof. destruct c; apply log_in_stage. Qed.

(** X14 -- The stages of a deployment come in order: the events of
    [deploy_all] are six consecutive segments -- stop, build,
    configuration, executables, start, health -- each holding only the
    calls of its stage besides log lines and sleeps; no call of an earlier
    stage is made once a later stage has begun. *)
Theorem deploy_all_stages_in_order (skip_build : bool)
    (service_ids : option (list string)) (w : W) :
  staged [StStop; StBuild; StConfig; StCopy; StStart; StHealth]
    (events (deploy_all os skip_build service_ids w)).
Proof.
  rewrite deploy_all_split, events_bind.
  unfold deploy_stages. run. rewrite !if_log_final, !if_log_events.
  set (w1 := final (stop_all_services os service_ids w)).
  pose proof (within_in_stage _ _ _ (stop_all_services_within os service_ids w))
    as Hstop.
  rewrite <- !app_assoc.
  apply staged_more; [constructor; [apply if_log_in_stage|constructor]|].
  apply staged_more; [constructor; [apply log_in_stage|constructor]|].
  apply staged_more; [exact Hstop|].
  destruct (value (stop_all_services os service_ids w)); cbn [negb]; run.
  2: { repeat (apply staged_more;
                 [constructor; [apply log_in_stage|constructor]|]); apply staged_nil. }
  rewrite <- !app_assoc.
  apply staged_more; [constructor; [apply log_in_stage|constructor]|].
  apply staged_more; [constructor; [apply sleep_in_stage|constructor]|].
  apply staged_next.
  set (w2 := os_sleep os 3 w1).
  assert (Hbuild : Forall (in_stage StBuild)
            (events ((if negb skip_build
                      then log INFO MsgStep2;;; build_services os service_ids
                      else log INFO MsgSkipBuild;;; ret true) w2))).
  { destruct skip_build; cbn [negb]; run.
    - constructor; [apply log_in_stage|constructor].
    - apply Forall_app. split; [constructor; [apply log_in_stage|constructor]|].
      apply (within_in_stage2 _ _ _ (build_services_within os service_ids w2)). }
  apply staged_more; [exact Hbuild|].
  match goal with
  | |- context [if negb (value ?b) then _ else _] =>
      set (w3 := final b); destruct (value b); cbn [negb]; run
  end.
  2: { repeat (apply staged_more;
                 [constructor; [apply log_in_stage|constructor]|]); apply staged_nil. }
  rewrite <- !app_assoc.
  apply staged_next.
  apply staged_more; [constructor; [apply log_in_stage|constructor]|].
  apply staged_more;
    [apply (within_in_stage2 _ _ _ (copy_config_files_within os service_ids w3))|].
  set (w4 := final (copy_config_files os service_ids w3)).
  destruct (value (copy_config_files os service_ids w3)); cbn [negb]; run.
  2: { repeat (apply staged_more;
                 [constructor; [apply log_in_stage|constructor]|]); apply staged_nil. }
  rewrite <- !app_assoc.
  apply staged_next.
  apply staged_more; [constructor; [apply log_in_stage|constructor]|].
  apply staged_more;
    [apply (within_in_stage2 _ _ _ (copy_services_within os service_ids w4))|].
  set (w5 := final (copy_services os service_ids w4)).
  destruct (value (copy_services os service_ids w4)); cbn [negb]; run.
  2: { repeat (apply staged_more;
                 [constructor; [apply log_in_stage|constructor]|]); apply staged_nil. }
  rewrite <- !app_assoc.
  apply staged_next.
  apply staged_more; [constructor; [apply log_in_stage|constructor]|].
  assert (Hstart : Forall (in_stage StStart)
                     (events (start_all_services os service_ids w5))).
  { eapply Forall_impl; [|apply (start_all_services_within os service_ids w5)].
    intros e [_ Hin]. unfold in_stage. simpl in Hin. intuition. }
  apply staged_more; [exact Hstart|].
  destruct (value (start_all_services os service_ids w5)); cbn [negb]; run.
  2: { repeat (apply staged_more;
                 [constructor; [apply log_in_stage|constructor]|]); apply staged_nil. }
  apply staged_next. cbn [app].
  exists (events (deploy_report os (os_time os w) service_ids
                    (final (start_all_services os service_ids w5)))), [].
  repeat split; [now rewrite app_nil_r|].
  eapply Forall_impl; [|apply (deploy_report_within os _ service_ids)].
  intros e [_ Hin]. unfold in_stage. simpl in Hin. intuition.
Qed.

Lemma deploy_stages_false_ends (skip_build : bool)
    (service_ids : option (list string)) (w : W) :
  value (deploy_stages os skip_build service_ids w) = false ->
  exists d m, events (deploy_stages os skip_build service_ids w)
              = d ++ [EvLog ERROR m]
              /\ is_abort m = true.
Proof.
  unfold deploy_stages. run. rewrite !if_log_final.
  repeat match goal with
  | |- context [if negb (value ?b) then _ else _] =>
      destruct (value b); cbn [negb]; run
  end; try discriminate; intros _;
    rewrite ?app_nil_r;
    repeat rewrite app_assoc;
    eexists; eexists; (split; [reflexivity|reflexivity]).
Qed.

(** X15 -- A failed deployment stops where it failed: when [deploy_all]
    returns [False], the last thing it did was to log one of its five
    "Aborting deployment" errors, and it sent no health request at all. *)
Theorem deploy_all_failure_ends_there (skip_build : bool)
    (service_ids : option (list string)) (w : W) :
  value (deploy_all os skip_build service_ids w) = Ok false ->
  (exists d m, events (deploy_all os skip_build service_ids w) = d ++ [EvLog ERROR m]
               /\ is_abort m = true)
  /\ Forall (fun e => is_health_request e = false)
       (events (deploy_all os skip_build service_ids w)).
Proof.
  rewrite deploy_all_value. intros Hfalse.
  assert (Hstages : value (deploy_stages os skip_build service_ids w) = false)
    by congruence.
  rewrite deploy_all_split, events_bind, Hstages. run. rewrite app_nil_r. split.
  - apply (deploy_stages_false_ends skip_build service_ids w Hstages).
  - eapply Forall_impl; [|apply (deploy_stages_within os skip_build service_ids w)].
    intros e [_ Hin]. destruct e; try reflexivity.
    simpl in Hin. intuition discriminate.
Qed.

(** X16 -- [restart_all] stops everything first and ignores health: its
    first events after the opening line are those of
    [stop_all_services()] over all registered services, whatever subset is
    given; its result is [True] exactly when that stop and the start of the
    subset both succeeded; and when the stop failed nothing is launched and
    no health request is sent. *)
Theorem restart_all_stop_then_start (service_ids : option (list string)) (w : W) :
  (exists rest,
     events (restart_all os service_ids w)
     = (if truthy service_ids
        then EvLog INFO (MsgRestarting (given service_ids))
        else EvLog INFO MsgRestartingAll)
       :: events (stop_all_services os None w) ++ rest)
  /\ value (restart_all os service_ids w)
     = value (stop_all_services os None w)
       && value (start_all_services os service_ids
                   (os_sleep os 3 (final (stop_all_services os None w))))
  /\ (value (stop_all_services os None w) = false ->
      launches (events (restart_all os service_ids w)) = []
      /\ Forall (fun e => is_health_request e = false)
           (events (restart_all os service_ids w))).
Proof.
  unfold restart_all. run. rewrite !if_log_final, !if_log_events.
  pose proof (stop_all_services_within os None w) as Hstop.
  split; [|split].
  - eexists. cbn [app]. reflexivity.
  - destruct (value (stop_all_services os None w)); cbn [negb andb]; run;
      [|reflexivity].
    match goal with
    | |- context [if negb ?c then _ else _] => destruct c; cbn [negb]; run
    end; reflexivity.
  - intros Hfail. rewrite Hfail. cbn [negb]. run. split.
    + rewrite !launches_app.
      assert (Hl : launches (events (stop_all_services os None w)) = []).
      { clear Hfail. induction Hstop as [|e d [_ He] _ IH]; [reflexivity|].
        destruct e; simpl in *; try exact IH. intuition discriminate. }
      rewrite Hl. destruct (truthy service_ids); reflexivity.
    + repeat (apply Forall_app; split).
      * destruct (truthy service_ids); repeat constructor.
      * eapply Forall_impl; [|exact Hstop].
        intros e [_ Hin]. destruct e; try reflexivity.
        simpl in Hin. intuition discriminate.
      * repeat constructor.
      * constructor.
Qed.

End Pipeline.

(** ** The command line *)

Section CommandLineRuns.

Context {W : Type}.

Lemma dvalue_dbind {A B : Type} (m : D W A) (k : A -> D W B) (w : W) :
  dvalue (dbind m k w) = dvalue (k (dvalue (m w)) (dfinal (m w))).
Proof.
  unfold dbind, dvalue, dfinal.
  destruct (m w) as [[a d1] w1]; simpl.
  destruct (k a w1) as [[b d2] w2]; reflexivity.
Qed.

Lemma dlines_dbind {A B : Type} (m : D W A) (k : A -> D W B) (w : W) :
  dlines (dbind m k w) = dlines (m w) ++ dlines (k (dvalue (m w)) (dfinal (m w))).
Proof.
  unfold dbind, dvalue, dfinal, dlines.
  destruct (m w) as [[a d1] w1]; simpl.
  destruct (k a w1) as [[b d2] w2]; reflexivity.
Qed.

Lemma dfinal_dbind {A B : Type} (m : D W A) (k : A -> D W B) (w : W) :
  dfinal (dbind m k w) = dfinal (k (dvalue (m w)) (dfinal (m w))).
Proof.
  unfold dbind, dvalue, dfinal.
  destruct (m w) as [[a d1] w1]; simpl.
  destruct (k a w1) as [[b d2] w2]; reflexivity.
Qed.

Lemma dvalue_lift {A : Type} (m : M W A) (w : W) : dvalue (lift m w) = value (m w).
Proof. unfold lift. destruct (m w) as [[a d] w1]; reflexivity. Qed.

Lemma dlines_lift {A : Type} (m : M W A) (w : W) :
  dlines (lift m w) = map LEvent (events (m w)).
Proof. unfold lift. destruct (m w) as [[a d] w1]; reflexivity. Qed.

Lemma dfinal_lift {A : Type} (m : M W A) (w : W) : dfinal (lift m w) = final (m w).
Proof. unfold lift. destruct (m w) as [[a d] w1]; reflexivity. Qed.

Lemma dvalue_dret {A : Type} (a : A) (w : W) : dvalue (dret a w) = a.
Proof. reflexivity. Qed.
Lemma dlines_dret {A : Type} (a : A) (w : W) : dlines (dret a w) = [].
Proof. reflexivity. Qed.
Lemma dfinal_dret {A : Type} (a : A) (w : W) : dfinal (dret a w) = w.
Proof. reflexivity. Qed.

Lemma dvalue_say (l : Level) (m : DeployerMsg) (w : W) : dvalue (say l m w) = tt.
Proof. reflexivity. Qed.
Lemma dlines_say (l : Level) (m : DeployerMsg) (w : W) :
  dlines (say l m w) = [LSaid l m].
Proof. reflexivity. Qed.
Lemma dfinal_say (l : Level) (m : DeployerMsg) (w : W) : dfinal (say l m w) = w.
Proof. reflexivity. Qed.

Lemma events_of_app (l1 l2 : list Line) :
  events_of (l1 ++ l2) = events_of l1 ++ events_of l2.
Proof.
  induction l1 as [|x l1 IH]; simpl; [reflexivity|].
  destruct x; simpl; now rewrite IH.
Qed.

Lemma events_of_lifted (d : list Event) : events_of (map LEvent d) = d.
Proof. induction d as [|e d IH]; simpl; [reflexivity|now rewrite IH]. Qed.

Lemma drun_ext {A : Type} (r1 r2 : A * list Line * W) :
  dvalue r1 = dvalue r2 -> dlines r1 = dlines r2 -> dfinal r1 = dfinal r2 -> r1 = r2.
Proof.
  destruct r1 as [[a1 d1] w1], r2 as [[a2 d2] w2].
  unfold dvalue, dlines, dfinal; simpl; congruence.
Qed.

End CommandLineRuns.

Create Rewrite HintDb drun.
#[local] Hint Rewrite @dvalue_dbind @dlines_dbind @dfinal_dbind
  @dvalue_lift @dlines_lift @dfinal_lift
  @dvalue_dret @dlines_dret @dfinal_dret
  @dvalue_say @dlines_say @dfinal_say
  @events_of_app @events_of_lifted : drun.

Ltac drun := autorewrite with drun in *; cbn beta iota in *.

(** Evaluates the comparisons of a known command word. *)
Ltac eval_commands :=
  repeat match goal with
  | |- context [String.eqb ?a ?b] =>
      let v := eval vm_compute in (String.eqb a b) in
      change (String.eqb a b) with v
  end;
  cbn [orb]; cbn iota.

Section CommandLine.

Context {W : Type} (os : OS W) (lower : string -> string).

Lemma if_line_final (c : bool) (m1 m2 : D W unit) (w : W) :
  dfinal (m1 w) = w -> dfinal (m2 w) = w ->
  dfinal ((if c then m1 else m2) w) = w.
Proof. destruct c; auto. Qed.

Lemma if_line_events (c : bool) (m1 m2 : D W unit) (w : W) :
  Forall (fun e => is_log e = true) (events_of (dlines (m1 w))) ->
  Forall (fun e => is_log e = true) (events_of (dlines (m2 w))) ->
  Forall (fun e => is_log e = true) (events_of (dlines ((if c then m1 else m2) w))).
Proof. destruct c; auto. Qed.

(** X17 -- For [start_all] of the command line a health timeout is a
    failure: it returns [True] exactly when the services were started and
    the health wait that follows succeeded (where [restart_all] and
    [deploy_all] ignore the wait); and when the start fails it sends no
    health request. *)
Theorem start_all_strict_on_health (service_ids : option (list string)) (w : W) :
  dvalue (start_all os service_ids w)
  = value (start_all_services os service_ids w)
    && value (wait_for_services os service_ids 30
                (final (start_all_services os service_ids w)))
  /\ (value (start_all_services os service_ids w) = false ->
      Forall (fun e => is_health_request e = false)
        (events_of (dlines (start_all os service_ids w)))).
Proof.
  assert (F0 : dfinal ((if truthy service_ids
                        then lift (log INFO (MsgStartingServices (given service_ids)))
                        else say INFO DMsgStartingAll) w) = w).
  { destruct (truthy service_ids); reflexivity. }
  unfold start_all. drun. rewrite !F0. split.
  - destruct (value (start_all_services os service_ids w)); cbn [negb andb]; drun;
      reflexivity.
  - intros Hfail. rewrite Hfail. cbn [negb]. drun.
    repeat (apply Forall_app; split).
    + destruct (truthy service_ids); drun; repeat constructor.
    + eapply Forall_impl;
        [|apply (start_all_services_within os service_ids w)].
      intros e [_ Hin]. destruct e; try reflexivity.
      simpl in Hin. intuition discriminate.
    + constructor.
Qed.

Lemma status_lines_ok (current : list (string * bool)) (w : W) :
  Forall registered (map fst current) ->
  dvalue (status_lines current w) = Ok tt.
Proof.
  revert w; induction current as [|[id healthy] current IH]; intros w Hreg; simpl.
  - reflexivity.
  - inversion Hreg as [|? ? Hid Hrest]; subst. unfold registered in Hid. simpl in Hid.
    destruct (services_get id) as [config|]; [|contradiction].
    drun. apply IH. exact Hrest.
Qed.

Lemma status_command_ok (w : W) : dvalue (status_command os w) = Ok true.
Proof.
  unfold status_command. drun.
  rewrite status_lines_ok; [reflexivity|].
  unfold get_service_status. rewrite status_of_keys.
  apply services_keys_registered.
Qed.

Lemma invalid_services_false (ids : list string) :
  invalid_services ids = false <-> Forall registered ids.
Proof.
  unfold invalid_services. induction ids as [|id ids IH]; simpl.
  - split; [constructor|reflexivity].
  - rewrite orb_false_iff, IH, negb_false_iff. split.
    + intros [Hid Hrest]. constructor; [|exact Hrest].
      unfold registered, services_get, services_keys, services in *. simpl in *.
      repeat match goal with
      | H : context [String.eqb id ?s] |- _ => destruct (String.eqb id s)
      end; try discriminate; simpl in *; try discriminate.
    + intros Hall. inversion Hall as [|? ? Hid Hrest]; subst. split; [|exact Hrest].
      unfold registered, services_get, services_keys, services in *. simpl in *.
      repeat match goal with
      | H : context [String.eqb id ?s] |- _ => destruct (String.eqb id s)
      end; try reflexivity. contradiction.
Qed.

(** X18 -- [main] refuses before it acts.  Unless the command is "help":
    with an id that is not registered among the arguments, with a command
    it does not know, or with "test" and not exactly one id, the exit
    status is 1, nothing is logged and no call is made on the host; the ids
    it lets through are exactly the lists of registered ids.  "help" exits
    with 0 whatever follows it. *)
Theorem main_refuses_before_acting (prog arg1 : string) (rest : list string)
    (w : W) :
  (lower arg1 = "help" -> main os lower (prog :: arg1 :: rest) w = (0, [], w))
  /\ (lower arg1 <> "help" ->
      (invalid_services rest = true \/ known_command (lower arg1) = false
       \/ (lower arg1 = "test" /\ List.length rest <> 1%nat)) ->
      main os lower (prog :: arg1 :: rest) w = (1, [], w))
  /\ (invalid_services rest = false <-> Forall registered rest).
Proof.
  split; [|split].
  - intros Hhelp. unfold main. rewrite Hhelp. reflexivity.
  - intros Hhelp Hbad. unfold main. cbv zeta.
    destruct (String.eqb_spec (lower arg1) "help") as [|_]; [contradiction|].
    assert (Hgiven : given (match rest with [] => None | _ :: _ => Some rest end)
                     = rest) by (destruct rest; reflexivity).
    rewrite Hgiven.
    destruct (invalid_services rest) eqn:Hinv; [reflexivity|].
    destruct Hbad as [Hbad|[Hbad|[Htest Hlen]]]; [discriminate| |].
    + unfold known_command in Hbad. simpl in Hbad.
      repeat (apply orb_false_elim in Hbad as [?H Hbad]).
      repeat match goal with
      | H : String.eqb (lower arg1) ?s = false |- _ => rewrite H; clear H
      end.
      reflexivity.
    + rewrite Htest. eval_commands.
      destruct rest as [|id [|id' rest']]; try reflexivity.
      simpl in Hlen. contradiction.
  - apply invalid_services_false.
Qed.

(** X19 -- The exit status of [main] is that of the operation.  It is
    always 0 or 1.  For "quick" with registered ids (or none) it is 0
    exactly when the five stages of [deploy_all] without build succeeded on
    that subset, so a health timeout alone does not make it 1; without any
    argument [main] is the full deployment of all services; and "status"
    with valid arguments always exits with 0, whatever the health of the
    services. *)
Theorem main_exit_status (prog arg1 : string) (rest argv : list string) (w : W) :
  (dvalue (main os lower argv w) = 0 \/ dvalue (main os lower argv w) = 1)
  /\ (lower arg1 = "quick" -> invalid_services rest = false ->
      (dvalue (main os lower (prog :: arg1 :: rest) w) = 0
       <-> value (deploy_stages os true (subset_of rest) w) = true))
  /\ (dvalue (main os lower [prog] w) = 0
      <-> value (deploy_stages os false None w) = true)
  /\ (lower arg1 = "status" -> invalid_services rest = false ->
      dvalue (main os lower (prog :: arg1 :: rest) w) = 0).
Proof.
  assert (Hcode : forall b : bool, exit_code b = 0 \/ exit_code b = 1)
    by (intros []; auto).
  assert (Hcode' : forall r : result bool, exit_code_of r = 0 \/ exit_code_of r = 1)
    by (intros [[]|]; auto).
  assert (Hgiven : forall l : list string,
            given (match l with [] => None | _ :: _ => Some l end) = l)
    by (intros []; reflexivity).
  split; [|split; [|split]].
  - unfold main.
    destruct argv as [|p0 [|a1 l]]; cbv zeta; drun; try apply Hcode'.
    repeat match goal with
    | |- context [if ?c then _ else _] => destruct c
    end; drun; auto.
  - intros Hquick Hvalid. unfold main. cbv zeta. rewrite Hquick, Hgiven, Hvalid.
    eval_commands. drun.
    fold (subset_of rest). rewrite deploy_all_value.
    destruct (value (deploy_stages os true (subset_of rest) w)); simpl;
      split; auto; discriminate.
  - unfold main, full_deploy. drun. rewrite deploy_all_value.
    destruct (value (deploy_stages os false None w)); simpl;
      split; auto; discriminate.
  - intros Hstatus Hvalid. unfold main. cbv zeta. rewrite Hstatus, Hgiven, Hvalid.
    eval_commands. drun. rewrite status_command_ok. reflexivity.
Qed.

End CommandLine.

(** ** Testing one service *)

Section TestService.

Context {W : Type} (os : OS W).

(** Every event among the lines of every run of [m] satisfies [P]. *)
Lemma lines_dret {A : Type} (P : Event -> Prop) (a : A) (w : W) :
  Forall P (events_of (dlines (dret a w))).
Proof. constructor. Qed.

Lemma lines_say (P : Event -> Prop) (l : Level) (m : DeployerMsg) (w : W) :
  Forall P (events_of (dlines (say l m w))).
Proof. constructor. Qed.

Lemma lines_lift {A : Type} (P : Event -> Prop) (m : M W A) (w : W) :
  emits P m -> Forall P (events_of (dlines (lift m w))).
Proof. intros H. rewrite dlines_lift, events_of_lifted. apply H. Qed.

Lemma lines_dbind {A B : Type} (P : Event -> Prop) (m : D W A) (k : A -> D W B)
    (w : W) :
  Forall P (events_of (dlines (m w))) ->
  (forall a w', Forall P (events_of (dlines (k a w')))) ->
  Forall P (events_of (dlines (dbind m k w))).
Proof.
  intros Hm Hk. rewrite dlines_dbind, events_of_app. apply Forall_app. split.
  - exact Hm.
  - apply Hk.
Qed.

Lemma scoped_from_within {A : Type} (S : list string) (stages : list Stage)
    (m : M W A) :
  emits (within os S stages) m -> emits (scoped os S) m.
Proof. apply emits_weaken. intros e [He _]. exact He. Qed.

Ltac lines_steps :=
  repeat first
    [ apply lines_dret
    | apply lines_say
    | apply lines_dbind; [|intros]
    | match goal with
      | |- Forall _ (events_of (dlines (match ?x with _ => _ end _))) => destruct x
      end ].

Lemma check_service_health_200 (service_id : string) (config : ServiceConfig)
    (w : W) :
  services_get service_id = Some config ->
  value (check_service_health os service_id w) = true ->
  events (check_service_health os service_id w)
  = [EvHttpGet (port config) 5 (Ok 200)].
Proof.
  intros E Htrue.
  destruct (check_service_health_spec os service_id config w E) as (Hv & He & _).
  rewrite He. rewrite Hv in Htrue.
  destruct (fst (os_http_get os (port config) 5 w)) as [code|e]; [|discriminate].
  apply Z.eqb_eq in Htrue. subst code. reflexivity.
Qed.

Lemma found_with {A : Type} (P : Prop) (Q : A -> Prop) :
  P -> (exists d, Q d) -> exists d, P /\ Q d.
Proof.
  intros HP [d HQ]. exists d. split; assumption.
Qed.

Lemma ends_after {A : Type} (e : A) (l1 l2 : list A) :
  (exists d, l2 = d ++ [e]) -> exists d, l1 ++ l2 = d ++ [e].
Proof.
  intros [d ->]. exists (l1 ++ d). apply app_assoc.
Qed.

Lemma test_service_scoped (service_id : string) (w : W) :
  Forall (scoped os [service_id]) (events_of (dlines (test_service os service_id w))).
Proof.
  assert (Hin : In service_id [service_id]) by now left.
  unfold test_service.
  destruct (services_get service_id) as [config|] eqn:E.
  2: { lines_steps. apply lines_lift, emits_log. exact I. }
  lines_steps;
    try (apply lines_lift;
         first
           [ apply (scoped_from_within _ [StLog]), find_process_by_port_within;
             now left
           | apply (scoped_from_within _ _ _
                      (stop_service_by_port_within os _ service_id config Hin E))
           | apply (scoped_from_within _ _ _
                      (build_services_within os (Some [service_id])))
           | apply (scoped_from_within _ _ _
                      (copy_config_files_within os (Some [service_id])))
           | apply (scoped_from_within _ _ _
                      (copy_services_within os (Some [service_id])))
           | apply (scoped_from_within _ _ _
                      (start_service_within os _ service_id Hin))
           | apply (scoped_from_within _ _ _
                      (check_service_health_within os [service_id] service_id))
           | apply emits_sleep; exact I ]).
Qed.


End TestService.

(** ** A stop that succeeds was confirmed *)

Section Confirmed.

Context {W : Type} (os : OS W).

(** X21 -- [stop_service_by_port] reports success only on a confirmed
    exit: when it returns [True], either no process was found on the port
    and no call was made, or its last call is a wait on the located process
    that returned without a timeout. *)
Theorem stop_service_by_port_confirmed (port : Z) (service_name : string) (w : W) :
  value (stop_service_by_port os port service_name w) = true ->
  (value (find_process_by_port os port w) = None
   /\ calls (events (stop_service_by_port os port service_name w)) = [])
  \/ exists pid before timeout,
       value (find_process_by_port os port w) = Some pid
       /\ calls (events (stop_service_by_port os port service_name w))
          = before ++ [EvWait pid timeout (Ok tt)].
Proof.
  intros Htrue.
  destruct (value (find_process_by_port os port w)) as [pid|] eqn:Hfound.
  - right. exists pid.
    pose proof (stop_service_by_port_escalation os port service_name pid w Hfound)
      as Hesc.
    rewrite Htrue in Hesc. inversion Hesc.
    + exists [EvTerminate service_name pid (Ok tt)], 10. split; reflexivity.
    + exists [EvTerminate service_name pid (Ok tt);
              EvWait pid 10 (Raise TimeoutExpired);
              EvKill service_name pid (Ok tt)], 5.
      split; reflexivity.
  - left. split; [reflexivity|].
    unfold stop_service_by_port. run. rewrite Hfound. run.
    unfold calls. rewrite filter_app. simpl. rewrite app_nil_r.
    pose proof (find_process_by_port_logs os port w) as Hlogs.
    induction Hlogs as [|e d He _ IH]; simpl; [reflexivity|].
    rewrite He. simpl. exact IH.
Qed.

End Confirmed.

(** The backend is not running on the host where only the gateway is up:
    its stop succeeds without a call. *)
Lemma stop_service_by_port_confirmed_witness :
  (value (find_process_by_port Host.os 8081 Host.gateway_up) = None
   /\ calls (events (stop_service_by_port Host.os 8081 "Chaos Backend"
                       Host.gateway_up)) = [])
  \/ exists pid before timeout,
       value (find_process_by_port Host.os 8081 Host.gateway_up) = Some pid
       /\ calls (events (stop_service_by_port Host.os 8081 "Chaos Backend"
                           Host.gateway_up))
          = before ++ [EvWait pid timeout (Ok tt)].
Proof.
  apply (stop_service_by_port_confirmed Host.os 8081 "Chaos Backend"
           Host.gateway_up).
  vm_compute. reflexivity.
Defined.

(** A quick deployment asked for a service that does not exist: exit
    status 1, nothing done. *)
Lemma main_refuses_before_acting_witness :
  main Host.os lower_ascii ["simple_deploy.py"; "QUICK"; "bogus"] Host.installed
  = (1, [], Host.installed).
Proof.
  apply (main_refuses_before_acting Host.os lower_ascii
           "simple_deploy.py" "QUICK" ["bogus"] Host.installed).
  - vm_compute. discriminate.
  - left. vm_compute. reflexivity.
Defined.

(** The status command and a quick deployment of the gateway on the
    installed host both exit with 0. *)
Lemma main_exit_status_witness :
  dvalue (main Host.os lower_ascii ["simple_deploy.py"; "Status"] Host.installed) = 0
  /\ dvalue (main Host.os lower_ascii ["simple_deploy.py"; "quick"; "api-gateway"]
               Host.installed) = 0.
Proof.
  split.
  - apply (proj2 (proj2 (proj2
      (main_exit_status Host.os lower_ascii "simple_deploy.py" "Status" []
         [] Host.installed)))); vm_compute; reflexivity.
  - apply (proj1 (proj2
      (main_exit_status Host.os lower_ascii "simple_deploy.py" "quick"
         ["api-gateway"] [] Host.installed))); vm_compute; reflexivity.
Defined.

(** A quick deployment on a fresh checkout fails at the configuration
    stage and never probes health. *)
Lemma deploy_all_failure_ends_there_witness :
  Forall (fun e => is_health_request e = false)
    (events (deploy_all Host.os true (Some ["api-gateway"]) Host.fresh_checkout)).
Proof.
  apply (deploy_all_failure_ends_there Host.os true (Some ["api-gateway"])
           Host.fresh_checkout).
  vm_compute. reflexivity.
Defined.
